(** * preprocess_svg.py: batch normalisation of SVG files

    A shallow embedding of [preprocess_svg.py] and of the parts of its
    platform that its behaviour depends on:

    - [PyStr] and [posixpath]: the string methods and the functions of
      [os.path] the script calls ([join], [dirname], [splitext], [relpath]
      with [abspath] and [normpath]), after CPython's [posixpath.py] and
      [genericpath.py];
    - [FS]: a tree-shaped file system with the calls the script makes
      ([os.makedirs], [open(.., "w")], [os.path.getsize], [os.path.exists],
      [os.remove], the directory listing of [os.walk]);
    - the two external collaborators, taken as parameters
      ([Collaborators]): the [picosvg] executable and the [SVG] class of the
      geometry library;
    - the script itself: [preprocess_svg], [process_svg],
      [process_single_file], [process_directory] and [main], written in a
      state-and-exception monad over the world they act on.

    What the model leaves out: symbolic links and permissions (a path is
    resolved by its normalised absolute form, and [os.makedirs] is one
    change at that place: the directories it makes on its way through a
    [..] of the path as written are not modelled); [argparse] itself ([main]
    starts from the parsed [args]); exceptions outside the class [Exception]
    ([KeyboardInterrupt]), which no [except] clause of the script catches.

    The statements about the script come after the definitions, each under
    the number of the claim it settles; further properties of the script
    follow them, numbered X1 to X21. The statement of C2 stands with the
    lemmas on the walk that it rests on. *)

From Stdlib Require Import String Ascii List ZArith Lia Bool Arith PeanoNat.
From Stdlib Require Import Floats.
Import ListNotations.

Local Open Scope string_scope.
Local Open Scope list_scope.

Set Implicit Arguments.

(** Concatenation of strings, Python's [+] on [str]. *)
Infix "+++" := String.append (right associativity, at level 60).

(* ================================================================== *)
(** * Python strings *)
(* ================================================================== *)

Module PyStr.

(** The newline character, ["\n"]. *)
Definition nl : string := String (ascii_of_nat 10) EmptyString.

Definition slash : ascii := "/"%char.
Definition dot : ascii := "."%char.

Definition is_slash (c : ascii) : bool := Ascii.eqb c slash.

(** [s.startswith("/")] *)
Definition startswith_sep (s : string) : bool :=
  match s with
  | String c _ => is_slash c
  | EmptyString => false
  end.

(** [s.endswith("/")] *)
Fixpoint endswith_sep (s : string) : bool :=
  match s with
  | EmptyString => false
  | String c EmptyString => is_slash c
  | String _ s' => endswith_sep s'
  end.

(** [s[i:]] for [0 <= i] *)
Fixpoint drop (i : nat) (s : string) : string :=
  match i, s with
  | O, _ => s
  | S i', String _ s' => drop i' s'
  | S _, EmptyString => EmptyString
  end.

(** [s[:i]] for [0 <= i] *)
Fixpoint take (i : nat) (s : string) : string :=
  match i, s with
  | O, _ => EmptyString
  | S i', String c s' => String c (take i' s')
  | S _, EmptyString => EmptyString
  end.

(** [s.endswith(suffix)] *)
Definition endswith (s suffix : string) : bool :=
  (String.length suffix <=? String.length s)%nat
  && String.eqb (drop (String.length s - String.length suffix) s) suffix.

(** [s.rfind(c)] for a one-character needle: the highest index of [c],
    or [-1]. *)
Fixpoint rfind (c : ascii) (s : string) : Z :=
  match s with
  | EmptyString => (-1)%Z
  | String a s' =>
      let r := rfind c s' in
      if (0 <=? r)%Z then (r + 1)%Z
      else if Ascii.eqb a c then 0%Z else (-1)%Z
  end.

(** [s.split("/")] *)
Fixpoint split (s : string) : list string :=
  match s with
  | EmptyString => [EmptyString]
  | String c s' =>
      if is_slash c then EmptyString :: split s'
      else match split s' with
           | h :: t => String c h :: t
           | [] => [String c EmptyString]
           end
  end.

(** ["/".join(l)] *)
Fixpoint join_sep (l : list string) : string :=
  match l with
  | [] => EmptyString
  | [x] => x
  | x :: l' => x +++ "/" +++ join_sep l'
  end.

(** [s.rstrip("/")] *)
Fixpoint rstrip_sep (s : string) : string :=
  match s with
  | EmptyString => EmptyString
  | String c s' =>
      match rstrip_sep s' with
      | EmptyString => if is_slash c then EmptyString else String c EmptyString
      | r => String c r
      end
  end.

(** [s == "/" * len(s)] *)
Fixpoint all_sep (s : string) : bool :=
  match s with
  | EmptyString => true
  | String c s' => is_slash c && all_sep s'
  end.

(** [[x for x in l if x]] *)
Definition nonempty (s : string) : bool :=
  match s with EmptyString => false | _ => true end.

(** No ["/"] occurs in [s]. *)
Fixpoint sep_free (s : string) : bool :=
  match s with
  | EmptyString => true
  | String c s' => negb (is_slash c) && sep_free s'
  end.

End PyStr.

(* ================================================================== *)
(** * os.path on POSIX *)
(* ================================================================== *)

Module posixpath.

Import PyStr.

(** [os.path.join(a, b)]:
<<
    if b.startswith(sep): path = b
    elif not path or path.endswith(sep): path += b
    else: path += sep + b
>> *)
Definition join (a b : string) : string :=
  if startswith_sep b then b
  else if negb (nonempty a) || endswith_sep a then a +++ b
  else a +++ "/" +++ b.

(** [os.path.join(a, *p)] *)
Definition join_all (a : string) (p : list string) : string :=
  fold_left join p a.

(** [os.path.isabs] *)
Definition isabs (p : string) : bool := startswith_sep p.

(** One turn of the loop of [normpath] over the components:
<<
    if comp in ('', '.'): continue
    if (comp != '..' or (not initial_slashes and not new_comps) or
         (new_comps and new_comps[-1] == '..')):
        new_comps.append(comp)
    elif new_comps:
        new_comps.pop()
>>
    [new_comps] is kept in order, the last component last. *)
Definition norm_step (initial_slashes : nat) (new_comps : list string)
    (comp : string) : list string :=
  if String.eqb comp "" || String.eqb comp "." then new_comps
  else if negb (String.eqb comp "..")
          || ((initial_slashes =? 0)%nat && match new_comps with [] => true | _ => false end)
          || match rev new_comps with
             | l :: _ => String.eqb l ".."
             | [] => false
             end
       then new_comps ++ [comp]
  else removelast new_comps.

Definition initial_slashes_of (path : string) : nat :=
  if startswith_sep path then
    if startswith_sep (drop 1 path) && negb (startswith_sep (drop 2 path))
    then 2%nat else 1%nat
  else 0%nat.

Definition norm_comps (path : string) : list string :=
  fold_left (norm_step (initial_slashes_of path)) (split path) [].

Fixpoint slashes (n : nat) : string :=
  match n with O => "" | S n' => String slash (slashes n') end.

(** [os.path.normpath] *)
Definition normpath (path : string) : string :=
  if negb (nonempty path) then "."
  else
    let r := slashes (initial_slashes_of path) +++ join_sep (norm_comps path) in
    if nonempty r then r else ".".

(** [os.path.abspath], with the current directory as an argument. *)
Definition abspath (cwd path : string) : string :=
  normpath (if isabs path then path else join cwd path).

(** [os.path.commonprefix([l1, l2])] on two lists of components: the
    longest common leading part (the source takes it of [min] and [max]
    of the two, which is the same part). *)
Fixpoint commonprefix (l1 l2 : list string) : list string :=
  match l1, l2 with
  | x :: l1', y :: l2' => if String.eqb x y then x :: commonprefix l1' l2' else []
  | _, _ => []
  end.

(** [[x for x in abspath(p).split(sep) if x]] *)
Definition abs_list (cwd p : string) : list string :=
  filter nonempty (split (abspath cwd p)).

(** [os.path.relpath(path, start)]; [None] is the [ValueError] raised
    for an empty [path]. *)
Definition relpath (cwd path start : string) : option string :=
  if negb (nonempty path) then None
  else
    let start_list := abs_list cwd start in
    let path_list := abs_list cwd path in
    let i := List.length (commonprefix start_list path_list) in
    let rel_list := repeat ".." (List.length start_list - i) ++ skipn i path_list in
    match rel_list with
    | [] => Some "."
    | a :: p => Some (join_all a p)
    end.

(** [os.path.dirname]:
<<
    i = p.rfind(sep) + 1
    head = p[:i]
    if head and head != sep*len(head): head = head.rstrip(sep)
>> *)
Definition dirname (p : string) : string :=
  let i := (rfind slash p + 1)%Z in
  let head := take (Z.to_nat i) p in
  if nonempty head && negb (all_sep head) then rstrip_sep head else head.

(** The loop of [genericpath._splitext] that skips leading dots: is there
    a character other than ["."] at one of the [n] indexes from
    [filenameIndex] on? *)
Fixpoint has_non_dot (p : string) (filenameIndex : nat) (n : nat) : bool :=
  match n with
  | O => false
  | S n' =>
      match String.get filenameIndex p with
      | Some c => if Ascii.eqb c dot then has_non_dot p (S filenameIndex) n' else true
      | None => true
      end
  end.

(** [os.path.splitext]:
<<
    sepIndex = p.rfind(sep)
    dotIndex = p.rfind(extsep)
    if dotIndex > sepIndex:
        filenameIndex = sepIndex + 1
        while filenameIndex < dotIndex:
            if p[filenameIndex:filenameIndex+1] != extsep:
                return p[:dotIndex], p[dotIndex:]
            filenameIndex += 1
    return p, p[:0]
>> *)
Definition splitext (p : string) : string * string :=
  let sepIndex := rfind slash p in
  let dotIndex := rfind dot p in
  if (sepIndex <? dotIndex)%Z
     && has_non_dot p (Z.to_nat (sepIndex + 1)) (Z.to_nat (dotIndex - (sepIndex + 1)))
  then (take (Z.to_nat dotIndex) p, drop (Z.to_nat dotIndex) p)
  else (p, "").

(** ** Definitions for the lemmas on paths *)

(** The path [abspath] normalises: [path] itself when it is absolute, and
    [join(cwd, path)] otherwise. *)
Definition abs_of (cwd p : string) : string :=
  if isabs p then p else join cwd p.

(** The components [normpath] keeps of an absolute path. *)
Definition abs_norm (p : string) : list string :=
  fold_left (norm_step 1) (split p) [].

(** ["/" + x1 + "/" + x2 ...] *)
Definition tail_str (p : list string) : string :=
  fold_right (fun x acc => "/" +++ x +++ acc) "" p.

(** The prefix [join] puts before a relative path. *)
Definition cwd_prefix (cwd : string) : string :=
  if negb (nonempty cwd) || endswith_sep cwd then cwd else cwd +++ "/".

End posixpath.

(* ================================================================== *)
(** * Exceptions *)
(* ================================================================== *)

(** The exceptions that reach the script. Every constructor is a subclass of
    Python's [Exception]; [CalledProcessError] is the one [preprocess_svg]
    names in its [except] clause. *)
Inductive exn : Type :=
| CalledProcessError (returncode : Z)
| FileNotFoundError
| FileExistsError
| IsADirectoryError
| NotADirectoryError
| ValueError
| LibraryError (msg : string).

Definition is_CalledProcessError (e : exn) : bool :=
  match e with CalledProcessError _ => true | _ => false end.

(** [str(e)], as the messages of the script print it. *)
Definition str_exn (e : exn) : string :=
  match e with
  | CalledProcessError _ => "Command returned non-zero exit status"
  | FileNotFoundError => "No such file or directory"
  | FileExistsError => "File exists"
  | IsADirectoryError => "Is a directory"
  | NotADirectoryError => "Not a directory"
  | ValueError => "no path specified"
  | LibraryError msg => msg
  end.

(* ================================================================== *)
(** * Printing integers *)
(* ================================================================== *)

Fixpoint str_pos_fuel (fuel : nat) (n : N) (acc : string) : string :=
match fuel with
| O => acc
| S fuel' =>
    let digit := ascii_of_N (48 + N.modulo n 10) in
    let acc' := String digit acc in
    if (N.div n 10 =? 0)%N then acc' else str_pos_fuel fuel' (N.div n 10) acc'
end.

(** [str(n)] for an [int]. *)
Definition str_int (n : Z) : string :=
match n with
| Z0 => "0"
| Zpos p => str_pos_fuel (Pos.to_nat p) (Npos p) ""
| Zneg p => String "-" (str_pos_fuel (Pos.to_nat p) (Npos p) "")
end.

(* ================================================================== *)
(** * The file system *)
(* ================================================================== *)

Module FS.

(** A file system is a tree: a regular file with its bytes, or a directory
    with its entries in listing order. There are no symbolic links and no
    permissions. *)
#[warnings="-register-all"]
Inductive node : Type :=
| File (data : string)
| Dir (entries : list (string * node)).

Definition entries := list (string * node).

Fixpoint get_entry (name : string) (es : entries) : option node :=
  match es with
  | [] => None
  | (k, n) :: es' => if String.eqb k name then Some n else get_entry name es'
  end.

(** [put_entry name (Some n)] replaces the entry [name], or appends it
  when there is none; [put_entry name None] unlinks the name. *)
Fixpoint put_entry (name : string) (o : option node) (es : entries) : entries :=
  match es with
  | [] => match o with Some n => [(name, n)] | None => [] end
  | (k, n0) :: es' =>
      if String.eqb k name
      then match o with
           | Some n => (k, n) :: es'
           | None => put_entry name None es'
           end
      else (k, n0) :: put_entry name o es'
  end.

(** The node at a path given by its components, from the root. *)
Fixpoint lookup (p : list string) (o : option node) : option node :=
  match p with
  | [] => o
  | c :: p' =>
      match o with
      | Some (Dir es) => lookup p' (get_entry c es)
      | _ => None
      end
  end.

(** Change the node at path [p]: [f] maps what is there ([None]: nothing)
    to what shall be there ([None]: unlink it). A missing directory on the
    way is created when [mk] is set, and is an error otherwise. *)
Fixpoint alter (mk : bool) (f : option node -> exn + option node)
    (p : list string) (o : option node) : exn + option node :=
  match p with
  | [] => f o
  | c :: p' =>
      match o with
      | Some (Dir es) =>
          match alter mk f p' (get_entry c es) with
          | inl e => inl e
          | inr o' => inr (Some (Dir (put_entry c o' es)))
          end
      | Some (File _) => inl NotADirectoryError
      | None =>
          if mk then
            match alter mk f p' None with
            | inl e => inl e
            | inr o' => inr (Some (Dir (put_entry c o' [])))
            end
          else inl FileNotFoundError
      end
  end.

(** [mkdir] of the last component of [os.makedirs(.., exist_ok=True)]:
    an existing directory is kept, an existing file is an error. *)
Definition mkdir_exist_ok (o : option node) : exn + option node :=
  match o with
  | None => inr (Some (Dir []))
  | Some (Dir es) => inr (Some (Dir es))
  | Some (File _) => inl FileExistsError
  end.

(** [open(path, "w")] followed by writing [data]: the file is created or
    truncated; a directory cannot be opened for writing. *)
Definition write_file (data : string) (o : option node) : exn + option node :=
  match o with
  | Some (Dir _) => inl IsADirectoryError
  | _ => inr (Some (File data))
  end.

(** [unlink] *)
Definition unlink (o : option node) : exn + option node :=
  match o with
  | Some (File _) => inr None
  | Some (Dir _) => inl IsADirectoryError
  | None => inl FileNotFoundError
  end.

(** The size [os.path.getsize] reports: the number of bytes of a file;
    for a directory the size of its inode block. *)
Definition size_of (n : node) : Z :=
  match n with
  | File data => Z.of_nat (String.length data)
  | Dir _ => 4096%Z
  end.

Definition is_dir (n : node) : bool :=
  match n with Dir _ => true | File _ => false end.

(** The names a directory entry can have: not empty, without ["/"], and
    neither ["."] nor [".."]. *)
Definition valid_name (name : string) : bool :=
  PyStr.nonempty name && PyStr.sep_free name
  && negb (String.eqb name ".") && negb (String.eqb name "..").

(** The number of names in [names] that end in [.svg]. *)
Definition count_svg_names (names : list string) : nat :=
  List.length (filter (fun name => PyStr.endswith name ".svg") names).

(** The number of files under a node whose names end in [.svg]: the
    entries of a directory that are not directories themselves, and those of
    the directories below it. *)
Fixpoint count_svg (n : node) : nat :=
  match n with
  | File _ => 0
  | Dir es =>
      (fix count_entries (l : entries) : nat :=
         match l with
         | [] => 0
         | (name, File _) :: l' =>
             (if PyStr.endswith name ".svg" then 1 else 0) + count_entries l'
         | (_, Dir _ as d) :: l' => count_svg d + count_entries l'
         end) es
  end%nat.

(** The number of directory levels of a node. *)
Fixpoint depth (n : node) : nat :=
  match n with
  | File _ => 0
  | Dir es =>
      S ((fix depth_entries (l : entries) : nat :=
            match l with
            | [] => 0
            | (_, ch) :: l' => Nat.max (depth ch) (depth_entries l')
            end) es)
  end%nat.

Fixpoint distinct (names : list string) : bool :=
  match names with
  | [] => true
  | x :: names' => negb (existsb (String.eqb x) names') && distinct names'
  end.

(** A well-formed tree: in every directory the names are names a directory
    entry can have, and no two entries share one. *)
Fixpoint wf_node (n : node) : bool :=
  match n with
  | File _ => true
  | Dir es =>
      distinct (map fst es)
      && (fix wf_entries (l : entries) : bool :=
            match l with
            | [] => true
            | (name, ch) :: l' => valid_name name && wf_node ch && wf_entries l'
            end) es
  end.

(** [p] is a leading part of [q]: the path [q] is [p] or lies below it. *)
Fixpoint is_prefix (p q : list string) : bool :=
  match p, q with
  | [], _ => true
  | x :: p', y :: q' => String.eqb x y && is_prefix p' q'
  | _ :: _, [] => false
  end.

(** The [.svg] files below the directories [names] of [es]. *)
Definition count_children (es : entries) (names : list string) : nat :=
  list_sum (map (fun name => match get_entry name es with
                             | Some n => count_svg n
                             | None => 0%nat
                             end) names).

(** The names [os.scandir] lists, directories and the rest apart, as
    [os.walk] sorts them into [dirs] and [nondirs]. *)
Definition dir_names (es : entries) : list string :=
  map fst (filter (fun kn => is_dir (snd kn)) es).

Definition nondir_names (es : entries) : list string :=
  map fst (filter (fun kn => negb (is_dir (snd kn))) es).

(** The changes the script makes never replace a directory. *)
Definition keeps_dirs (f : option node -> exn + option node) : Prop :=
  forall es x, f (Some (Dir es)) = inr x -> x = Some (Dir es).

(** A path string names the component list of its absolute, normalised
    form; the empty string names nothing. *)
Definition resolve (cwd path : string) : option (list string) :=
  if PyStr.nonempty path then Some (posixpath.abs_list cwd path) else None.

End FS.

(* ================================================================== *)
(** * The collaborators *)
(* ================================================================== *)

(** [deepsvg.svglib.geom.Bbox(width, height)] *)
Record bbox : Type := Bbox { bbox_w : Z; bbox_h : Z }.

(** What [subprocess.run] meets: the process ran, wrote [stdout] and exited
    with [returncode]; or it could not be started. *)
Inductive completed : Type :=
| Completed (stdout : string) (returncode : Z)
| NotStarted (e : exn).

(** The two collaborators of the script: the [picosvg] executable and the
    [SVG] class of the geometry library. A method of [SVG] maps the state of
    the document to its new state, or raises. *)
Record Collaborators : Type := {
  doc : Type;
  (** [picosvg input_path], run in directory [cwd] on the file system [fs] *)
  picosvg : string -> FS.node -> string -> completed;
  (** [SVG.from_str], the parser behind [SVG.load_svg] *)
  from_str : string -> exn + doc;
  zoom : float -> doc -> exn + doc;
  normalize : bbox -> doc -> exn + doc;
  simplify_arcs : doc -> exn + doc;
  simplify_heuristic : doc -> exn + doc;
  split : Z -> doc -> exn + doc;
  (** [SVG.save_svg]: the bytes that reach the file, and the exception if
      serialising or writing raised *)
  to_file : doc -> string * option exn;
  (** the bounding box (view box) of the document *)
  viewbox : doc -> bbox
}.

(** Calls into the collaborators, as recorded in the order they are made.
    [obj] is the address of the [SVG] object the method is called on. *)
Inductive call : Type :=
| CallPicosvg (input_path : string)
| CallLoad (path : string)
| CallZoom (obj : nat) (scale : float)
| CallNormalize (obj : nat) (box : bbox)
| CallSimplifyArcs (obj : nat)
| CallSimplifyHeuristic (obj : nat)
| CallSplit (obj : nat) (max_dist : Z)
| CallSave (obj : nat) (path : string).

(* ================================================================== *)
(** * The world and the monad of the script *)
(* ================================================================== *)

(** How a computation ends: with a value, with an exception of class
  [Exception], with [SystemExit], or unfinished because the walk was
  given too little fuel. *)
Inductive outcome (A : Type) : Type :=
| Ok (a : A)
| Raise (e : exn)
| SysExit (code : Z)
| OutOfFuel.

Arguments Raise {A} e.
Arguments SysExit {A} code.
Arguments OutOfFuel {A}.

Section Script.

Variable lib : Collaborators.

Record world : Type := mkWorld {
  fs : FS.entries;             (** the entries of the root directory *)
  cwd : string;                (** [os.getcwd()] *)
  heap : list (doc lib);       (** the [SVG] objects, by address *)
  stdout : list string;        (** lines printed *)
  stderr : list string;
  calls : list call            (** calls into the collaborators *)
}.

Definition M (A : Type) : Type := world -> outcome A * world.

Definition ret {A} (a : A) : M A := fun w => (Ok a, w).

Definition bind {A B} (m : M A) (k : A -> M B) : M B :=
  fun w =>
    match m w with
    | (Ok a, w') => k a w'
    | (Raise e, w') => (Raise e, w')
    | (SysExit c, w') => (SysExit c, w')
    | (OutOfFuel, w') => (OutOfFuel, w')
    end.

Definition raise {A} (e : exn) : M A := fun w => (Raise e, w).

(** [try: m  except cls as e: handler e]: an exception of another class
    passes through, and so do [SystemExit] and a walk out of fuel. *)
Definition try_except_cls {A} (cls : exn -> bool) (m : M A) (handler : exn -> M A) : M A :=
  fun w =>
    match m w with
    | (Raise e, w') => if cls e then handler e w' else (Raise e, w')
    | r => r
    end.

(** [try: m  except Exception as e: handler e] *)
Definition try_except {A} (m : M A) (handler : exn -> M A) : M A :=
  try_except_cls (fun _ => true) m handler.

Notation "x <- m ;; k" := (bind m (fun x => k))
  (at level 61, m at next level, right associativity).
Notation "m ;;; k" := (bind m (fun _ => k))
  (at level 61, right associativity).

(** [for x in l: acc = body x acc] *)
Fixpoint for_each {A B} (l : list B) (body : B -> A -> M A) (acc : A) : M A :=
  match l with
  | [] => ret acc
  | x :: l' => acc' <- body x acc ;; for_each l' body acc'
  end.

(** ** Primitive actions *)

Definition print (line : string) : M unit :=
  fun w => (Ok tt, mkWorld (fs w) (cwd w) (heap w) (stdout w ++ [line]) (stderr w) (calls w)).

Definition log_call (c : call) : M unit :=
  fun w => (Ok tt, mkWorld (fs w) (cwd w) (heap w) (stdout w) (stderr w) (calls w ++ [c])).

(** The root directory. *)
Definition root (w : world) : FS.node := FS.Dir (fs w).

Definition set_fs (w : world) (es : FS.entries) : world :=
  mkWorld es (cwd w) (heap w) (stdout w) (stderr w) (calls w).

Definition set_heap (w : world) (h : list (doc lib)) : world :=
  mkWorld (fs w) (cwd w) h (stdout w) (stderr w) (calls w).

(** A system call that changes the node at [path]. *)
Definition fs_alter (mk : bool) (f : option FS.node -> exn + option FS.node)
    (path : string) : M unit :=
  fun w =>
    match FS.resolve (cwd w) path with
    | None => (Raise FileNotFoundError, w)
    | Some p =>
        match FS.alter mk f p (Some (root w)) with
        | inl e => (Raise e, w)
        | inr (Some (FS.Dir es)) => (Ok tt, set_fs w es)
        | inr _ => (Raise IsADirectoryError, w)
        end
    end.

Definition fs_lookup (w : world) (path : string) : option FS.node :=
  match FS.resolve (cwd w) path with
  | None => None
  | Some p => FS.lookup p (Some (root w))
  end.

(** [os.makedirs(path, exist_ok=True)] *)
Definition makedirs (path : string) : M unit :=
  fs_alter true FS.mkdir_exist_ok path.

(** [open(path, "w")]: create or truncate. *)
Definition open_w (path : string) : M unit :=
  fs_alter false (FS.write_file "") path.

(** Bytes written through the open file. *)
Definition write (path data : string) : M unit :=
  fs_alter false (FS.write_file data) path.

(** [os.remove(path)] *)
Definition remove (path : string) : M unit :=
  fs_alter false FS.unlink path.

(** [os.path.getsize(path)] *)
Definition getsize (path : string) : M Z :=
  fun w =>
    match fs_lookup w path with
    | Some n => (Ok (FS.size_of n), w)
    | None => (Raise FileNotFoundError, w)
    end.

(** [os.path.exists(path)] *)
Definition exists_ (path : string) : M bool :=
  fun w => (Ok (match fs_lookup w path with Some _ => true | None => false end), w).

Definition is_file (w : world) (path : string) : bool :=
  match fs_lookup w path with Some (FS.File _) => true | _ => false end.

Definition path_exists (w : world) (path : string) : bool :=
  match fs_lookup w path with Some _ => true | None => false end.


(** ** The geometry library, called on objects of the heap *)

Fixpoint list_set {A} (i : nat) (x : A) (l : list A) : list A :=
match l, i with
| [], _ => []
| _ :: l', O => x :: l'
| y :: l', S i' => y :: list_set i' x l'
end.

(** [SVG.load_svg(path)]: read the file, parse it, return a new object. *)
Definition SVG_load_svg (path : string) : M nat :=
log_call (CallLoad path) ;;;
fun w =>
  match fs_lookup w path with
  | Some (FS.File data) =>
      match from_str lib data with
      | inl e => (Raise e, w)
      | inr d => (Ok (List.length (heap w)), set_heap w (heap w ++ [d]))
      end
  | Some (FS.Dir _) => (Raise IsADirectoryError, w)
  | None => (Raise FileNotFoundError, w)
  end.

(** A method that changes the object [obj] in place. *)
Definition method (c : call) (obj : nat) (f : doc lib -> exn + doc lib) : M unit :=
log_call c ;;;
fun w =>
  match nth_error (heap w) obj with
  | None => (Raise (LibraryError "no such object"), w)
  | Some d =>
      match f d with
      | inl e => (Raise e, w)
      | inr d' => (Ok tt, set_heap w (list_set obj d' (heap w)))
      end
  end.

Definition SVG_zoom (svg : nat) (scale : float) : M unit :=
method (CallZoom svg scale) svg (zoom lib scale).

Definition SVG_normalize (svg : nat) (box : bbox) : M unit :=
method (CallNormalize svg box) svg (normalize lib box).

Definition SVG_simplify_arcs (svg : nat) : M unit :=
method (CallSimplifyArcs svg) svg (simplify_arcs lib).

Definition SVG_simplify_heuristic (svg : nat) : M unit :=
method (CallSimplifyHeuristic svg) svg (simplify_heuristic lib).

Definition SVG_split (svg : nat) (max_dist : Z) : M unit :=
method (CallSplit svg max_dist) svg (split lib max_dist).

(** [svg.save_svg(path)]: open the file for writing and write the
    serialised document. *)
Definition SVG_save_svg (svg : nat) (path : string) : M unit :=
log_call (CallSave svg path) ;;;
fun w =>
  match nth_error (heap w) svg with
  | None => (Raise (LibraryError "no such object"), w)
  | Some d =>
      (open_w path ;;;
       write path (fst (to_file lib d)) ;;;
       match snd (to_file lib d) with
       | Some e => raise e
       | None => ret tt
       end) w
  end.

(** ** The script *)

(** [subprocess.run(["picosvg", input_path], stdout=output_file, check=True)]
    with [output_file] open on [output_path]. *)
Definition subprocess_run_picosvg (input_path output_path : string) : M unit :=
log_call (CallPicosvg input_path) ;;;
fun w =>
  match picosvg lib (cwd w) (root w) input_path with
  | NotStarted e => (Raise e, w)
  | Completed out returncode =>
      (write output_path out ;;;
       if (returncode =? 0)%Z then ret tt
       else raise (CalledProcessError returncode)) w
  end.

Definition preprocess_svg (input_path output_path : string) : M bool :=
try_except_cls is_CalledProcessError
  (open_w output_path ;;;
   subprocess_run_picosvg input_path output_path ;;;
   print ("Preprocessed SVG saved to " +++ output_path) ;;;
   ret true)
  (fun e =>
     print ("Error preprocessing " +++ input_path +++ ": " +++ str_exn e) ;;;
     ret false).

Definition process_svg (svg : nat) (scale : float) (width height : Z)
  (simplify : bool) (max_dist : Z) : M nat :=
SVG_zoom svg scale ;;;
SVG_normalize svg (Bbox width height) ;;;
(if simplify then
   SVG_simplify_arcs svg ;;;
   SVG_simplify_heuristic svg ;;;
   SVG_split svg max_dist
 else ret tt) ;;;
ret svg.

(** Lines 107-114 of [process_single_file]: load, transform, save. *)
Definition load_process_save (output_path : string) (scale : float)
  (width height : Z) (simplify : bool) (max_dist : Z) : M bool :=
svg <- SVG_load_svg output_path ;;
svg <- process_svg svg scale width height simplify max_dist ;;
SVG_save_svg svg output_path ;;;
print ("Saved processed SVG to " +++ output_path) ;;;
ret true.

(** [os.path.dirname(output_path) or "."] *)
Definition output_parent (output_path : string) : string :=
let d := posixpath.dirname output_path in
if PyStr.nonempty d then d else ".".

(** The [try] block of [process_single_file]. *)
Definition process_single_file_body (input_path output_path : string)
  (scale : float) (width height : Z) (simplify : bool) (max_dist : Z) : M bool :=
makedirs (output_parent output_path) ;;;
ok <- preprocess_svg input_path output_path ;;
if negb ok then
  print ("Skipping " +++ input_path +++ ": preprocessing failed") ;;;
  ret false
else
  size <- getsize output_path ;;
  if (size =? 0)%Z then
    print ("Skipping " +++ output_path +++ ": file is empty") ;;;
    remove output_path ;;;
    ret false
  else
    load_process_save output_path scale width height simplify max_dist.

(** The [except Exception] block of [process_single_file]. *)
Definition process_single_file_handler (input_path output_path : string)
  (e : exn) : M bool :=
print ("Error processing " +++ input_path +++ ": " +++ str_exn e) ;;;
ex <- exists_ output_path ;;
(if ex then remove output_path else ret tt) ;;;
ret false.

Definition process_single_file (input_path output_path : string)
  (scale : float) (width height : Z) (simplify : bool) (max_dist : Z) : M bool :=
try_except
  (process_single_file_body input_path output_path scale width height simplify max_dist)
  (process_single_file_handler input_path output_path).

(** [os.scandir(top)] as [os.walk] uses it: the names of the directories and
    of the other entries of [top], or [None] when [top] cannot be listed. *)
Definition scandir (top : string) : M (option (list string * list string)) :=
fun w =>
  match fs_lookup w top with
  | Some (FS.Dir es) => (Ok (Some (FS.dir_names es, FS.nondir_names es)), w)
  | _ => (Ok None, w)
  end.

(** [for root, dirs, files in os.walk(top): acc = body root dirs files acc].
    The walk is top-down and lazy: a directory is listed when the walk
    reaches it, after the loop body has run for the directories before it.
    A directory that cannot be listed is skipped ([onerror] is [None]).
    [fuel] bounds the depth of the walk. *)
Fixpoint os_walk {A} (fuel : nat) (top : string)
  (body : string -> list string -> list string -> A -> M A) (acc : A) : M A :=
match fuel with
| O => fun w => (OutOfFuel, w)
| S fuel' =>
    listing <- scandir top ;;
    match listing with
    | None => ret acc
    | Some (dirs, nondirs) =>
        acc' <- body top dirs nondirs acc ;;
        for_each dirs
          (fun dirname acc'' => os_walk fuel' (posixpath.join top dirname) body acc'')
          acc'
    end
end.

(** Lines 157-159: where the output of one file of the walk goes. *)
Definition batch_output_path (input_dir output_dir root filename : string) : M string :=
fun w =>
  let input_path := posixpath.join root filename in
  match posixpath.relpath (cwd w) input_path input_dir with
  | None => (Raise ValueError, w)
  | Some relative_path => (Ok (posixpath.join output_dir relative_path), w)
  end.

(** The body of the inner loop of [process_directory], lines 154-167. *)
Definition process_directory_file (input_dir output_dir : string)
  (scale : float) (width height : Z) (simplify : bool) (max_dist : Z)
  (root filename : string) (counts : Z * Z) : M (Z * Z) :=
let '(success_count, failure_count) := counts in
if negb (PyStr.endswith filename ".svg") then ret counts
else
  let input_path := posixpath.join root filename in
  output_path <- batch_output_path input_dir output_dir root filename ;;
  ok <- process_single_file input_path output_path scale width height simplify max_dist ;;
  if ok then ret ((success_count + 1)%Z, failure_count)
  else ret (success_count, (failure_count + 1)%Z).

Definition process_directory (fuel : nat) (input_dir output_dir : string)
  (scale : float) (width height : Z) (simplify : bool) (max_dist : Z) : M (Z * Z) :=
makedirs output_dir ;;;
os_walk fuel input_dir
  (fun root _ files counts =>
     for_each files
       (process_directory_file input_dir output_dir scale width height simplify max_dist root)
       counts)
  (0%Z, 0%Z).

(** The parsed command line, [args] of [main]. *)
Record Namespace : Type := {
  args_input : option string;
  args_output : option string;
  args_input_dir : option string;
  args_output_dir : option string;
  args_scale : float;
  args_width : Z;
  args_height : Z;
  args_max_dist : Z;
  args_simplify : bool
}.

(** [parser.error(message)]: the message goes to standard error and the
    process exits with status 2. *)
Definition parser_error {A} (message : string) : M A :=
fun w =>
  (SysExit 2%Z,
   mkWorld (fs w) (cwd w) (heap w) (stdout w) (stderr w ++ [message]) (calls w)).

(** [exit(code)] *)
Definition exit_ {A} (code : Z) : M A := fun w => (SysExit code, w).

(** Lines 257-258: the output path when [--output] is not given. *)
Definition default_output (input : string) : string :=
let '(base, ext) := posixpath.splitext input in
base +++ "_processed" +++ ext.

(** [args.output] after lines 256-258. *)
Definition single_output (args : Namespace) (input : string) : string :=
match args_output args with
| None => default_output input
| Some o => o
end.

(** The single-file branch of [main], lines 255-270. *)
Definition main_single (args : Namespace) (input : string) : M unit :=
let output := single_output args input in
success <- process_single_file input output
             (args_scale args) (args_width args) (args_height args)
             (args_simplify args) (args_max_dist args) ;;
if success then print (PyStr.nl +++ "Processing complete: " +++ output)
else
  print (PyStr.nl +++ "Processing failed: " +++ input) ;;;
  exit_ 1%Z.

(** [args.output_dir] after lines 274-275. *)
Definition batch_output_dir (args : Namespace) (input_dir : string) : string :=
match args_output_dir args with
| None => input_dir +++ "_processed"
| Some o => o
end.

(** The batch branch of [main], lines 273-285. *)
Definition main_batch (fuel : nat) (args : Namespace) (input_dir : string) : M unit :=
let output_dir := batch_output_dir args input_dir in
counts <- process_directory fuel input_dir output_dir
            (args_scale args) (args_width args) (args_height args)
            (args_simplify args) (args_max_dist args) ;;
print (PyStr.nl +++ "Batch processing complete:") ;;;
print ("  Success: " +++ str_int (fst counts)) ;;;
print ("  Failed:  " +++ str_int (snd counts)).

Definition is_not_None {A} (o : option A) : bool :=
match o with Some _ => true | None => false end.

(** [main], after [parser.parse_args()] has returned [args]. *)
Definition main (fuel : nat) (args : Namespace) : M unit :=
let single_mode := is_not_None (args_input args) in
let batch_mode := is_not_None (args_input_dir args) in
(if negb single_mode && negb batch_mode
 then parser_error "Please specify --input for single file or --input_dir for batch processing"
 else ret tt) ;;;
(if single_mode && batch_mode
 then parser_error "Cannot use both --input and --input_dir simultaneously"
 else ret tt) ;;;
match args_input args with
| Some input => main_single args input
| None =>
    match args_input_dir args with
    | Some input_dir => main_batch fuel args input_dir
    | None => ret tt
    end
end.

(** The exit status of the process: 0 when [main] returns, 1 when an
    exception is not caught, the code of [SystemExit] otherwise. *)
Definition exit_status {A} (r : outcome A) : option Z :=
match r with
| Ok _ => Some 0%Z
| Raise _ => Some 1%Z
| SysExit code => Some code
| OutOfFuel => None
end.

End Script.

Notation "x <- m ;; k" := (bind m (fun x => k))
  (at level 61, m at next level, right associativity).
Notation "m ;;; k" := (bind m (fun _ => k))
  (at level 61, right associativity).

(* ================================================================== *)
(** * A small instance of the collaborators *)
(* ================================================================== *)

(** A document of the toy library: its view box and its markup. *)
Record toy_doc : Type := Toy { toy_box : bbox; toy_markup : string }.

(** The toy [picosvg] copies the input file to its standard output; it exits
    with status 1 when the input is missing, is a directory or holds the
    text [broken]. *)
Definition toy_picosvg (cwd : string) (root : FS.node) (input_path : string) : completed :=
match FS.resolve cwd input_path with
| None => Completed "" 1
| Some p =>
    match FS.lookup p (Some root) with
    | Some (FS.File data) =>
        if String.eqb data "broken" then Completed "" 1 else Completed data 0
    | _ => Completed "" 1
    end
end.

(** The toy library: parsing fails on the text [unparsable]; [normalize]
    sets the view box; [split] fails on a negative distance. *)
Definition toy : Collaborators := {|
  doc := toy_doc;
  picosvg := toy_picosvg;
  from_str := fun data =>
    if String.eqb data "unparsable" then inl (LibraryError "not well-formed")
    else inr (Toy (Bbox 24 24) data);
  zoom := fun _ d => inr d;
  normalize := fun box d => inr (Toy box (toy_markup d));
  simplify_arcs := fun d => inr d;
  simplify_heuristic := fun d => inr d;
  split := fun max_dist d =>
    if (max_dist <? 0)%Z then inl (LibraryError "negative distance") else inr d;
  to_file := fun d => (toy_markup d, None);
  viewbox := toy_box
|}.

Definition toy_world (es : FS.entries) : world toy :=
mkWorld toy es "/" [] [] [] [].

(** [/svgs/a.svg], [/svgs/notes.txt] and [/svgs/sub/b.svg]. *)
Definition svgs_tree : FS.entries :=
[("svgs",
  FS.Dir [("a.svg", FS.File "<svg/>");
          ("notes.txt", FS.File "text");
          ("sub", FS.Dir [("b.svg", FS.File "broken")])])].

(** [script.py --input <input>] with the defaults of the parser. *)
Definition single_args (input : string) : Namespace := {|
  args_input := Some input; args_output := None;
  args_input_dir := None; args_output_dir := None;
  args_scale := 1%float; args_width := 200; args_height := 200;
  args_max_dist := 5; args_simplify := false
|}.

(** [script.py --input_dir <input_dir>] with the defaults of the parser. *)
Definition batch_args (input_dir : string) : Namespace := {|
  args_input := None; args_output := None;
  args_input_dir := Some input_dir; args_output_dir := None;
  args_scale := 1%float; args_width := 200; args_height := 200;
  args_max_dist := 5; args_simplify := false
|}.

(** [/svgs/a.svg] alone. *)
Definition one_svg_tree : FS.entries :=
[("svgs", FS.Dir [("a.svg", FS.File "<svg/>")])].

(** [/svgs/e.svg] is empty, and so is what the toy [picosvg] makes of it. *)
Definition empty_tree : FS.entries :=
[("svgs", FS.Dir [("e.svg", FS.File "")])].

(** [/svgs/u.svg] passes the toy [picosvg] and cannot be parsed. *)
Definition unparsable_tree : FS.entries :=
[("svgs", FS.Dir [("u.svg", FS.File "unparsable"); ("v.svg", FS.File "<svg/>")])].

(** [/svgs/b.svg] makes the toy [picosvg] exit with status 1. *)
Definition broken_tree : FS.entries :=
[("svgs", FS.Dir [("b.svg", FS.File "broken")])].

(** A machine without the [picosvg] executable: [subprocess.run] cannot start
    it. The library is the toy one. *)
Definition no_picosvg : Collaborators := {|
  doc := toy_doc;
  picosvg := fun _ _ _ => NotStarted FileNotFoundError;
  from_str := from_str toy;
  zoom := zoom toy;
  normalize := normalize toy;
  simplify_arcs := simplify_arcs toy;
  simplify_heuristic := simplify_heuristic toy;
  split := split toy;
  to_file := to_file toy;
  viewbox := viewbox toy
|}.

(* ================================================================== *)
(** * Definitions for the statements *)
(* ================================================================== *)

(** The number of files with names ending in [.svg] under the directory
    [path] of the world [w]. *)
Definition count_svg_under {lib : Collaborators} (w : world lib) (path : string) : nat :=
match fs_lookup w path with
| Some n => FS.count_svg n
| None => 0%nat
end.

(** The components of the absolute, normalised form of [path]. *)
Definition components {lib : Collaborators} (w : world lib) (path : string) : list string :=
posixpath.abs_list (cwd w) path.

(** The world after a call has been recorded. *)
Definition logged {lib : Collaborators} (w : world lib) (c : call) : world lib :=
mkWorld lib (fs w) (cwd w) (heap w) (stdout w) (stderr w) (calls w ++ [c]).

(** The world after a line has been printed. *)
Definition printed {lib : Collaborators} (w : world lib) (line : string) : world lib :=
mkWorld lib (fs w) (cwd w) (heap w) (stdout w ++ [line]) (stderr w) (calls w).

(** The calls [process_svg] makes when nothing raises. *)
Definition process_svg_calls (svg : nat) (scale : float) (width height : Z)
  (simplify : bool) (max_dist : Z) : list call :=
[CallZoom svg scale; CallNormalize svg (Bbox width height)]
++ (if simplify
    then [CallSimplifyArcs svg; CallSimplifyHeuristic svg; CallSplit svg max_dist]
    else []).

(** The methods of [process_svg] on the state of the document, in the order
    of the source: what the object holds afterwards, or the first exception. *)
Definition svg_transform (lib : Collaborators) (scale : float) (width height : Z)
  (simplify : bool) (max_dist : Z) (d : doc lib) : exn + doc lib :=
match zoom lib scale d with
| inl e => inl e
| inr d1 =>
    match normalize lib (Bbox width height) d1 with
    | inl e => inl e
    | inr d2 =>
        if simplify then
          match simplify_arcs lib d2 with
          | inl e => inl e
          | inr d3 =>
              match simplify_heuristic lib d3 with
              | inl e => inl e
              | inr d4 => split lib max_dist d4
              end
          end
        else inr d2
    end
end.

(** Modelled from the spec: the geometry library ([deepsvg.svglib]) is not
    part of the sources. Its [normalize] is the "bounding-box normalize" of
    the spec: the document it leaves has the box it was given as its view
    box; "arc/heuristic simplification" and "path-splitting" rewrite paths
    and leave the view box as it is. *)
Definition normalizes_viewbox (lib : Collaborators) : Prop :=
(forall (box : bbox) (d d' : doc lib),
   normalize lib box d = inr d' -> viewbox lib d' = box)
/\ (forall d d' : doc lib,
      simplify_arcs lib d = inr d' -> viewbox lib d' = viewbox lib d)
/\ (forall d d' : doc lib,
      simplify_heuristic lib d = inr d' -> viewbox lib d' = viewbox lib d)
/\ (forall (max_dist : Z) (d d' : doc lib),
      split lib max_dist d = inr d' -> viewbox lib d' = viewbox lib d).

(** The walk, by the names that lead from [top] to each directory: the loop
    body gets these names where [os_walk] hands it the path joined from
    them. *)
Fixpoint walk_names {lib : Collaborators} {A} (top : string) (fuel : nat)
  (ds : list string)
  (body : list string -> list string -> list string -> A -> M lib A) (acc : A)
  : M lib A :=
match fuel with
| O => fun w => (OutOfFuel, w)
| S fuel' =>
    listing <- scandir (posixpath.join_all top ds) ;;
    match listing with
    | None => ret acc
    | Some (dirs, nondirs) =>
        acc' <- body ds dirs nondirs acc ;;
        for_each dirs
          (fun dirname acc'' => walk_names top fuel' (ds ++ [dirname]) body acc'')
          acc'
    end
end.

(** ** Stability of a part of the file system *)

Section StableDefs.

Variable lib : Collaborators.

(** The node [t] stays at the path [I], and the current directory stays [c]. *)
Variable I : list string.
Variable t : FS.node.
Variable c : string.

Definition stable (w : world lib) : Prop :=
FS.lookup I (Some (root w)) = Some t /\ cwd w = c.

(** [m] keeps the world stable, does not exit, and a value it returns
    satisfies [Q]. *)
Definition triple {A} (m : M lib A) (Q : A -> Prop) : Prop :=
forall w r w', stable w -> m w = (r, w') ->
  stable w' /\ match r with
               | Ok a => Q a
               | Raise _ => True
               | SysExit _ | OutOfFuel => False
               end.

Definition keeps {A} (m : M lib A) : Prop := triple m (fun _ => True).

End StableDefs.

Arguments stable : clear implicits.
Arguments triple lib I t c {A} m Q.
Arguments keeps lib I t c {A} m.

(** A list of method calls on one object, one after the other. *)
Fixpoint run_methods {lib : Collaborators} (obj : nat)
  (ms : list (call * (doc lib -> exn + doc lib))) : M lib unit :=
match ms with
| [] => ret tt
| (c, f) :: ms' => method c obj f ;;; run_methods obj ms'
end.

(** The same methods on the state of the document. *)
Fixpoint apply_methods {D : Type} (fs : list (D -> exn + D)) (d : D) : exn + D :=
match fs with
| [] => inr d
| f :: fs' =>
    match f d with
    | inl e => inl e
    | inr d' => apply_methods fs' d'
    end
end.

(** The method calls of [process_svg], lines 57-63. *)
Definition process_svg_steps (lib : Collaborators) (svg : nat) (scale : float)
  (width height : Z) (simplify : bool) (max_dist : Z)
  : list (call * (doc lib -> exn + doc lib)) :=
[(CallZoom svg scale, zoom lib scale);
 (CallNormalize svg (Bbox width height), normalize lib (Bbox width height))]
++ (if simplify
    then [(CallSimplifyArcs svg, simplify_arcs lib);
          (CallSimplifyHeuristic svg, simplify_heuristic lib);
          (CallSplit svg max_dist, split lib max_dist)]
    else []).

(** ** Definitions for the further properties *)

(** [os.path.isdir(path)] *)
Definition is_directory {lib : Collaborators} (w : world lib) (path : string) : bool :=
match fs_lookup w path with Some (FS.Dir _) => true | _ => false end.

(** [m] keeps the property [Inv] of the world, however it ends. *)
Definition preserves {lib : Collaborators} {A} (Inv : world lib -> Prop) (m : M lib A) : Prop :=
forall w r w', Inv w -> m w = (r, w') -> Inv w'.

(** [m] ends by returning or by raising: it neither exits the process nor
    runs out of fuel. *)
Definition returns_or_raises {lib : Collaborators} {A} (m : M lib A) : Prop :=
forall w r w', m w = (r, w') ->
  match r with Ok _ | Raise _ => True | SysExit _ | OutOfFuel => False end.

(** The files with names ending in [.svg] under a node, each by the names
    that lead to it, in the order of a top-down walk: the files of the
    directory first, then those of its sub-directories, one sub-directory
    after the other. *)
Fixpoint svg_files (n : FS.node) : list (list string) :=
match n with
| FS.File _ => []
| FS.Dir es =>
    map (fun name => [name])
      (filter (fun name => PyStr.endswith name ".svg") (FS.nondir_names es))
    ++ flat_map (fun kn : string * FS.node =>
                   let (name, child) := kn in map (cons name) (svg_files child)) es
end.

(** The [.svg] files below the directories [names] of [es]. *)
Definition svg_files_below (es : FS.entries) (names : list string) : list (list string) :=
flat_map (fun name => match FS.get_entry name es with
                      | Some n => map (cons name) (svg_files n)
                      | None => []
                      end) names.

(** Lines 157-167 for a file given by the names that lead to it from the
    input directory: the file is read from [input_dir] joined with the
    names, and written to [output_dir] joined with the same names. This is
    not a function of the script: it is what the loop body of
    [process_directory] is compared with. *)
Definition process_listed_file {lib : Collaborators} (input_dir output_dir : string)
  (scale : float) (width height : Z) (simplify : bool) (max_dist : Z)
  (names : list string) (counts : Z * Z) : M lib (Z * Z) :=
ok <- process_single_file (posixpath.join_all input_dir names)
        (posixpath.join_all output_dir names) scale width height simplify max_dist ;;
if ok then ret ((fst counts + 1)%Z, snd counts)
else ret (fst counts, (snd counts + 1)%Z).

(** A loop over files known in advance, where [process_directory] finds
    its files as the walk goes. *)
Definition process_listed {lib : Collaborators} (input_dir output_dir : string)
  (scale : float) (width height : Z) (simplify : bool) (max_dist : Z)
  (files : list (list string)) (counts : Z * Z) : M lib (Z * Z) :=
for_each files
  (process_listed_file input_dir output_dir scale width height simplify max_dist)
  counts.

(* ================================================================== *)
(** * Strings and paths: lemmas *)
(* ================================================================== *)

Unset Implicit Arguments.

(** ** The model on small inputs *)

Example split_ex : PyStr.split "a//b/" = ["a"; ""; "b"; ""].
Proof. reflexivity. Qed.

Example endswith_ex :
  PyStr.endswith "x.svg" ".svg" = true /\ PyStr.endswith "svg" ".svg" = false
  /\ PyStr.endswith ".svg" ".svg" = true /\ PyStr.endswith "x.SVG" ".svg" = false.
Proof. repeat split; reflexivity. Qed.

Example splitext_ex :
  posixpath.splitext "dir.d/logo.min.svg" = ("dir.d/logo.min", ".svg")
  /\ posixpath.splitext "dir.d/.hidden" = ("dir.d/.hidden", "")
  /\ posixpath.splitext "..a.b" = ("..a", ".b")
  /\ posixpath.splitext "dir.d/file" = ("dir.d/file", "").
Proof. repeat split; reflexivity. Qed.

Example join_ex :
  posixpath.join "svgs" "a.svg" = "svgs/a.svg"
  /\ posixpath.join "svgs/" "a.svg" = "svgs/a.svg"
  /\ posixpath.join "" "a.svg" = "a.svg"
  /\ posixpath.join "svgs" "/abs" = "/abs".
Proof. repeat split; reflexivity. Qed.

Example normpath_ex :
  posixpath.normpath "//a/./b/../c//" = "//a/c"
  /\ posixpath.normpath "///a/../../b" = "/b"
  /\ posixpath.normpath "a/../../b" = "../b"
  /\ posixpath.normpath "" = ".".
Proof. repeat split; reflexivity. Qed.

Example relpath_ex :
  posixpath.relpath "/home/u" "svgs/sub/a.svg" "svgs/" = Some "sub/a.svg"
  /\ posixpath.relpath "/home/u" "/x/a.svg" "svgs" = Some "../../../x/a.svg"
  /\ posixpath.relpath "/home/u" "svgs" "svgs" = Some "."
  /\ posixpath.relpath "/home/u" "" "svgs" = None.
Proof. repeat split; reflexivity. Qed.

Example dirname_ex :
  posixpath.dirname "out//a.svg" = "out"
  /\ posixpath.dirname "/a.svg" = "/"
  /\ posixpath.dirname "a.svg" = ""
  /\ posixpath.dirname "out/sub/" = "out/sub".
Proof. repeat split; reflexivity. Qed.

Example str_int_ex : str_int 120 = "120" /\ str_int 0 = "0" /\ str_int (-7) = "-7".
Proof. repeat split; reflexivity. Qed.

(** A batch run on [/svgs]: [a.svg] is processed into [/out], [notes.txt]
    is skipped, [picosvg] fails on [sub/b.svg] and leaves [out/sub/b.svg]. *)
Example process_directory_ex :
  let r := process_directory 5 "svgs" "out" 1%float 200 200 false 5
             (toy_world svgs_tree) in
  fst r = Ok (1%Z, 1%Z)
  /\ fs (snd r)
     = [("svgs",
         FS.Dir [("a.svg", FS.File "<svg/>"); ("notes.txt", FS.File "text");
                 ("sub", FS.Dir [("b.svg", FS.File "broken")])]);
        ("out",
         FS.Dir [("a.svg", FS.File "<svg/>");
                 ("sub", FS.Dir [("b.svg", FS.File "")])])]
  /\ calls (snd r)
     = [CallPicosvg "svgs/a.svg"; CallLoad "out/a.svg"; CallZoom 0 1%float;
        CallNormalize 0 (Bbox 200 200); CallSave 0 "out/a.svg";
        CallPicosvg "svgs/sub/b.svg"].
Proof. repeat split; vm_compute; reflexivity. Qed.

Module PyStrFacts.
Import PyStr.

Lemma append_nil_r (s : string) : s +++ "" = s.
Proof. induction s as [|c s IH]; simpl; [reflexivity | now rewrite IH]. Qed.

Lemma append_assoc (a b c : string) : (a +++ b) +++ c = a +++ b +++ c.
Proof. induction a as [|x a IH]; simpl; [reflexivity | now rewrite IH]. Qed.

Lemma length_append (a b : string) :
  String.length (a +++ b) = (String.length a + String.length b)%nat.
Proof. induction a as [|x a IH]; simpl; [reflexivity | now rewrite IH]. Qed.

Lemma take_drop (i : nat) (s : string) : take i s +++ drop i s = s.
Proof.
  revert s; induction i as [|i IH]; intros [|c s]; simpl; try reflexivity.
  now rewrite IH.
Qed.

Lemma take_append (i : nat) (a b : string) :
  (i <= String.length a)%nat -> take i (a +++ b) = take i a.
Proof.
  revert a; induction i as [|i IH]; intros [|c a] H; simpl in *; try reflexivity; try lia.
  rewrite IH by lia. reflexivity.
Qed.

Lemma rfind_range (c : ascii) (s : string) :
  (-1 <= rfind c s < Z.of_nat (String.length s))%Z.
Proof.
  induction s as [|a s IH]; simpl; [lia|].
  destruct (Z.leb_spec 0 (rfind c s)); [lia|].
  destruct (Ascii.eqb a c); lia.
Qed.

Lemma rfind_sep_free (s : string) : sep_free s = true -> rfind slash s = (-1)%Z.
Proof.
  induction s as [|a s IH]; simpl; [reflexivity|].
  intros H. apply andb_prop in H as [Ha Hs].
  rewrite (IH Hs). simpl. unfold is_slash in Ha.
  destruct (Ascii.eqb a slash); [discriminate | reflexivity].
Qed.

(** A suffix without ["/"] does not move the last ["/"]. *)
Lemma rfind_slash_append (a t : string) :
  sep_free t = true -> rfind slash (a +++ t) = rfind slash a.
Proof.
  intros Ht. induction a as [|x a IH]; simpl.
  - now apply rfind_sep_free.
  - now rewrite IH.
Qed.

Lemma sep_free_drop (i : nat) (s : string) :
  (rfind slash s < Z.of_nat i)%Z -> sep_free (drop i s) = true.
Proof.
  revert i; induction s as [|a s IH]; intros [|i]; simpl; intros H; try reflexivity.
  - destruct (Z.leb_spec 0 (rfind slash s)); [lia|].
    unfold is_slash. destruct (Ascii.eqb a slash); [lia|]. simpl.
    apply (IH 0%nat). simpl. lia.
  - apply IH. destruct (Z.leb_spec 0 (rfind slash s)); [lia|].
    destruct (Ascii.eqb a slash); lia.
Qed.

End PyStrFacts.

Module posixpathFacts.
Import PyStr PyStrFacts posixpath.

(** [splitext] cuts its argument in two. *)
Lemma splitext_concat (p : string) :
  fst (splitext p) +++ snd (splitext p) = p.
Proof.
  unfold splitext.
  destruct ((rfind slash p <? rfind dot p)%Z && _); simpl.
  - apply take_drop.
  - apply append_nil_r.
Qed.

(** The extension holds no ["/"]: it lies in the last component. *)
Lemma splitext_ext_sep_free (p : string) : sep_free (snd (splitext p)) = true.
Proof.
  unfold splitext.
  destruct (Z.ltb_spec (rfind slash p) (rfind dot p)); simpl; [|reflexivity].
  destruct (has_non_dot _ _ _); simpl; [|reflexivity].
  apply sep_free_drop.
  pose proof (rfind_range dot p). lia.
Qed.

(** [dirname] looks at its argument up to the last ["/"] only. *)
Lemma dirname_append (a t : string) :
  sep_free t = true -> dirname (a +++ t) = dirname a.
Proof.
  intros Ht. unfold dirname.
  rewrite (rfind_slash_append a t Ht).
  rewrite take_append; [reflexivity|].
  pose proof (rfind_range slash a). lia.
Qed.

End posixpathFacts.

(* ================================================================== *)
(** * The command line: [main] *)
(* ================================================================== *)

Section MainFacts.

Variable lib : Collaborators.

(** Neither [--input] nor [--input_dir]: [parser.error] on line 249. *)
Lemma main_neither (fuel : nat) (args : Namespace) (w : world lib) :
  args_input args = None -> args_input_dir args = None ->
  main fuel args w =
    (SysExit 2%Z,
     mkWorld lib (fs w) (cwd w) (heap w) (stdout w)
       (stderr w ++ ["Please specify --input for single file or --input_dir for batch processing"])
       (calls w)).
Proof.
  intros Hi Hd. unfold main. rewrite Hi, Hd. reflexivity.
Qed.

(** Both [--input] and [--input_dir]: [parser.error] on line 252. *)
Lemma main_both (fuel : nat) (args : Namespace) (w : world lib) (input input_dir : string) :
  args_input args = Some input -> args_input_dir args = Some input_dir ->
  main fuel args w =
    (SysExit 2%Z,
     mkWorld lib (fs w) (cwd w) (heap w) (stdout w)
       (stderr w ++ ["Cannot use both --input and --input_dir simultaneously"])
       (calls w)).
Proof.
  intros Hi Hd. unfold main. rewrite Hi, Hd. reflexivity.
Qed.

(** With [--input] alone, [main] is its single-file branch. *)
Lemma main_single_mode (fuel : nat) (args : Namespace) (w : world lib) (input : string) :
  args_input args = Some input -> args_input_dir args = None ->
  main fuel args w = main_single args input w.
Proof.
  intros Hi Hd. unfold main. rewrite Hi, Hd. reflexivity.
Qed.

End MainFacts.

(** C6. Single-file and batch modes are mutually exclusive: when both
    [--input] and [--input_dir] are given, and when neither is, [main] ends
    in [parser.error] (a message on standard error, exit status 2), and
    nothing was processed: the file system, the objects, the standard output
    and the calls into the collaborators are as before. *)
Theorem main_modes_mutually_exclusive
    (lib : Collaborators) (fuel : nat) (args : Namespace) (w : world lib) :
  is_not_None (args_input args) = is_not_None (args_input_dir args) ->
  exists message : string,
    main fuel args w =
      (SysExit 2%Z,
       mkWorld lib (fs w) (cwd w) (heap w) (stdout w) (stderr w ++ [message]) (calls w))
    /\ exit_status (fst (main fuel args w)) = Some 2%Z.
Proof.
  intros H.
  destruct (args_input args) as [input|] eqn:Hi;
    destruct (args_input_dir args) as [input_dir|] eqn:Hd; simpl in H; try discriminate.
  - eexists. rewrite (main_both lib fuel args w input input_dir Hi Hd).
    split; reflexivity.
  - eexists. rewrite (main_neither lib fuel args w Hi Hd).
    split; reflexivity.
Qed.

(** Both modes at once end in the parser error. *)
Lemma main_modes_mutually_exclusive_witness :
  exists message : string,
    main 3
      {| args_input := Some "a.svg"; args_output := None;
         args_input_dir := Some "svgs"; args_output_dir := None;
         args_scale := 1%float; args_width := 200; args_height := 200;
         args_max_dist := 5; args_simplify := false |}
      (toy_world svgs_tree)
    = (SysExit 2%Z,
       mkWorld toy svgs_tree "/" [] [] ([] ++ [message]) [])
    /\ exit_status
         (fst (main 3
                 {| args_input := Some "a.svg"; args_output := None;
                    args_input_dir := Some "svgs"; args_output_dir := None;
                    args_scale := 1%float; args_width := 200; args_height := 200;
                    args_max_dist := 5; args_simplify := false |}
                 (toy_world svgs_tree))) = Some 2%Z.
Proof.
  exact (main_modes_mutually_exclusive toy 3
           {| args_input := Some "a.svg"; args_output := None;
              args_input_dir := Some "svgs"; args_output_dir := None;
              args_scale := 1%float; args_width := 200; args_height := 200;
              args_max_dist := 5; args_simplify := false |}
           (toy_world svgs_tree) eq_refl).
Defined.

(** C5. In single-file mode the exit status follows [process_single_file]:
    status 1 when it returns [False], status 0 when it returns [True]. *)
Theorem main_single_exit_status
    (lib : Collaborators) (fuel : nat) (args : Namespace) (input : string)
    (w w' : world lib) (success : bool) :
  args_input args = Some input ->
  args_input_dir args = None ->
  process_single_file input (single_output args input)
    (args_scale args) (args_width args) (args_height args)
    (args_simplify args) (args_max_dist args) w = (Ok success, w') ->
  exit_status (fst (main fuel args w)) = Some (if success then 0%Z else 1%Z)
  /\ fs (snd (main fuel args w)) = fs w'.
Proof.
  intros Hi Hd Hp.
  rewrite (main_single_mode lib fuel args w input Hi Hd).
  unfold main_single, bind. rewrite Hp.
  destruct success; split; reflexivity.
Qed.

(** [--input svgs/sub/b.svg] fails in [picosvg]: exit status 1. *)
Lemma main_single_exit_status_witness :
  exit_status (fst (main 3 (single_args "svgs/sub/b.svg") (toy_world svgs_tree)))
    = Some 1%Z
  /\ fs (snd (main 3 (single_args "svgs/sub/b.svg") (toy_world svgs_tree)))
     = fs (snd (process_single_file "svgs/sub/b.svg" "svgs/sub/b_processed.svg"
                  1%float 200 200 false 5 (toy_world svgs_tree))).
Proof.
  apply (main_single_exit_status toy 3 (single_args "svgs/sub/b.svg") "svgs/sub/b.svg"
           (toy_world svgs_tree)
           (snd (process_single_file "svgs/sub/b.svg" "svgs/sub/b_processed.svg"
                   1%float 200 200 false 5 (toy_world svgs_tree)))
           false);
    vm_compute; reflexivity.
Defined.

(** C4. In single-file mode without [--output], the output path is
    [<base>_processed<ext>] with [(base, ext) = os.path.splitext(input)]:
    [base + ext] is the input path, and the output is a sibling of the input
    (same [dirname]). It is the path [main] hands to [process_single_file]. *)
Theorem main_default_output_is_sibling
    (lib : Collaborators) (fuel : nat) (args : Namespace) (input : string)
    (w : world lib) :
  args_input args = Some input ->
  args_input_dir args = None ->
  args_output args = None ->
  let base := fst (posixpath.splitext input) in
  let ext := snd (posixpath.splitext input) in
  single_output args input = base +++ "_processed" +++ ext
  /\ base +++ ext = input
  /\ posixpath.dirname (single_output args input) = posixpath.dirname input
  /\ main fuel args w =
       (success <- process_single_file input (base +++ "_processed" +++ ext)
                     (args_scale args) (args_width args) (args_height args)
                     (args_simplify args) (args_max_dist args) ;;
        if success
        then print (PyStr.nl +++ "Processing complete: " +++ base +++ "_processed" +++ ext)
        else print (PyStr.nl +++ "Processing failed: " +++ input) ;;; exit_ 1%Z) w.
Proof.
  intros Hi Hd Ho base ext.
  assert (Hout : single_output args input = base +++ "_processed" +++ ext).
  { unfold single_output, default_output. rewrite Ho.
    subst base ext. now destruct (posixpath.splitext input). }
  split; [exact Hout|]. split; [apply posixpathFacts.splitext_concat|]. split.
  - rewrite Hout. transitivity (posixpath.dirname base).
    + rewrite <- (PyStrFacts.append_assoc base "_processed" ext).
      rewrite posixpathFacts.dirname_append by apply posixpathFacts.splitext_ext_sep_free.
      apply posixpathFacts.dirname_append. reflexivity.
    + transitivity (posixpath.dirname (base +++ ext)).
      * symmetry. apply posixpathFacts.dirname_append.
        apply posixpathFacts.splitext_ext_sep_free.
      * f_equal. apply posixpathFacts.splitext_concat.
  - rewrite (main_single_mode lib fuel args w input Hi Hd).
    unfold main_single. rewrite Hout. reflexivity.
Qed.

(** [--input svgs/a.svg] writes to [svgs/a_processed.svg]. *)
Lemma main_default_output_is_sibling_witness :
  single_output (single_args "svgs/a.svg") "svgs/a.svg" = "svgs/a_processed.svg"
  /\ posixpath.dirname (single_output (single_args "svgs/a.svg") "svgs/a.svg") = "svgs"
  /\ fs_lookup (snd (main 3 (single_args "svgs/a.svg") (toy_world svgs_tree)))
       "svgs/a_processed.svg" = Some (FS.File "<svg/>").
Proof.
  pose proof (main_default_output_is_sibling toy 3 (single_args "svgs/a.svg") "svgs/a.svg"
                (toy_world svgs_tree) eq_refl eq_refl eq_refl) as (H1 & _ & H3 & H4).
  split; [exact H1|]. split; [exact H3|].
  rewrite H4. vm_compute. reflexivity.
Defined.

(* ================================================================== *)
(** * The file system: lemmas *)
(* ================================================================== *)

Module FSFacts.
Import FS.

Lemma get_put_same (c : string) (o : option node) (es : entries) :
  get_entry c (put_entry c o es) = o.
Proof.
  induction es as [|[k n0] es IH]; simpl.
  - destruct o; simpl; [now rewrite String.eqb_refl | reflexivity].
  - destruct (String.eqb k c) eqn:E.
    + destruct o; simpl; [now rewrite E | exact IH].
    + simpl. now rewrite E.
Qed.

Lemma get_put_other (c c' : string) (o : option node) (es : entries) :
  c <> c' -> get_entry c' (put_entry c o es) = get_entry c' es.
Proof.
  intros Hne. induction es as [|[k n0] es IH]; simpl.
  - destruct o; simpl; [|reflexivity].
    destruct (String.eqb_spec c c'); [contradiction | reflexivity].
  - destruct (String.eqb_spec k c) as [->|Hk].
    + destruct (String.eqb_spec c c'); [contradiction|].
      destruct o; simpl; [|exact IH].
      destruct (String.eqb_spec c c'); [contradiction | reflexivity].
    + simpl. now rewrite IH.
Qed.

Lemma lookup_None (p : list string) : lookup p None = None.
Proof. destruct p; reflexivity. Qed.

Lemma lookup_app (p q : list string) (o : option node) :
  lookup (p ++ q) o = lookup q (lookup p o).
Proof.
  revert o; induction p as [|c p IH]; intros o; simpl; [reflexivity|].
  destruct o as [[data|es]|]; try apply IH; now rewrite lookup_None.
Qed.

(** After a successful [alter] at [p], the node at [p] is what [f] made of
    the node that was there. *)
Lemma alter_lookup_same (mk : bool) (f : option node -> exn + option node)
    (p : list string) (o o' : option node) :
  alter mk f p o = inr o' ->
  f (lookup p o) = inr (lookup p o').
Proof.
  revert o o'; induction p as [|c p IH]; intros o o' H; simpl in H.
  - exact H.
  - destruct o as [[data|es]|].
    + discriminate.
    + destruct (alter mk f p (get_entry c es)) as [e|o''] eqn:E; [discriminate|].
      injection H as <-.
      change (f (lookup p (get_entry c es))
              = inr (lookup p (get_entry c (put_entry c o'' es)))).
      rewrite get_put_same. now apply IH.
    + destruct mk; [|discriminate].
      destruct (alter true f p None) as [e|o''] eqn:E; [discriminate|].
      injection H as <-.
      change (f None = inr (lookup p (get_entry c (put_entry c o'' [])))).
      rewrite get_put_same.
      rewrite <- (lookup_None p). now apply IH.
Qed.

End FSFacts.

(* ================================================================== *)
(** * The monad and the primitive actions: lemmas *)
(* ================================================================== *)

Section MonadFacts.

Variable lib : Collaborators.

Local Abbreviation W := (world lib).

Lemma bind_Ok {A B} (m : M lib A) (k : A -> M lib B) (w w1 : W) (a : A) :
  m w = (Ok a, w1) -> bind m k w = k a w1.
Proof. intros H. unfold bind. now rewrite H. Qed.

Lemma bind_Ok_inv {A B} (m : M lib A) (k : A -> M lib B) (w w2 : W) (b : B) :
  bind m k w = (Ok b, w2) ->
  exists a w1, m w = (Ok a, w1) /\ k a w1 = (Ok b, w2).
Proof.
  unfold bind. destruct (m w) as [[a| | |] w1]; intros H; try discriminate.
  now exists a, w1.
Qed.

(** A system call either fails and leaves the world as it is, or succeeds
    and changes the file system only. *)
Lemma fs_alter_cases (mk : bool) (f : option FS.node -> exn + option FS.node)
    (path : string) (w : W) :
  (exists e, fs_alter mk f path w = (Raise e, w))
  \/ (exists p es,
        FS.resolve (cwd w) path = Some p
        /\ FS.alter mk f p (Some (root w)) = inr (Some (FS.Dir es))
        /\ fs_alter mk f path w = (Ok tt, set_fs w es)).
Proof.
  unfold fs_alter.
  destruct (FS.resolve (cwd w) path) as [p|]; [|left; eauto].
  destruct (FS.alter mk f p (Some (root w))) as [e|[[d|es]|]] eqn:E; try (left; eauto; fail).
  right. now exists p, es.
Qed.

(** After [open(path, "w")] and a write, [path] is a regular file with the
    bytes written. *)
Lemma write_Ok (path data : string) (w w' : W) :
  fs_alter false (FS.write_file data) path w = (Ok tt, w') ->
  fs_lookup w' path = Some (FS.File data)
  /\ cwd w' = cwd w /\ heap w' = heap w /\ stdout w' = stdout w
  /\ stderr w' = stderr w /\ calls w' = calls w.
Proof.
  intros H.
  destruct (fs_alter_cases false (FS.write_file data) path w)
    as [[e He]|(p & es & Hr & Ha & Hw)]; rewrite H in *; [discriminate|].
  injection Hw as ->. split; [|repeat split].
  unfold fs_lookup. simpl. rewrite Hr.
  apply FSFacts.alter_lookup_same in Ha.
  unfold FS.write_file in Ha. unfold root at 1. simpl.
  destruct (FS.lookup p (Some (root w))) as [[d|es']|]; try discriminate;
    now injection Ha as <-.
Qed.

(** Altering below the root directory gives a root directory. *)
Lemma alter_root_Dir (mk : bool) (f : option FS.node -> exn + option FS.node)
    (p : list string) (es : FS.entries) (o : option FS.node) :
  p <> [] -> FS.alter mk f p (Some (FS.Dir es)) = inr o ->
  exists es', o = Some (FS.Dir es').
Proof.
  destruct p as [|c p]; [congruence|]. intros _. simpl.
  destruct (FS.alter mk f p (FS.get_entry c es)); [discriminate|].
  intros H. injection H as <-. now eexists.
Qed.

(** Writing to a path that is a regular file succeeds. *)
Lemma write_file_succeeds (path data : string) (w : W) :
  is_file w path = true ->
  exists w', fs_alter false (FS.write_file data) path w = (Ok tt, w').
Proof.
  unfold is_file, fs_lookup, fs_alter.
  destruct (FS.resolve (cwd w) path) as [p|]; [|discriminate].
  intros H.
  assert (G : forall o, match FS.lookup p o with Some (FS.File _) => true | _ => false end = true ->
              exists n, FS.alter false (FS.write_file data) p o = inr n).
  { clear H. induction p as [|c p IH]; intros o H; simpl in *.
    - destruct o as [[d|es]|]; try discriminate. now eexists.
    - destruct o as [[d|es]|]; try discriminate.
      destruct (IH _ H) as [n Hn]. rewrite Hn. now eexists. }
  destruct (G _ H) as [n Hn]. rewrite Hn.
  assert (Hp : p <> []) by (intros ->; discriminate).
  destruct (alter_root_Dir _ _ _ _ _ Hp Hn) as [es' ->]. now eexists.
Qed.

(** [os.remove] of a regular file succeeds, and the path is gone. *)
Lemma remove_file (path : string) (w : W) :
  is_file w path = true ->
  exists w', remove path w = (Ok tt, w')
    /\ path_exists w' path = false
    /\ cwd w' = cwd w /\ heap w' = heap w /\ stdout w' = stdout w
    /\ stderr w' = stderr w /\ calls w' = calls w.
Proof.
  unfold is_file, fs_lookup, remove, fs_alter, path_exists.
  destruct (FS.resolve (cwd w) path) as [p|] eqn:Hr; [|discriminate].
  intros H.
  assert (G : forall o, match FS.lookup p o with Some (FS.File _) => true | _ => false end = true ->
              exists o', FS.alter false FS.unlink p o = inr o').
  { clear H Hr. induction p as [|c p IH]; intros o H; simpl in *.
    - destruct o as [[d|es]|]; try discriminate. now eexists.
    - destruct o as [[d|es]|]; try discriminate.
      destruct (IH _ H) as (o' & Hn). rewrite Hn. now eexists. }
  destruct (G _ H) as (o' & Hn). rewrite Hn.
  assert (Hp : p <> []) by (intros ->; discriminate).
  destruct (alter_root_Dir _ _ _ _ _ Hp Hn) as [es' ->].
  eexists. split; [reflexivity|]. split; [|repeat split].
  unfold fs_lookup. simpl. rewrite Hr.
  apply FSFacts.alter_lookup_same in Hn.
  destruct (FS.lookup p (Some (root w))) as [[d|es]|]; try discriminate.
  simpl in Hn. injection Hn as Hn.
  change (root (set_fs w es')) with (FS.Dir es'). now rewrite <- Hn.
Qed.

End MonadFacts.

(* ================================================================== *)
(** * [process_svg]: the order of the library calls *)
(* ================================================================== *)

Section ProcessSvgFacts.

Variable lib : Collaborators.

Local Abbreviation W := (world lib).

Lemma method_run (c : call) (obj : nat) (f : doc lib -> exn + doc lib) (w : W) :
  method c obj f w =
  match nth_error (heap w) obj with
  | None => (Raise (LibraryError "no such object"), logged w c)
  | Some d =>
      match f d with
      | inl e => (Raise e, logged w c)
      | inr d' => (Ok tt, set_heap (logged w c) (list_set obj d' (heap w)))
      end
  end.
Proof.
  unfold method, bind, log_call, logged. simpl.
  destruct (nth_error (heap w) obj) as [d|]; [|reflexivity].
  destruct (f d); reflexivity.
Qed.

(** A method call records itself, and touches nothing but the heap. *)
Lemma method_frame (c : call) (obj : nat) (f : doc lib -> exn + doc lib) (w : W) :
  let w' := snd (method c obj f w) in
  calls w' = calls w ++ [c] /\ fs w' = fs w /\ cwd w' = cwd w
  /\ stdout w' = stdout w /\ stderr w' = stderr w
  /\ List.length (heap w') = List.length (heap w).
Proof.
  rewrite method_run.
  assert (L : forall i (x : doc lib) l, List.length (list_set i x l) = List.length l).
  { intros i x l; revert i; induction l as [|y l IH]; intros [|i]; simpl; auto. }
  destruct (nth_error (heap w) obj) as [d|]; [destruct (f d)|]; simpl;
    repeat split; auto.
Qed.

Lemma method_outcome (c : call) (obj : nat) (f : doc lib -> exn + doc lib) (w : W) :
  (exists e, fst (method c obj f w) = Raise e)
  \/ (fst (method c obj f w) = Ok tt
      /\ exists d d', nth_error (heap w) obj = Some d /\ f d = inr d'
           /\ heap (snd (method c obj f w)) = list_set obj d' (heap w)).
Proof.
  rewrite method_run.
  destruct (nth_error (heap w) obj) as [d|]; [|left; eexists; reflexivity].
  destruct (f d) as [e|d'] eqn:E; [left; eexists; reflexivity|].
  right. split; [reflexivity|]. now exists d, d'.
Qed.

Lemma nth_error_list_set {A} (i : nat) (x y : A) (l : list A) :
  nth_error l i = Some y -> nth_error (list_set i x l) i = Some x.
Proof.
  revert i; induction l as [|z l IH]; intros [|i]; simpl; try discriminate; auto.
Qed.

(** Running two actions in a row, by what the first one does. *)
Lemma bind_run {A B} (m : M lib A) (k : A -> M lib B) (w : W) :
  bind m k w =
  match fst (m w) with
  | Ok a => k a (snd (m w))
  | Raise e => (Raise e, snd (m w))
  | SysExit c => (SysExit c, snd (m w))
  | OutOfFuel => (OutOfFuel, snd (m w))
  end.
Proof. unfold bind. destruct (m w) as [[a|e|c|] w1]; reflexivity. Qed.

Lemma list_set_twice {A} (i : nat) (x y : A) (l : list A) :
  list_set i x (list_set i y l) = list_set i x l.
Proof.
  revert i; induction l as [|z l IH]; intros [|i]; simpl; try reflexivity.
  now rewrite IH.
Qed.

Lemma list_set_same {A} (i : nat) (x : A) (l : list A) :
  nth_error l i = Some x -> list_set i x l = l.
Proof.
  revert i; induction l as [|z l IH]; intros [|i]; simpl; try discriminate.
  - now intros [= ->].
  - intros H. now rewrite IH.
Qed.

(** A run of method calls: the calls recorded are a leading part of the
    list, all of it when nothing raised; nothing but the heap and the record
    of calls changes. *)
Lemma run_methods_calls (obj : nat) (ms : list (call * (doc lib -> exn + doc lib))) (w : W) :
  let r := run_methods obj ms w in
  (exists k, (Nat.min 1 (List.length ms) <= k)%nat
             /\ calls (snd r) = calls w ++ firstn k (map fst ms))
  /\ (fst r = Ok tt -> calls (snd r) = calls w ++ map fst ms)
  /\ (fst r = Ok tt \/ exists e, fst r = Raise e)
  /\ fs (snd r) = fs w /\ cwd (snd r) = cwd w
  /\ stdout (snd r) = stdout w /\ stderr (snd r) = stderr w.
Proof.
  revert w; induction ms as [|[c f] ms IH]; intros w; simpl.
  - repeat split; auto.
    + exists 0%nat. split; [lia|]. now rewrite app_nil_r.
    + intros _. now rewrite app_nil_r.
  - rewrite bind_run.
    destruct (method_frame c obj f w) as (Hc & Hf & Hw & Ho & He & _).
    destruct (method_outcome c obj f w) as [[e He']|[Hok _]].
    + rewrite He'. simpl. repeat split; auto; try discriminate.
      * exists 1%nat. split; [lia|]. simpl. now rewrite Hc.
      * right. eauto.
    + rewrite Hok.
      destruct (IH (snd (method c obj f w))) as ((k & Hk & Hcalls) & Hall & Hr & Hf' & Hw' & Ho' & He').
      repeat split; try congruence.
      * exists (S k). split; [lia|]. rewrite Hcalls, Hc. simpl.
        now rewrite <- app_assoc.
      * intros H. rewrite (Hall H), Hc. now rewrite <- app_assoc.
Qed.

(** A run of method calls on an object holding [d] leaves it holding
    [apply_methods .. d], or raises the first exception met. *)
Lemma run_methods_heap (obj : nat) (ms : list (call * (doc lib -> exn + doc lib)))
    (w : W) (d : doc lib) :
  nth_error (heap w) obj = Some d ->
  match apply_methods (map snd ms) d with
  | inr d' =>
      fst (run_methods obj ms w) = Ok tt
      /\ heap (snd (run_methods obj ms w)) = list_set obj d' (heap w)
  | inl e => fst (run_methods obj ms w) = Raise e
  end.
Proof.
  revert w d; induction ms as [|[c f] ms IH]; intros w d Hd; simpl.
  - split; [reflexivity|]. symmetry. now apply list_set_same.
  - rewrite bind_run, method_run, Hd.
    destruct (f d) as [e|d'] eqn:E; simpl; [reflexivity|].
    specialize (IH (set_heap (logged w c) (list_set obj d' (heap w))) d').
    simpl in IH. specialize (IH (nth_error_list_set obj d' d (heap w) Hd)).
    destruct (apply_methods (map snd ms) d') as [e|d'']; [exact IH|].
    destruct IH as [H1 H2]. split; [exact H1|].
    rewrite H2. apply list_set_twice.
Qed.

(** [process_svg] is the run of its method calls, and returns its argument. *)
Lemma process_svg_as_run (svg : nat) (scale : float) (width height : Z)
    (simplify : bool) (max_dist : Z) (w : W) :
  process_svg svg scale width height simplify max_dist w =
  (run_methods svg (process_svg_steps lib svg scale width height simplify max_dist) ;;;
   ret svg) w.
Proof.
  unfold process_svg, process_svg_steps, SVG_zoom, SVG_normalize, SVG_simplify_arcs,
    SVG_simplify_heuristic, SVG_split.
  destruct simplify; simpl; unfold bind, ret;
    repeat match goal with
           | |- context [match ?m ?x with _ => _ end] =>
               match m with
               | method _ _ _ => destruct (m x) as [[[]| | |] ?]
               end
           end; reflexivity.
Qed.

Lemma process_svg_steps_calls (svg : nat) (scale : float) (width height : Z)
    (simplify : bool) (max_dist : Z) :
  map fst (process_svg_steps lib svg scale width height simplify max_dist)
  = process_svg_calls svg scale width height simplify max_dist.
Proof. destruct simplify; reflexivity. Qed.

Lemma process_svg_steps_transform (scale : float) (width height : Z)
    (simplify : bool) (max_dist : Z) (svg : nat) (d : doc lib) :
  apply_methods (map snd (process_svg_steps lib svg scale width height simplify max_dist)) d
  = svg_transform lib scale width height simplify max_dist d.
Proof.
  unfold svg_transform. destruct simplify; simpl.
  - destruct (zoom lib scale d) as [|d1]; [reflexivity|].
    destruct (normalize lib _ d1) as [|d2]; [reflexivity|].
    destruct (simplify_arcs lib d2) as [|d3]; [reflexivity|].
    destruct (simplify_heuristic lib d3) as [|d4]; [reflexivity|].
    destruct (split lib max_dist d4); reflexivity.
  - destruct (zoom lib scale d) as [|d1]; [reflexivity|].
    destruct (normalize lib _ d1); reflexivity.
Qed.

(** [process_svg] returned: it returned its argument, and the object holds
    the document transformed by the methods in their order. *)
Lemma process_svg_Ok (svg : nat) (scale : float) (width height : Z)
    (simplify : bool) (max_dist : Z) (w w' : W) (svg' : nat) (d : doc lib) :
  nth_error (heap w) svg = Some d ->
  process_svg svg scale width height simplify max_dist w = (Ok svg', w') ->
  svg' = svg
  /\ exists d', svg_transform lib scale width height simplify max_dist d = inr d'
       /\ heap w' = list_set svg d' (heap w)
       /\ fs w' = fs w /\ cwd w' = cwd w.
Proof.
  intros Hd. rewrite process_svg_as_run, bind_run.
  pose proof (run_methods_heap svg
    (process_svg_steps lib svg scale width height simplify max_dist) w d Hd) as Hh.
  rewrite process_svg_steps_transform in Hh.
  pose proof (run_methods_calls svg
    (process_svg_steps lib svg scale width height simplify max_dist) w)
    as (_ & _ & _ & Hfs & Hcwd & _).
  destruct (svg_transform lib scale width height simplify max_dist d) as [e|d'].
  - rewrite Hh. discriminate.
  - destruct Hh as [Hok Hheap]. rewrite Hok. unfold ret.
    intros H. injection H as <- <-. split; [reflexivity|]. now exists d'.
Qed.

End ProcessSvgFacts.

Lemma world_ext (lib : Collaborators) (w w' : world lib) :
  fs w = fs w' -> cwd w = cwd w' -> heap w = heap w' -> stdout w = stdout w' ->
  stderr w = stderr w' -> calls w = calls w' -> w = w'.
Proof. destruct w, w'; simpl; intros; subst; reflexivity. Qed.

(** C7. [process_svg] calls the methods of the library in a fixed order. On
    every call the recorded calls are a leading part, [zoom] first, of
    [zoom(scale)], [normalize(Bbox(width, height))] and, exactly when
    [simplify] is set, [simplify_arcs], [simplify_heuristic],
    [split(max_dist)]. When no method raises, all of them are made, the
    object holds the document transformed in that order, and the object is
    what [process_svg] returns; otherwise the first exception is raised. *)
Theorem process_svg_call_order
    (lib : Collaborators) (svg : nat) (scale : float) (width height : Z)
    (simplify : bool) (max_dist : Z) (w : world lib) (d : doc lib) :
  nth_error (heap w) svg = Some d ->
  let r := process_svg svg scale width height simplify max_dist w in
  let expected :=
    [CallZoom svg scale; CallNormalize svg (Bbox width height)]
    ++ (if simplify
        then [CallSimplifyArcs svg; CallSimplifyHeuristic svg; CallSplit svg max_dist]
        else []) in
  (exists k, (1 <= k)%nat /\ calls (snd r) = calls w ++ firstn k expected)
  /\ match svg_transform lib scale width height simplify max_dist d with
     | inr d' =>
         r = (Ok svg,
              mkWorld lib (fs w) (cwd w) (list_set svg d' (heap w))
                (stdout w) (stderr w) (calls w ++ expected))
     | inl e => fst r = Raise e
     end.
Proof.
  intros Hd r expected.
  assert (Hr : r = (run_methods svg (process_svg_steps lib svg scale width height simplify max_dist) ;;;
                    ret svg) w) by apply process_svg_as_run.
  assert (He : expected = map fst (process_svg_steps lib svg scale width height simplify max_dist)).
  { subst expected. now rewrite process_svg_steps_calls. }
  pose proof (run_methods_calls lib svg
    (process_svg_steps lib svg scale width height simplify max_dist) w) as Hc.
  pose proof (run_methods_heap lib svg
    (process_svg_steps lib svg scale width height simplify max_dist) w d Hd) as Hh.
  rewrite process_svg_steps_transform in Hh.
  cbv zeta in Hc. rewrite <- He in Hc.
  destruct Hc as ((k & Hk & Hcalls) & Hall & _ & Hfs & Hcwd & Hout & Herr).
  rewrite bind_run in Hr.
  set (rm := run_methods svg _ w) in *.
  split.
  - exists k. split.
    + assert (L : (2 <= List.length (process_svg_steps lib svg scale width height simplify max_dist))%nat)
        by (destruct simplify; simpl; lia).
      lia.
    + rewrite Hr. destruct (fst rm) as [[]| | |]; exact Hcalls.
  - destruct (svg_transform lib scale width height simplify max_dist d) as [e|d'].
    + rewrite Hr, Hh. reflexivity.
    + destruct Hh as [Hok Hheap]. rewrite Hr, Hok. unfold ret. f_equal.
      apply world_ext; simpl; auto.
Qed.

(** The claim holds on a document of the toy library, with [simplify] set. *)
Lemma process_svg_call_order_witness :
  nth_error (heap (mkWorld toy [] "/" [Toy (Bbox 24 24) "<svg/>"] [] [] [])) 0
    = Some (Toy (Bbox 24 24) "<svg/>")
  /\ process_svg 0 2%float 200 100 true 5
       (mkWorld toy [] "/" [Toy (Bbox 24 24) "<svg/>"] [] [] [])
     = (Ok 0%nat,
        mkWorld toy [] "/" [Toy (Bbox 200 100) "<svg/>"] [] []
          [CallZoom 0 2%float; CallNormalize 0 (Bbox 200 100); CallSimplifyArcs 0;
           CallSimplifyHeuristic 0; CallSplit 0 5]).
Proof.
  split; [reflexivity|].
  exact (proj2 (process_svg_call_order toy 0 2%float 200 100 true 5
                  (mkWorld toy [] "/" [Toy (Bbox 24 24) "<svg/>"] [] [] [])
                  (Toy (Bbox 24 24) "<svg/>") eq_refl)).
Defined.


(* ================================================================== *)
(** * [preprocess_svg] and [process_single_file] *)
(* ================================================================== *)

Section SingleFileFacts.

Variable lib : Collaborators.

Local Abbreviation W := (world lib).

Lemma print_run (line : string) (w : W) : print line w = (Ok tt, printed w line).
Proof. reflexivity. Qed.

Lemma log_call_run (c : call) (w : W) : log_call c w = (Ok tt, logged w c).
Proof. reflexivity. Qed.

(** What a system call leaves as it is. *)
Lemma fs_alter_frame (mk : bool) (f : option FS.node -> exn + option FS.node)
    (path : string) (w : W) :
  let r := fs_alter mk f path w in
  cwd (snd r) = cwd w /\ heap (snd r) = heap w /\ stdout (snd r) = stdout w
  /\ stderr (snd r) = stderr w /\ calls (snd r) = calls w
  /\ (fst r = Ok tt \/ exists e, fst r = Raise e /\ snd r = w).
Proof.
  destruct (fs_alter_cases lib mk f path w) as [[e He]|(p & es & _ & _ & He)];
    rewrite He; simpl; repeat split; auto. right. eauto.
Qed.

Lemma is_file_same_fs (w w' : W) (path : string) :
  fs w' = fs w -> cwd w' = cwd w -> is_file w' path = is_file w path.
Proof. unfold is_file, fs_lookup, root. now intros -> ->. Qed.

Lemma write_is_file (path data : string) (w w' : W) :
  fs_alter false (FS.write_file data) path w = (Ok tt, w') -> is_file w' path = true.
Proof.
  intros H. apply write_Ok in H as [H _]. unfold is_file. now rewrite H.
Qed.

(** [subprocess.run], by what [picosvg] does. *)
Lemma subprocess_run_picosvg_run (input_path output_path : string) (w : W) :
  subprocess_run_picosvg input_path output_path w =
  match picosvg lib (cwd w) (root w) input_path with
  | NotStarted e => (Raise e, logged w (CallPicosvg input_path))
  | Completed out returncode =>
      match write output_path out (logged w (CallPicosvg input_path)) with
      | (Ok _, w2) =>
          if (returncode =? 0)%Z then (Ok tt, w2)
          else (Raise (CalledProcessError returncode), w2)
      | (Raise e, w2) => (Raise e, w2)
      | (SysExit c, w2) => (SysExit c, w2)
      | (OutOfFuel, w2) => (OutOfFuel, w2)
      end
  end.
Proof.
  unfold subprocess_run_picosvg, bind. rewrite log_call_run.
  change (cwd (logged w (CallPicosvg input_path))) with (cwd w).
  change (root (logged w (CallPicosvg input_path))) with (root w).
  destruct (picosvg lib (cwd w) (root w) input_path) as [out rc|e]; [|reflexivity].
  destruct (write output_path out (logged w (CallPicosvg input_path))) as [[[]|e|c|] w2];
    try reflexivity.
  destruct (rc =? 0)%Z; reflexivity.
Qed.

(** [picosvg] ran and exited with a non-zero status: [preprocess_svg]
    returns [False], and the output file it opened stays, holding what
    [picosvg] wrote. *)
Lemma preprocess_svg_nonzero (input_path output_path : string) (w w1 : W)
    (out : string) (returncode : Z) :
  open_w output_path w = (Ok tt, w1) ->
  picosvg lib (cwd w1) (root w1) input_path = Completed out returncode ->
  returncode <> 0%Z ->
  exists w', preprocess_svg input_path output_path w = (Ok false, w')
    /\ fs_lookup w' output_path = Some (FS.File out)
    /\ cwd w' = cwd w /\ heap w' = heap w
    /\ calls w' = calls w ++ [CallPicosvg input_path].
Proof.
  intros Hopen Hpico Hrc.
  pose proof (write_is_file _ _ _ _ Hopen) as Hfile.
  pose proof (write_Ok lib _ _ _ _ Hopen) as (_ & Hcwd & Hheap & _ & _ & Hcalls).
  destruct (write_file_succeeds lib output_path out (logged w1 (CallPicosvg input_path)))
    as [w2 Hw2]; [exact Hfile|].
  pose proof (write_Ok lib _ _ _ _ Hw2) as (Hl2 & Hcwd2 & Hheap2 & _ & _ & Hcalls2).
  exists (printed w2 ("Error preprocessing " +++ input_path +++ ": " +++
                      str_exn (CalledProcessError returncode))).
  split.
  - unfold preprocess_svg, try_except_cls.
    rewrite (bind_Ok lib _ _ _ _ _ Hopen).
    rewrite bind_run, subprocess_run_picosvg_run, Hpico.
    unfold write. rewrite Hw2.
    destruct (Z.eqb_spec returncode 0); [contradiction|]. reflexivity.
  - split; [exact Hl2|]. simpl. rewrite Hcwd2, Hheap2, Hcalls2. simpl.
    rewrite Hcwd, Hheap, Hcalls. repeat split; reflexivity.
Qed.

(** [preprocess_svg] returned [True]: the file was opened, [picosvg] exited
    with status 0, and the output file holds what it wrote. *)
Lemma preprocess_svg_true (input_path output_path : string) (w w' : W) :
  preprocess_svg input_path output_path w = (Ok true, w') ->
  exists w1 out,
    open_w output_path w = (Ok tt, w1)
    /\ picosvg lib (cwd w1) (root w1) input_path = Completed out 0%Z
    /\ fs_lookup w' output_path = Some (FS.File out)
    /\ cwd w' = cwd w /\ heap w' = heap w
    /\ calls w' = calls w ++ [CallPicosvg input_path].
Proof.
  unfold preprocess_svg, try_except_cls. rewrite bind_run.
  destruct (open_w output_path w) as [[[]|e|c|] w1] eqn:Hopen; simpl;
    try (destruct (is_CalledProcessError e)); try discriminate.
  pose proof (write_Ok lib _ _ _ _ Hopen) as (_ & Hcwd & Hheap & _ & _ & Hcalls).
  rewrite bind_run, subprocess_run_picosvg_run.
  destruct (picosvg lib (cwd w1) (root w1) input_path) as [out rc|e] eqn:Hpico; simpl;
    [|destruct (is_CalledProcessError e); discriminate].
  destruct (write output_path out (logged w1 (CallPicosvg input_path)))
    as [[[]|e|c|] w2] eqn:Hw2; simpl;
    try (destruct (is_CalledProcessError e)); try discriminate.
  pose proof (write_Ok lib _ _ _ _ Hw2) as (Hl2 & Hcwd2 & Hheap2 & _ & _ & Hcalls2).
  destruct (Z.eqb_spec rc 0) as [->|Hrc]; simpl; [|discriminate].
  intros H. injection H as <-.
  exists w1, out. split; [reflexivity|]. split; [exact Hpico|].
  split; [exact Hl2|]. simpl. rewrite Hcwd2, Hheap2, Hcalls2. simpl.
  rewrite Hcwd, Hheap, Hcalls. repeat split; reflexivity.
Qed.

(** [SVG.load_svg], by what the file holds. *)
Lemma SVG_load_svg_run (path : string) (w : W) :
  SVG_load_svg path w =
  match fs_lookup w path with
  | Some (FS.File data) =>
      match from_str lib data with
      | inl e => (Raise e, logged w (CallLoad path))
      | inr d => (Ok (List.length (heap w)),
                  set_heap (logged w (CallLoad path)) (heap w ++ [d]))
      end
  | Some (FS.Dir _) => (Raise IsADirectoryError, logged w (CallLoad path))
  | None => (Raise FileNotFoundError, logged w (CallLoad path))
  end.
Proof.
  unfold SVG_load_svg, bind. rewrite log_call_run.
  change (fs_lookup (logged w (CallLoad path)) path) with (fs_lookup w path).
  destruct (fs_lookup w path) as [[data|es]|]; try reflexivity.
Qed.

(** [SVG.load_svg] reads only: it ends with the new object or with an
    exception. *)
Lemma SVG_load_svg_frame (path : string) (w w' : W) (r : outcome nat) :
  SVG_load_svg path w = (r, w') ->
  fs w' = fs w /\ cwd w' = cwd w
  /\ calls w' = calls w ++ [CallLoad path]
  /\ ((exists e, r = Raise e)
      \/ (r = Ok (List.length (heap w))
          /\ exists data d, fs_lookup w path = Some (FS.File data)
               /\ from_str lib data = inr d /\ heap w' = heap w ++ [d])).
Proof.
  rewrite SVG_load_svg_run.
  destruct (fs_lookup w path) as [[data|es]|];
    [destruct (from_str lib data) as [e|d] eqn:E| |]; intros H; injection H as <- <-;
    simpl; repeat split; auto; try (left; eauto; fail).
  right. split; [reflexivity|]. now exists data, d.
Qed.

(** [process_svg] touches the heap and the record of calls only, and ends
    with its argument or with an exception. *)
Lemma process_svg_frame (svg : nat) (scale : float) (width height : Z)
    (simplify : bool) (max_dist : Z) (w w' : W) (r : outcome nat) :
  process_svg svg scale width height simplify max_dist w = (r, w') ->
  fs w' = fs w /\ cwd w' = cwd w /\ (r = Ok svg \/ exists e, r = Raise e).
Proof.
  rewrite process_svg_as_run, bind_run.
  pose proof (run_methods_calls lib svg
    (process_svg_steps lib svg scale width height simplify max_dist) w)
    as (_ & _ & Hr & Hfs & Hcwd & _).
  destruct Hr as [Hr|[e Hr]]; rewrite Hr; intros H; injection H as <- <-;
    repeat split; auto. right; eauto.
Qed.

(** [svg.save_svg(path)] onto a regular file: the file stays a regular file;
    when nothing raises it holds the serialised document. *)
Lemma SVG_save_svg_file (svg : nat) (path : string) (w w' : W) (r : outcome unit) :
  is_file w path = true ->
  SVG_save_svg svg path w = (r, w') ->
  is_file w' path = true /\ cwd w' = cwd w /\ heap w' = heap w
  /\ calls w' = calls w ++ [CallSave svg path]
  /\ ((exists e, r = Raise e)
      \/ (r = Ok tt
          /\ exists d, nth_error (heap w) svg = Some d
               /\ snd (to_file lib d) = None
               /\ fs_lookup w' path = Some (FS.File (fst (to_file lib d))))).
Proof.
  intros Hfile. unfold SVG_save_svg. rewrite bind_run, log_call_run.
  cbn [fst snd].
  change (heap (logged w (CallSave svg path))) with (heap w).
  destruct (nth_error (heap w) svg) as [d|] eqn:Hd.
  2:{ intros H; injection H as <- <-. simpl. repeat split; auto. left. eauto. }
  destruct (write_file_succeeds lib path "" (logged w (CallSave svg path)))
    as [w1 Hw1]; [exact Hfile|].
  pose proof (write_is_file _ _ _ _ Hw1) as Hfile1.
  pose proof (write_Ok lib _ _ _ _ Hw1) as (_ & Hcwd1 & Hheap1 & _ & _ & Hcalls1).
  destruct (write_file_succeeds lib path (fst (to_file lib d)) w1) as [w2 Hw2];
    [exact Hfile1|].
  pose proof (write_is_file _ _ _ _ Hw2) as Hfile2.
  pose proof (write_Ok lib _ _ _ _ Hw2) as (Hl2 & Hcwd2 & Hheap2 & _ & _ & Hcalls2).
  unfold open_w, write.
  rewrite (bind_Ok lib _ _ _ _ _ Hw1), (bind_Ok lib _ _ _ _ _ Hw2).
  assert (Hc : cwd w2 = cwd w) by (rewrite Hcwd2, Hcwd1; reflexivity).
  assert (Hh : heap w2 = heap w) by (rewrite Hheap2, Hheap1; reflexivity).
  assert (Hcl : calls w2 = calls w ++ [CallSave svg path])
    by (rewrite Hcalls2, Hcalls1; reflexivity).
  destruct (snd (to_file lib d)) as [e|] eqn:Herr; intros H; injection H as <- <-.
  - repeat split; auto. left. eauto.
  - repeat split; auto. right. split; [reflexivity|]. exists d. auto.
Qed.

(** Lines 107-114 on a regular file: they end with [True] or with an
    exception, and the output path is a regular file all along. *)
Lemma load_process_save_keeps_file (output_path : string) (scale : float)
    (width height : Z) (simplify : bool) (max_dist : Z) (w w' : W) (r : outcome bool) :
  is_file w output_path = true ->
  load_process_save output_path scale width height simplify max_dist w = (r, w') ->
  is_file w' output_path = true /\ cwd w' = cwd w
  /\ (r = Ok true \/ exists e, r = Raise e).
Proof.
  intros Hfile. unfold load_process_save, bind.
  destruct (SVG_load_svg output_path w) as [r1 w1] eqn:E1.
  pose proof (SVG_load_svg_frame _ _ _ _ E1) as (Hfs1 & Hcwd1 & _ & Hr1).
  assert (Hfile1 : is_file w1 output_path = true)
    by (rewrite (is_file_same_fs w w1 output_path Hfs1 Hcwd1); exact Hfile).
  destruct Hr1 as [[e ->]|[-> _]].
  { intros H; injection H as <- <-. repeat split; auto. right; eauto. }
  destruct (process_svg _ scale width height simplify max_dist w1) as [r2 w2] eqn:E2.
  pose proof (process_svg_frame _ _ _ _ _ _ _ _ _ E2) as (Hfs2 & Hcwd2 & Hr2).
  assert (Hfile2 : is_file w2 output_path = true)
    by (rewrite (is_file_same_fs w1 w2 output_path Hfs2 Hcwd2); exact Hfile1).
  destruct Hr2 as [->|[e ->]].
  2:{ intros H; injection H as <- <-. repeat split; auto; [congruence | right; eauto]. }
  destruct (SVG_save_svg _ output_path w2) as [r3 w3] eqn:E3.
  pose proof (SVG_save_svg_file _ _ _ _ _ Hfile2 E3) as (Hfile3 & Hcwd3 & _ & _ & Hr3).
  destruct Hr3 as [[e ->]|[-> _]].
  { intros H; injection H as <- <-. repeat split; auto; [congruence | right; eauto]. }
  rewrite print_run. unfold ret. intros H; injection H as <- <-.
  split; [|split; [simpl; congruence | left; reflexivity]].
  rewrite <- Hfile3. apply is_file_same_fs; reflexivity.
Qed.

Lemma getsize_run (path : string) (w : W) :
  getsize path w =
  match fs_lookup w path with
  | Some n => (Ok (FS.size_of n), w)
  | None => (Raise FileNotFoundError, w)
  end.
Proof. reflexivity. Qed.

Lemma exists_run (path : string) (w : W) :
  exists_ path w = (Ok (path_exists w path), w).
Proof. reflexivity. Qed.

Lemma is_file_exists (path : string) (w : W) :
  is_file w path = true -> path_exists w path = true.
Proof. unfold is_file, path_exists. now destruct (fs_lookup w path) as [[d|es]|]. Qed.

(** The [except] block on a regular file: the file is removed and [False]
    is returned. *)
Lemma process_single_file_handler_file (input_path output_path : string)
    (e : exn) (w : W) :
  is_file w output_path = true ->
  exists w', process_single_file_handler input_path output_path e w = (Ok false, w')
    /\ path_exists w' output_path = false
    /\ cwd w' = cwd w /\ heap w' = heap w /\ calls w' = calls w.
Proof.
  intros Hfile. unfold process_single_file_handler.
  rewrite bind_run, print_run. cbn [fst snd].
  set (w1 := printed w _).
  assert (Hfile1 : is_file w1 output_path = true)
    by (rewrite <- Hfile; apply is_file_same_fs; reflexivity).
  rewrite bind_run, exists_run. cbn [fst snd].
  rewrite (is_file_exists _ _ Hfile1).
  destruct (remove_file lib output_path w1 Hfile1)
    as (w' & Hrm & Hgone & Hcwd & Hheap & _ & _ & Hcalls).
  rewrite bind_run, Hrm. cbn [fst snd]. unfold ret.
  exists w'. repeat split; auto.
Qed.

End SingleFileFacts.

(** [picosvg] exits with a non-zero status: [process_single_file] returns
    [False], and the output file [preprocess_svg] opened is still there,
    holding what [picosvg] wrote. Lines 97-99 return without removing it. *)
Lemma process_single_file_picosvg_failure
    (lib : Collaborators) (input_path output_path : string) (scale : float)
    (width height : Z) (simplify : bool) (max_dist : Z)
    (w0 wa w1 : world lib) (out : string) (returncode : Z) :
  makedirs (output_parent output_path) w0 = (Ok tt, wa) ->
  open_w output_path wa = (Ok tt, w1) ->
  picosvg lib (cwd w1) (root w1) input_path = Completed out returncode ->
  returncode <> 0%Z ->
  exists w',
    process_single_file input_path output_path scale width height simplify max_dist w0
      = (Ok false, w')
    /\ fs_lookup w' output_path = Some (FS.File out)
    /\ path_exists w' output_path = true.
Proof.
  intros Hmk Hopen Hpico Hrc.
  destruct (preprocess_svg_nonzero lib input_path output_path wa w1 out returncode
              Hopen Hpico Hrc) as (wb & Hpre & Hl & _).
  exists (printed wb ("Skipping " +++ input_path +++ ": preprocessing failed")).
  assert (Hl' : fs_lookup (printed wb ("Skipping " +++ input_path +++ ": preprocessing failed"))
                  output_path = Some (FS.File out)) by exact Hl.
  split; [|split; [exact Hl' | unfold path_exists; now rewrite Hl']].
  unfold process_single_file, try_except, try_except_cls, process_single_file_body.
  rewrite (bind_Ok lib _ _ _ _ _ Hmk), (bind_Ok lib _ _ _ _ _ Hpre).
  reflexivity.
Qed.

(** C8. The preprocessed output file has size zero: [process_single_file]
    removes it and returns [False]; the only call into a collaborator is the
    one to [picosvg], and no [SVG] object was made. *)
Theorem process_single_file_empty_output
    (lib : Collaborators) (input_path output_path : string) (scale : float)
    (width height : Z) (simplify : bool) (max_dist : Z)
    (w0 wa wb : world lib) :
  makedirs (output_parent output_path) w0 = (Ok tt, wa) ->
  preprocess_svg input_path output_path wa = (Ok true, wb) ->
  getsize output_path wb = (Ok 0%Z, wb) ->
  exists w',
    process_single_file input_path output_path scale width height simplify max_dist w0
      = (Ok false, w')
    /\ path_exists w' output_path = false
    /\ calls w' = calls w0 ++ [CallPicosvg input_path]
    /\ heap w' = heap w0.
Proof.
  intros Hmk Hpre Hsize.
  pose proof (fs_alter_frame lib true FS.mkdir_exist_ok (output_parent output_path) w0)
    as Hfr. cbv zeta in Hfr. fold (makedirs (lib:=lib) (output_parent output_path)) in Hfr.
  rewrite Hmk in Hfr. destruct Hfr as (_ & Hheap_a & _ & _ & Hcalls_a & _).
  destruct (preprocess_svg_true lib _ _ _ _ Hpre)
    as (w1 & out & _ & _ & Hl & _ & Hheap_b & Hcalls_b).
  set (w2 := printed wb ("Skipping " +++ output_path +++ ": file is empty")).
  assert (Hfile2 : is_file w2 output_path = true).
  { unfold is_file.
    change (fs_lookup w2 output_path) with (fs_lookup wb output_path). now rewrite Hl. }
  destruct (remove_file lib output_path w2 Hfile2)
    as (w' & Hrm & Hgone & _ & Hheap & _ & _ & Hcalls).
  exists w'. split; [|split; [exact Hgone | split]].
  - unfold process_single_file, try_except, try_except_cls, process_single_file_body.
    rewrite (bind_Ok lib _ _ _ _ _ Hmk), (bind_Ok lib _ _ _ _ _ Hpre).
    cbn [negb]. rewrite (bind_Ok lib _ _ _ _ _ Hsize). cbn [Z.eqb].
    rewrite bind_run, print_run. cbn [fst snd]. fold w2.
    rewrite bind_run, Hrm. reflexivity.
  - rewrite Hcalls. simpl. rewrite Hcalls_b. simpl in Hcalls_a. now rewrite Hcalls_a.
  - rewrite Hheap. simpl. rewrite Hheap_b. exact Hheap_a.
Qed.

(** An empty input makes the toy [picosvg] write an empty output. *)
Lemma process_single_file_empty_output_witness :
  exists w',
    process_single_file "svgs/e.svg" "out/e.svg" 1%float 200 200 false 5
      (toy_world empty_tree) = (Ok false, w')
    /\ path_exists w' "out/e.svg" = false
    /\ calls w' = calls (toy_world empty_tree) ++ [CallPicosvg "svgs/e.svg"]
    /\ heap w' = heap (toy_world empty_tree).
Proof.
  refine (process_single_file_empty_output toy "svgs/e.svg" "out/e.svg"
            1%float 200 200 false 5 (toy_world empty_tree)
            (snd (makedirs "out" (toy_world empty_tree)))
            (snd (preprocess_svg "svgs/e.svg" "out/e.svg"
                    (snd (makedirs "out" (toy_world empty_tree)))))
            _ _ _); vm_compute; reflexivity.
Defined.

(** C1, on the code: [picosvg] exits with status 1 on [/svgs/b.svg];
    [process_single_file] returns [False], and the output file [/out/b.svg]
    is left on disk (empty, as [open(.., "w")] created it). *)
Theorem process_single_file_leaves_output_when_picosvg_fails :
  picosvg toy "/" (FS.Dir broken_tree) "svgs/b.svg" = Completed "" 1
  /\ path_exists (toy_world broken_tree) "out/b.svg" = false
  /\ fst (process_single_file "svgs/b.svg" "out/b.svg" 1%float 200 200 false 5
            (toy_world broken_tree)) = Ok false
  /\ fs_lookup
       (snd (process_single_file "svgs/b.svg" "out/b.svg" 1%float 200 200 false 5
               (toy_world broken_tree))) "out/b.svg" = Some (FS.File "")
  /\ fs (snd (process_single_file "svgs/b.svg" "out/b.svg" 1%float 200 200 false 5
                (toy_world broken_tree)))
     = [("svgs", FS.Dir [("b.svg", FS.File "broken")]);
        ("out", FS.Dir [("b.svg", FS.File "")])].
Proof. repeat split; vm_compute; reflexivity. Qed.

(** One turn of the inner loop of [process_directory]: a name that does not
    end in [.svg] is skipped; otherwise the outcome of [process_single_file]
    goes to one of the two counters. *)
Lemma process_directory_file_counts
    (lib : Collaborators) (input_dir output_dir : string) (scale : float)
    (width height : Z) (simplify : bool) (max_dist : Z)
    (root filename output_path : string) (success_count failure_count : Z)
    (ok : bool) (w w' : world lib) :
  PyStr.endswith filename ".svg" = true ->
  batch_output_path input_dir output_dir root filename w = (Ok output_path, w) ->
  process_single_file (posixpath.join root filename) output_path
    scale width height simplify max_dist w = (Ok ok, w') ->
  process_directory_file input_dir output_dir scale width height simplify max_dist
    root filename (success_count, failure_count) w
  = (Ok (if ok then ((success_count + 1)%Z, failure_count)
         else (success_count, (failure_count + 1)%Z)), w').
Proof.
  intros Hsvg Hout Hp. unfold process_directory_file. rewrite Hsvg. cbn [negb].
  rewrite (bind_Ok lib _ _ _ _ _ Hout), (bind_Ok lib _ _ _ _ _ Hp).
  destruct ok; reflexivity.
Qed.

(* ================================================================== *)
(** * The bounding box of a processed file *)
(* ================================================================== *)

Section ViewboxFacts.

Variable lib : Collaborators.

Hypothesis contract : normalizes_viewbox lib.

Lemma svg_transform_viewbox (scale : float) (width height : Z) (simplify : bool)
    (max_dist : Z) (d d' : doc lib) :
  svg_transform lib scale width height simplify max_dist d = inr d' ->
  viewbox lib d' = Bbox width height.
Proof.
  destruct contract as (Hn & Ha & Hh & Hs).
  unfold svg_transform.
  destruct (zoom lib scale d) as [|d1]; [discriminate|].
  destruct (normalize lib (Bbox width height) d1) as [|d2] eqn:E2; [discriminate|].
  pose proof (Hn _ _ _ E2) as V2.
  destruct simplify.
  - destruct (simplify_arcs lib d2) as [|d3] eqn:E3; [discriminate|].
    destruct (simplify_heuristic lib d3) as [|d4] eqn:E4; [discriminate|].
    intros E5.
    rewrite (Hs _ _ _ E5), (Hh _ _ E4), (Ha _ _ E3). exact V2.
  - now intros [= <-].
Qed.

End ViewboxFacts.

Section SuccessFacts.

Variable lib : Collaborators.

Local Abbreviation W := (world lib).

(** The [except] block never returns [True]. *)
Lemma process_single_file_handler_not_true (input_path output_path : string)
    (e : exn) (w w' : W) :
  process_single_file_handler input_path output_path e w <> (Ok true, w').
Proof.
  unfold process_single_file_handler, bind.
  rewrite print_run, exists_run.
  destruct (path_exists _ output_path).
  - destruct (remove output_path _) as [[[]|e1|c|] w1]; unfold ret; congruence.
  - unfold ret. congruence.
Qed.

(** [process_single_file] returned [True]: every step of the [try] block
    went through, up to the end of lines 107-114. *)
Lemma process_single_file_true (input_path output_path : string) (scale : float)
    (width height : Z) (simplify : bool) (max_dist : Z) (w0 w' : W) :
  process_single_file input_path output_path scale width height simplify max_dist w0
    = (Ok true, w') ->
  exists wa wb size,
    makedirs (output_parent output_path) w0 = (Ok tt, wa)
    /\ preprocess_svg input_path output_path wa = (Ok true, wb)
    /\ getsize output_path wb = (Ok size, wb) /\ size <> 0%Z
    /\ load_process_save output_path scale width height simplify max_dist wb
       = (Ok true, w').
Proof.
  unfold process_single_file, try_except, try_except_cls.
  destruct (process_single_file_body _ _ _ _ _ _ _ w0) as [[b|e|c|] w1] eqn:Hbody;
    intros H; try discriminate.
  2:{ exfalso. exact (process_single_file_handler_not_true _ _ _ _ _ H). }
  injection H as -> ->.
  unfold process_single_file_body in Hbody.
  apply bind_Ok_inv in Hbody as ([] & wa & Hmk & Hbody).
  apply bind_Ok_inv in Hbody as (ok & wb & Hpre & Hbody).
  destruct ok; cbn [negb] in Hbody.
  2:{ apply bind_Ok_inv in Hbody as (? & ? & _ & Hbody). discriminate. }
  apply bind_Ok_inv in Hbody as (size & wb' & Hsize & Hbody).
  assert (wb' = wb).
  { rewrite getsize_run in Hsize. destruct (fs_lookup wb output_path); congruence. }
  subst wb'.
  destruct (Z.eqb_spec size 0) as [Hz|Hnz].
  { apply bind_Ok_inv in Hbody as (? & ? & _ & Hbody).
    apply bind_Ok_inv in Hbody as (? & ? & _ & Hbody). discriminate. }
  now exists wa, wb, size.
Qed.

End SuccessFacts.

(** C9. When [process_single_file] reports success, the document it saved
    has the requested bounding box: the object written by [save_svg] holds a
    document whose view box is [Bbox(width, height)], and the output file
    holds that document serialised. The library is taken at its contract
    [normalizes_viewbox]. *)
Theorem process_single_file_output_bbox
    (lib : Collaborators) (input_path output_path : string) (scale : float)
    (width height : Z) (simplify : bool) (max_dist : Z) (w0 w' : world lib) :
  normalizes_viewbox lib ->
  process_single_file input_path output_path scale width height simplify max_dist w0
    = (Ok true, w') ->
  exists (svg : nat) (d : doc lib),
    nth_error (heap w') svg = Some d
    /\ viewbox lib d = Bbox width height
    /\ to_file lib d = (fst (to_file lib d), None)
    /\ fs_lookup w' output_path = Some (FS.File (fst (to_file lib d)))
    /\ last (calls w') (CallPicosvg input_path) = CallSave svg output_path.
Proof.
  intros contract Hp.
  destruct (process_single_file_true lib _ _ _ _ _ _ _ _ _ Hp)
    as (wa & wb & size & _ & Hpre & _ & _ & Hlps).
  destruct (preprocess_svg_true lib _ _ _ _ Hpre) as (w1 & out & _ & _ & Hl & _).
  assert (Hfile_b : is_file wb output_path = true)
    by (unfold is_file; now rewrite Hl).
  unfold load_process_save in Hlps.
  apply bind_Ok_inv in Hlps as (svg & w2 & Hload & Hlps).
  apply bind_Ok_inv in Hlps as (svg' & w3 & Hproc & Hlps).
  apply bind_Ok_inv in Hlps as ([] & w4 & Hsave & Hlps).
  rewrite bind_run, print_run in Hlps. cbn [fst snd] in Hlps.
  unfold ret in Hlps. injection Hlps as <-.
  destruct (SVG_load_svg_frame lib _ _ _ _ Hload) as (Hfs2 & Hcwd2 & _ & Hr2).
  destruct Hr2 as [[e He]|[Hsvg (data & d0 & _ & _ & Hheap2)]]; [discriminate|].
  injection Hsvg as ->.
  assert (Hd0 : nth_error (heap w2) (List.length (heap wb)) = Some d0).
  { rewrite Hheap2, nth_error_app2 by lia. now rewrite Nat.sub_diag. }
  destruct (process_svg_Ok lib _ _ _ _ _ _ _ _ _ _ Hd0 Hproc)
    as (-> & d' & Et & Hheap3 & Hfs3 & Hcwd3).
  assert (Hfile3 : is_file w3 output_path = true).
  { rewrite (is_file_same_fs lib w2 w3 output_path Hfs3 Hcwd3).
    rewrite (is_file_same_fs lib wb w2 output_path Hfs2 Hcwd2). exact Hfile_b. }
  destruct (SVG_save_svg_file lib _ _ _ _ _ Hfile3 Hsave)
    as (_ & _ & Hheap4 & Hcalls4 & Hr4).
  destruct Hr4 as [[e He]|[_ (d & Hd & Herr & Hl4)]]; [discriminate|].
  rewrite Hheap3, (nth_error_list_set _ d' d0 _ Hd0) in Hd. injection Hd as <-.
  exists (List.length (heap wb)), d'. simpl.
  split; [rewrite Hheap4, Hheap3; now apply (nth_error_list_set _ d' d0)|].
  split; [exact (svg_transform_viewbox lib contract _ _ _ _ _ _ _ Et)|].
  split; [rewrite <- Herr; now destruct (to_file lib d')|].
  split; [exact Hl4|].
  rewrite Hcalls4. apply last_last.
Qed.

(** The toy library keeps to the contract. *)
Lemma toy_normalizes_viewbox : normalizes_viewbox toy.
Proof.
  repeat split; simpl.
  - intros box d d' [= <-]. reflexivity.
  - intros d d' [= <-]. reflexivity.
  - intros d d' [= <-]. reflexivity.
  - intros max_dist d d'. destruct (max_dist <? 0)%Z; [discriminate|].
    intros [= <-]. reflexivity.
Qed.

(** [/svgs/a.svg] is processed to a document of 200 by 100. *)
Lemma process_single_file_output_bbox_witness :
  fst (process_single_file "svgs/a.svg" "out/a.svg" 1%float 200 100 true 5
         (toy_world svgs_tree)) = Ok true
  /\ exists (svg : nat) (d : doc toy),
       nth_error
         (heap (snd (process_single_file "svgs/a.svg" "out/a.svg" 1%float 200 100 true 5
                       (toy_world svgs_tree)))) svg = Some d
       /\ viewbox toy d = Bbox 200 100
       /\ to_file toy d = (fst (to_file toy d), None)
       /\ fs_lookup
            (snd (process_single_file "svgs/a.svg" "out/a.svg" 1%float 200 100 true 5
                    (toy_world svgs_tree))) "out/a.svg"
          = Some (FS.File (fst (to_file toy d)))
       /\ last
            (calls (snd (process_single_file "svgs/a.svg" "out/a.svg" 1%float 200 100
                           true 5 (toy_world svgs_tree))))
            (CallPicosvg "svgs/a.svg") = CallSave svg "out/a.svg".
Proof.
  split; [vm_compute; reflexivity|].
  apply (process_single_file_output_bbox toy "svgs/a.svg" "out/a.svg" 1%float 200 100
           true 5 (toy_world svgs_tree)).
  - exact toy_normalizes_viewbox.
  - vm_compute; reflexivity.
Defined.


(* ================================================================== *)
(** * Paths of the walk: [join] and [relpath] *)
(* ================================================================== *)

Module WalkPaths.
Import PyStr PyStrFacts posixpath.

Lemma split_not_nil (s : string) : split s <> [].
Proof.
  induction s as [|c s IH]; simpl; [discriminate|].
  destruct (is_slash c); [discriminate|].
  destruct (split s); [contradiction | discriminate].
Qed.

Lemma split_sep_free (s : string) : sep_free s = true -> split s = [s].
Proof.
  induction s as [|c s IH]; simpl; [reflexivity|].
  intros H. apply andb_prop in H as [Hc Hs].
  destruct (is_slash c); [discriminate|]. now rewrite (IH Hs).
Qed.

Lemma split_append_sep (a b : string) :
  split (a +++ "/" +++ b) = split a ++ split b.
Proof.
  change ("/" +++ b) with (String slash b).
  induction a as [|c a IH]; simpl; [reflexivity|].
  destruct (is_slash c); [now rewrite IH|].
  rewrite IH. destruct (split a) as [|h t] eqn:E; [now apply split_not_nil in E|].
  reflexivity.
Qed.

Lemma split_all_sep_free (s : string) : Forall (fun c => sep_free c = true) (split s).
Proof.
  induction s as [|c s IH]; simpl; [repeat constructor|].
  destruct (is_slash c) eqn:Ec; [constructor; [reflexivity | exact IH]|].
  destruct (split s) as [|h t]; [repeat constructor; simpl; now rewrite Ec|].
  inversion IH; subst. constructor; [simpl; now rewrite Ec | assumption].
Qed.

Lemma endswith_sep_inv (s : string) :
  endswith_sep s = true -> exists y, s = y +++ "/".
Proof.
  induction s as [|c s IH]; simpl; [discriminate|].
  destruct s as [|c' s'].
  - unfold is_slash. destruct (Ascii.eqb_spec c slash) as [->|]; [|discriminate].
    intros _. now exists "".
  - intros H. destruct (IH H) as [y Hy]. exists (String c y). simpl. now rewrite Hy.
Qed.

Lemma endswith_sep_append (a b : string) :
  nonempty b = true -> endswith_sep (a +++ b) = endswith_sep b.
Proof.
  intros Hb. induction a as [|c a IH]; simpl; [reflexivity|].
  rewrite IH. destruct (a +++ b) eqn:E; [|reflexivity].
  destruct a; simpl in E; [subst b; discriminate | discriminate].
Qed.

Lemma endswith_sep_sep_free (s : string) : sep_free s = true -> endswith_sep s = false.
Proof.
  induction s as [|c s IH]; simpl; [reflexivity|].
  intros H. apply andb_prop in H as [Hc Hs].
  destruct s; [now destruct (is_slash c) | now apply IH].
Qed.

Lemma startswith_sep_append (a b : string) :
  nonempty a = true -> startswith_sep (a +++ b) = startswith_sep a.
Proof. destruct a; [discriminate | reflexivity]. Qed.

Lemma valid_name_inv (name : string) :
  FS.valid_name name = true ->
  nonempty name = true /\ sep_free name = true /\ name <> "." /\ name <> "..".
Proof.
  unfold FS.valid_name. intros H.
  apply andb_prop in H as [H H4]. apply andb_prop in H as [H H3].
  apply andb_prop in H as [H1 H2]. repeat split; auto.
  - intros ->. discriminate.
  - intros ->. discriminate.
Qed.

Lemma valid_name_sep_free (name : string) :
  FS.valid_name name = true -> sep_free name = true.
Proof. intros H. now apply valid_name_inv in H as (_ & H & _). Qed.

Lemma valid_name_nonempty (name : string) :
  FS.valid_name name = true -> nonempty name = true.
Proof. intros H. now apply valid_name_inv in H as (H & _). Qed.

Lemma valid_name_not_abs (name : string) :
  FS.valid_name name = true -> startswith_sep name = false.
Proof.
  intros H. apply valid_name_inv in H as (_ & H & _).
  destruct name as [|c s]; [reflexivity|]. simpl in *.
  apply andb_prop in H as [H _]. now destruct (is_slash c).
Qed.

(** [join] with a name: the name is appended, after a ["/"] unless the path
    is empty or ends with one. *)
Lemma join_name (a name : string) :
  FS.valid_name name = true ->
  join a name = if negb (nonempty a) || endswith_sep a then a +++ name
                else a +++ "/" +++ name.
Proof. intros H. unfold join. now rewrite (valid_name_not_abs name H). Qed.

(** ** The components [normpath] keeps *)

(** Only whether the path is absolute matters to the loop. *)
Lemma norm_step_abs (k : nat) (stack : list string) (comp : string) :
  k <> 0%nat -> norm_step k stack comp = norm_step 1 stack comp.
Proof. intros H. unfold norm_step. now destruct k. Qed.

Lemma fold_norm_step_abs (k : nat) (comps stack : list string) :
  k <> 0%nat ->
  fold_left (norm_step k) comps stack = fold_left (norm_step 1) comps stack.
Proof.
  intros H. revert stack; induction comps as [|c comps IH]; intros stack; simpl;
    [reflexivity|].
  now rewrite IH, norm_step_abs.
Qed.

Lemma norm_step_name (k : nat) (stack : list string) (name : string) :
  FS.valid_name name = true -> norm_step k stack name = stack ++ [name].
Proof.
  intros H. apply valid_name_inv in H as (H1 & _ & H3 & H4).
  unfold norm_step.
  destruct (String.eqb_spec name ""); [subst; discriminate|].
  destruct (String.eqb_spec name "."); [contradiction|].
  destruct (String.eqb_spec name ".."); [contradiction|]. reflexivity.
Qed.

Lemma initial_slashes_abs (p : string) :
  startswith_sep p = true -> initial_slashes_of p <> 0%nat.
Proof.
  intros H. unfold initial_slashes_of. rewrite H.
  now destruct (startswith_sep (drop 1 p) && negb (startswith_sep (drop 2 p))).
Qed.

Lemma norm_comps_abs (p : string) :
  startswith_sep p = true -> norm_comps p = abs_norm p.
Proof.
  intros H. unfold norm_comps, abs_norm.
  apply fold_norm_step_abs. now apply initial_slashes_abs.
Qed.

(** Appending a name to a path appends it to the components. *)
Lemma abs_norm_sep_name (q name : string) :
  FS.valid_name name = true ->
  abs_norm (q +++ "/" +++ name) = abs_norm q ++ [name].
Proof.
  intros H. unfold abs_norm. rewrite split_append_sep.
  rewrite (split_sep_free name) by (now apply valid_name_sep_free).
  rewrite fold_left_app. simpl. now apply norm_step_name.
Qed.

Lemma abs_norm_trailing_sep (y : string) : abs_norm (y +++ "/") = abs_norm y.
Proof.
  unfold abs_norm.
  change (y +++ "/") with (y +++ "/" +++ "").
  rewrite split_append_sep. simpl. rewrite fold_left_app. reflexivity.
Qed.

Lemma abs_norm_join_name (q name : string) :
  FS.valid_name name = true -> nonempty q = true ->
  abs_norm (join q name) = abs_norm q ++ [name].
Proof.
  intros H Hq. rewrite join_name by exact H. rewrite Hq. cbn [negb orb].
  destruct (endswith_sep q) eqn:E.
  - destruct (endswith_sep_inv q E) as [y ->].
    rewrite append_assoc. rewrite abs_norm_sep_name by exact H.
    now rewrite abs_norm_trailing_sep.
  - now apply abs_norm_sep_name.
Qed.

(** The components of an absolute path are names. *)
Lemma norm_step_valid (stack : list string) (comp : string) :
  Forall (fun c => FS.valid_name c = true) stack ->
  sep_free comp = true ->
  Forall (fun c => FS.valid_name c = true) (norm_step 1 stack comp).
Proof.
  intros Hs Hc. unfold norm_step.
  destruct (String.eqb_spec comp "") as [->|Hne]; [exact Hs|].
  destruct (String.eqb_spec comp ".") as [->|Hdot]; [exact Hs|].
  destruct (String.eqb_spec comp "..") as [->|Hdd]; cbn [negb orb andb Nat.eqb].
  - assert (Hlast : match rev stack with l :: _ => String.eqb l ".." | [] => false end = false).
    { destruct (rev stack) as [|l t] eqn:E; [reflexivity|].
      assert (Hin : In l stack) by (apply in_rev; rewrite E; now left).
      rewrite Forall_forall in Hs. specialize (Hs l Hin).
      apply valid_name_inv in Hs as (_ & _ & _ & Hs).
      destruct (String.eqb_spec l ".."); [contradiction | reflexivity]. }
    rewrite Hlast.
    clear Hlast. induction stack as [|x stack IH]; simpl; [constructor|].
    inversion Hs; subst. destruct stack; [constructor|].
    constructor; [assumption | now apply IH].
  - apply Forall_app. split; [exact Hs|]. constructor; [|constructor].
    unfold FS.valid_name. rewrite Hc.
    assert (Hn : nonempty comp = true) by (destruct comp; [contradiction | reflexivity]).
    rewrite Hn.
    destruct (String.eqb_spec comp "."); [contradiction|].
    destruct (String.eqb_spec comp ".."); [contradiction|]. reflexivity.
Qed.

Lemma fold_norm_step_valid (comps stack : list string) :
  Forall (fun c => FS.valid_name c = true) stack ->
  Forall (fun c => sep_free c = true) comps ->
  Forall (fun c => FS.valid_name c = true) (fold_left (norm_step 1) comps stack).
Proof.
  revert stack; induction comps as [|c comps IH]; intros stack Hs Hc; simpl;
    [exact Hs|].
  inversion Hc; subst. apply IH; [now apply norm_step_valid | assumption].
Qed.

Lemma abs_norm_valid (p : string) :
  Forall (fun c => FS.valid_name c = true) (abs_norm p).
Proof.
  unfold abs_norm. apply fold_norm_step_valid; [constructor | apply split_all_sep_free].
Qed.

(** ** From the normalised string back to the components *)

Lemma split_slashes (k : nat) (s : string) :
  split (slashes k +++ s) = repeat "" k ++ split s.
Proof. induction k as [|k IH]; simpl; [reflexivity | now rewrite IH]. Qed.

Lemma filter_nonempty_repeat (k : nat) (l : list string) :
  filter nonempty (repeat "" k ++ l) = filter nonempty l.
Proof. induction k as [|k IH]; simpl; [reflexivity | exact IH]. Qed.

Lemma split_join_sep (comps : list string) :
  Forall (fun c => FS.valid_name c = true) comps ->
  filter nonempty (split (join_sep comps)) = comps.
Proof.
  induction comps as [|x comps IH]; intros H; [reflexivity|].
  inversion H as [|? ? Hx Hrest]; subst.
  pose proof (valid_name_sep_free x Hx) as Hsf.
  pose proof (valid_name_nonempty x Hx) as Hne.
  destruct comps as [|y comps].
  - simpl. rewrite (split_sep_free x Hsf). simpl. now rewrite Hne.
  - change (join_sep (x :: y :: comps)) with (x +++ "/" +++ join_sep (y :: comps)).
    rewrite split_append_sep, (split_sep_free x Hsf). simpl. rewrite Hne.
    f_equal. now apply IH.
Qed.

Lemma join_abs_cwd (cwd p : string) :
  startswith_sep cwd = true -> startswith_sep p = false ->
  startswith_sep (join cwd p) = true.
Proof.
  intros Hc Hp. unfold join. rewrite Hp.
  assert (Hn : nonempty cwd = true) by (now destruct cwd).
  rewrite Hn. cbn [negb orb].
  destruct (endswith_sep cwd); now rewrite startswith_sep_append.
Qed.

Lemma abs_of_abs (cwd p : string) :
  startswith_sep cwd = true -> startswith_sep (abs_of cwd p) = true.
Proof.
  intros Hc. unfold abs_of, isabs.
  destruct (startswith_sep p) eqn:E; [exact E | now apply join_abs_cwd].
Qed.

(** With an absolute current directory, the list [relpath] takes of
    [abspath(p)] is the list of components of the absolute path. *)
Lemma abs_list_norm (cwd p : string) :
  startswith_sep cwd = true -> abs_list cwd p = abs_norm (abs_of cwd p).
Proof.
  intros Hc. unfold abs_list, abspath. fold (abs_of cwd p).
  pose proof (abs_of_abs cwd p Hc) as Ha.
  set (P := abs_of cwd p) in *.
  unfold normpath.
  assert (Hn : nonempty P = true) by (now destruct P).
  rewrite Hn. cbn [negb].
  rewrite (norm_comps_abs P Ha).
  assert (Hk : exists k, initial_slashes_of P = S k).
  { pose proof (initial_slashes_abs P Ha). destruct (initial_slashes_of P); [congruence|eauto]. }
  destruct Hk as [k ->].
  change (nonempty (slashes (S k) +++ join_sep (abs_norm P))) with true. cbv iota.
  rewrite split_slashes, filter_nonempty_repeat.
  apply split_join_sep, abs_norm_valid.
Qed.

(** ** The walk's paths *)

Lemma abs_norm_join_cwd_empty (cwd : string) :
  nonempty cwd = true -> abs_norm (join cwd "") = abs_norm cwd.
Proof.
  intros Hn. unfold join. cbn [startswith_sep]. rewrite Hn. cbn [negb orb].
  destruct (endswith_sep cwd).
  - now rewrite append_nil_r.
  - apply abs_norm_trailing_sep.
Qed.

Lemma join_assoc_name (cwd root name : string) :
  nonempty cwd = true -> nonempty root = true -> startswith_sep root = false ->
  FS.valid_name name = true ->
  join cwd (join root name) = join (join cwd root) name.
Proof.
  intros Hc Hr Ha Hv.
  pose proof (valid_name_nonempty name Hv) as Hne.
  rewrite !(join_name _ name Hv). rewrite Hr. cbn [negb orb].
  assert (Hj : forall t, startswith_sep t = false ->
                join cwd t = (if endswith_sep cwd then cwd else cwd +++ "/") +++ t).
  { intros t Ht. unfold join. rewrite Ht, Hc. cbn [negb orb].
    destruct (endswith_sep cwd); [reflexivity | now rewrite append_assoc]. }
  rewrite (Hj root Ha).
  set (X := if endswith_sep cwd then cwd else cwd +++ "/").
  assert (HX : nonempty (X +++ root) = true).
  { destruct X; [exact Hr | reflexivity]. }
  rewrite HX. cbn [negb orb].
  rewrite (endswith_sep_append X root Hr).
  destruct (endswith_sep root).
  - rewrite Hj by (now rewrite startswith_sep_append). now rewrite append_assoc.
  - rewrite Hj by (now rewrite startswith_sep_append). now rewrite append_assoc.
Qed.

(** One step down the walk: [join(root, name)] has the components of [root]
    and then [name]. *)
Lemma abs_norm_step (cwd root name : string) :
  startswith_sep cwd = true -> FS.valid_name name = true ->
  abs_norm (abs_of cwd (join root name)) = abs_norm (abs_of cwd root) ++ [name].
Proof.
  intros Hc Hv.
  assert (Hcn : nonempty cwd = true) by (now destruct cwd).
  destruct (nonempty root) eqn:Hr.
  - assert (Hs : startswith_sep (join root name) = startswith_sep root).
    { rewrite (join_name _ name Hv). rewrite Hr. cbn [negb orb].
      destruct (endswith_sep root); now rewrite startswith_sep_append. }
    unfold abs_of, isabs. rewrite Hs.
    destruct (startswith_sep root) eqn:Ha.
    + now apply abs_norm_join_name.
    + rewrite join_assoc_name by assumption.
      apply abs_norm_join_name; [assumption|].
      assert (H := join_abs_cwd cwd root Hc Ha). now destruct (join cwd root).
  - destruct root; [|discriminate].
    assert (Hj : join "" name = name) by (now rewrite (join_name _ name Hv)).
    rewrite Hj. unfold abs_of, isabs.
    rewrite (valid_name_not_abs name Hv). cbn [startswith_sep].
    rewrite abs_norm_join_cwd_empty by assumption.
    now apply abs_norm_join_name.
Qed.

Lemma abs_norm_join_all (cwd top : string) (ds : list string) :
  startswith_sep cwd = true ->
  Forall (fun c => FS.valid_name c = true) ds ->
  abs_norm (abs_of cwd (join_all top ds)) = abs_norm (abs_of cwd top) ++ ds.
Proof.
  intros Hc. unfold join_all.
  revert top; induction ds as [|d ds IH]; intros top Hds; cbn [fold_left].
  - now rewrite app_nil_r.
  - inversion Hds; subst. rewrite IH by assumption.
    rewrite abs_norm_step by assumption. now rewrite <- app_assoc.
Qed.

(** ** [relpath] below the start directory *)

Lemma commonprefix_app (l x : list string) : commonprefix l (l ++ x) = l.
Proof.
  induction l as [|c l IH]; simpl; [now destruct x|].
  now rewrite String.eqb_refl, IH.
Qed.

Lemma join_sep_cons (a : string) (p : list string) :
  join_sep (a :: p) = a +++ tail_str p.
Proof.
  revert a; induction p as [|x p IH]; intros a.
  - simpl. now rewrite append_nil_r.
  - change (join_sep (a :: x :: p)) with (a +++ "/" +++ join_sep (x :: p)).
    rewrite IH. reflexivity.
Qed.

Lemma fold_join_names (a : string) (p : list string) :
  nonempty a = true -> endswith_sep a = false ->
  Forall (fun c => FS.valid_name c = true) p ->
  fold_left join p a = a +++ tail_str p.
Proof.
  revert a; induction p as [|x p IH]; intros a Hn He Hp.
  - simpl. now rewrite append_nil_r.
  - inversion Hp as [|? ? Hx Hrest]; subst. cbn [fold_left].
    rewrite (join_name a x Hx), Hn, He. cbn [negb orb].
    assert (Hn' : nonempty (a +++ "/" +++ x) = true) by (now destruct a).
    assert (He' : endswith_sep (a +++ "/" +++ x) = false).
    { rewrite <- append_assoc.
      rewrite endswith_sep_append by (now apply valid_name_nonempty).
      apply endswith_sep_sep_free. now apply valid_name_sep_free. }
    rewrite (IH _ Hn' He' Hrest).
    simpl. now rewrite !append_assoc.
Qed.

(** Joining names one by one gives the names separated by ["/"]. *)
Lemma join_all_names (a : string) (p : list string) :
  Forall (fun c => FS.valid_name c = true) (a :: p) ->
  join_all a p = join_sep (a :: p).
Proof.
  intros H. inversion H as [|? ? Ha Hp]; subst.
  unfold join_all. rewrite join_sep_cons.
  apply fold_join_names; [now apply valid_name_nonempty | | exact Hp].
  apply endswith_sep_sep_free. now apply valid_name_sep_free.
Qed.

(** Joining names onto a directory one by one, or joining their relative
    path onto it at once, is the same path. *)
Lemma join_all_rel (a : string) (names : list string) :
  Forall (fun c => FS.valid_name c = true) names -> names <> [] ->
  join_all a names = join a (join_sep names).
Proof.
  intros H Hne. destruct names as [|x p]; [congruence|].
  inversion H as [|? ? Hx Hp]; subst.
  pose proof (valid_name_nonempty x Hx) as Hxn.
  pose proof (valid_name_sep_free x Hx) as Hxs.
  unfold join_all. cbn [fold_left]. rewrite join_sep_cons.
  set (y := if negb (nonempty a) || endswith_sep a then a else a +++ "/").
  assert (Hy : join a x = y +++ x).
  { unfold join, y. rewrite (valid_name_not_abs x Hx).
    destruct (negb (nonempty a) || endswith_sep a); [reflexivity|].
    now rewrite append_assoc. }
  assert (Hyt : join a (x +++ tail_str p) = y +++ x +++ tail_str p).
  { unfold join, y. rewrite (startswith_sep_append x _ Hxn).
    rewrite (valid_name_not_abs x Hx).
    destruct (negb (nonempty a) || endswith_sep a); [reflexivity|].
    now rewrite append_assoc. }
  rewrite Hyt, Hy.
  rewrite fold_join_names; [now rewrite append_assoc | | | exact Hp].
  - destruct y; [exact Hxn | reflexivity].
  - rewrite endswith_sep_append by exact Hxn. now apply endswith_sep_sep_free.
Qed.

Lemma relpath_below (cwd path start : string) (names : list string) :
  startswith_sep cwd = true ->
  nonempty path = true ->
  Forall (fun c => FS.valid_name c = true) names -> names <> [] ->
  abs_norm (abs_of cwd path) = abs_norm (abs_of cwd start) ++ names ->
  relpath cwd path start = Some (join_sep names).
Proof.
  intros Hc Hp Hn Hne Hnorm. unfold relpath. rewrite Hp. cbn [negb].
  rewrite !abs_list_norm by exact Hc. rewrite Hnorm.
  rewrite commonprefix_app, Nat.sub_diag. cbn [repeat app].
  rewrite skipn_app, Nat.sub_diag, skipn_all. cbn [skipn app].
  destruct names as [|a p]; [congruence|].
  now rewrite join_all_names.
Qed.

Lemma join_name_nonempty (a name : string) :
  FS.valid_name name = true -> nonempty (join a name) = true.
Proof.
  intros H. rewrite (join_name a name H).
  pose proof (valid_name_nonempty name H) as Hn.
  destruct (negb (nonempty a) || endswith_sep a); destruct a; simpl; auto.
Qed.

End WalkPaths.

(* ================================================================== *)
(** * What a run leaves of the input tree *)
(* ================================================================== *)

Module FrameFacts.
Import FS FSFacts.

Lemma mkdir_exist_ok_keeps_dirs : keeps_dirs mkdir_exist_ok.
Proof. intros es x H. simpl in H. congruence. Qed.

Lemma write_file_keeps_dirs (data : string) : keeps_dirs (write_file data).
Proof. intros es x H. discriminate. Qed.

Lemma unlink_keeps_dirs : keeps_dirs unlink.
Proof. intros es x H. discriminate. Qed.

Lemma is_prefix_cons (c : string) (p q : list string) :
  is_prefix (c :: p) (c :: q) = is_prefix p q.
Proof. simpl. now rewrite String.eqb_refl. Qed.

(** A change at [q] leaves the node at [p] as it is, unless [q] is [p] or
    lies below it. *)
Lemma alter_lookup_frame (mk : bool) (f : option node -> exn + option node)
    (q p : list string) (o o' : option node) (t : node) :
  keeps_dirs f ->
  alter mk f q o = inr o' ->
  is_prefix p q = false ->
  lookup p o = Some t ->
  lookup p o' = Some t.
Proof.
  intros Hf. revert p o o' t.
  induction q as [|c q IH]; intros p o o' t Ha Hp Hl.
  - destruct p as [|c' p]; [discriminate|].
    simpl in Ha, Hl. destruct o as [[d|es]|]; try discriminate.
    now rewrite (Hf es o' Ha).
  - destruct p as [|c' p]; [discriminate|].
    simpl in Ha. cbn [lookup] in Hl.
    destruct o as [[d|es]|]; try discriminate.
    destruct (alter mk f q (get_entry c es)) as [e|o''] eqn:E; [discriminate|].
    injection Ha as <-. cbn [lookup].
    destruct (String.eqb_spec c' c) as [->|Hne].
    + rewrite get_put_same. rewrite is_prefix_cons in Hp.
      now apply (IH p (get_entry c es)).
    + rewrite get_put_other by congruence. exact Hl.
Qed.

End FrameFacts.

Section Stable.

Variable lib : Collaborators.

Local Abbreviation W := (world lib).

Variable I : list string.
Variable t : FS.node.
Variable c : string.

Lemma triple_ret {A} (a : A) (Q : A -> Prop) : Q a -> triple lib I t c (ret a) Q.
Proof. intros HQ w r w' Hs H. injection H as <- <-. now split. Qed.

Lemma triple_raise {A} (e : exn) (Q : A -> Prop) : triple lib I t c (raise e) Q.
Proof. intros w r w' Hs H. injection H as <- <-. now split. Qed.

Lemma triple_bind {A B} (m : M lib A) (k : A -> M lib B)
    (Q : A -> Prop) (R : B -> Prop) :
  triple lib I t c m Q -> (forall a, Q a -> triple lib I t c (k a) R) -> triple lib I t c (bind m k) R.
Proof.
  intros Hm Hk w r w' Hs. unfold bind.
  destruct (m w) as [r1 w1] eqn:E1. destruct (Hm w r1 w1 Hs E1) as [Hs1 Hr1].
  destruct r1 as [a|e|x|]; try contradiction.
  - intros H. exact (Hk a Hr1 w1 r w' Hs1 H).
  - intros H. injection H as <- <-. now split.
Qed.

Lemma triple_weaken {A} (m : M lib A) (Q R : A -> Prop) :
  triple lib I t c m Q -> (forall a, Q a -> R a) -> triple lib I t c m R.
Proof.
  intros Hm HQR w r w' Hs H. destruct (Hm w r w' Hs H) as [Hs' Hr].
  split; [exact Hs'|]. destruct r; auto.
Qed.

Lemma keeps_bind {A B} (m : M lib A) (k : A -> M lib B) :
  keeps lib I t c m -> (forall a, keeps lib I t c (k a)) -> keeps lib I t c (bind m k).
Proof.
  intros Hm Hk. apply (triple_bind m k (fun _ => True)); [exact Hm|].
  intros a _. exact (Hk a).
Qed.

Lemma keeps_try {A} (cls : exn -> bool) (m : M lib A) (h : exn -> M lib A) :
  keeps lib I t c m -> (forall e, keeps lib I t c (h e)) -> keeps lib I t c (try_except_cls cls m h).
Proof.
  intros Hm Hh w r w' Hs. unfold try_except_cls.
  destruct (m w) as [r1 w1] eqn:E1. destruct (Hm w r1 w1 Hs E1) as [Hs1 Hr1].
  destruct r1 as [a|e|x|]; try contradiction.
  - intros H. injection H as <- <-. now split.
  - destruct (cls e).
    + intros H. exact (Hh e w1 r w' Hs1 H).
    + intros H. injection H as <- <-. now split.
Qed.

(** An action that leaves the file system and the current directory alone. *)
Lemma keeps_same_fs {A} (m : M lib A) :
  (forall w r w', m w = (r, w') ->
     fs w' = fs w /\ cwd w' = cwd w
     /\ match r with Ok _ | Raise _ => True | _ => False end) ->
  keeps lib I t c m.
Proof.
  intros Hm w r w' [Hl Hc] H. destruct (Hm w r w' H) as (Hfs & Hcwd & Hr).
  split; [|destruct r; auto].
  unfold stable, root. now rewrite Hfs, Hcwd.
Qed.

Lemma keeps_print (line : string) : keeps lib I t c (print line).
Proof. apply keeps_same_fs. intros w r w' H. injection H as <- <-. now repeat split. Qed.

Lemma triple_getsize (path : string) : keeps lib I t c (getsize path).
Proof.
  apply keeps_same_fs. intros w r w'. rewrite getsize_run.
  destruct (fs_lookup w path); intros H; injection H as <- <-; now repeat split.
Qed.

Lemma keeps_exists (path : string) : keeps lib I t c (exists_ path).
Proof. apply keeps_same_fs. intros w r w' H. injection H as <- <-. now repeat split. Qed.

Lemma keeps_load (path : string) : keeps lib I t c (SVG_load_svg path).
Proof.
  apply keeps_same_fs. intros w r w' H.
  destruct (SVG_load_svg_frame lib _ _ _ _ H) as (Hfs & Hcwd & _ & [[e ->]|[-> _]]);
    now repeat split.
Qed.

Lemma keeps_process_svg (svg : nat) (scale : float) (width height : Z)
    (simplify : bool) (max_dist : Z) :
  keeps lib I t c (process_svg svg scale width height simplify max_dist).
Proof.
  apply keeps_same_fs. intros w r w' H.
  destruct (process_svg_frame lib _ _ _ _ _ _ _ _ _ H) as (Hfs & Hcwd & [->|[e ->]]);
    now repeat split.
Qed.

(** A system call away from [I] keeps the world stable. *)
Lemma keeps_fs_alter (mk : bool) (f : option FS.node -> exn + option FS.node)
    (path : string) :
  FS.keeps_dirs f ->
  FS.is_prefix I (posixpath.abs_list c path) = false ->
  keeps lib I t c (fs_alter mk f path).
Proof.
  intros Hf Hp w r w' [Hl Hc] H.
  destruct (fs_alter_cases lib mk f path w) as [[e He]|(p & es & Hr & Ha & He)];
    rewrite He in H; injection H as <- <-; (split; [|exact Logic.I]).
  - now split.
  - split; [|exact Hc].
    unfold FS.resolve in Hr. destruct (PyStr.nonempty path); [|discriminate].
    injection Hr as <-. rewrite Hc in Ha.
    exact (FrameFacts.alter_lookup_frame mk f _ I _ _ t Hf Ha Hp Hl).
Qed.

End Stable.

Section StableSingleFile.

Variable lib : Collaborators.
Variable I : list string.
Variable t : FS.node.
Variable c : string.

Local Abbreviation W := (world lib).

Lemma stable_same_fs (w w' : W) :
  fs w' = fs w -> cwd w' = cwd w -> stable lib I t c w -> stable lib I t c w'.
Proof. unfold stable, root. now intros -> ->. Qed.

Section OneOutput.

Variables input_path output_path : string.

Hypothesis away : FS.is_prefix I (posixpath.abs_list c output_path) = false.
Hypothesis parent_away :
  FS.is_prefix I (posixpath.abs_list c (output_parent output_path)) = false.

Lemma keeps_write (data : string) : keeps lib I t c (write output_path data).
Proof.
  apply keeps_fs_alter; [apply FrameFacts.write_file_keeps_dirs | exact away].
Qed.

Lemma keeps_open_w : keeps lib I t c (open_w output_path).
Proof.
  apply keeps_fs_alter; [apply FrameFacts.write_file_keeps_dirs | exact away].
Qed.

Lemma keeps_remove : keeps lib I t c (remove output_path).
Proof.
  apply keeps_fs_alter; [apply FrameFacts.unlink_keeps_dirs | exact away].
Qed.

Lemma keeps_makedirs_parent : keeps lib I t c (makedirs (output_parent output_path)).
Proof.
  apply keeps_fs_alter; [apply FrameFacts.mkdir_exist_ok_keeps_dirs | exact parent_away].
Qed.

Lemma keeps_subprocess_run_picosvg :
  keeps lib I t c (subprocess_run_picosvg input_path output_path).
Proof.
  intros w r w' Hs. rewrite subprocess_run_picosvg_run.
  assert (Hs1 : stable lib I t c (logged w (CallPicosvg input_path)))
    by (apply (stable_same_fs w); auto).
  destruct (picosvg lib (cwd w) (root w) input_path) as [out rc|e].
  - destruct (write output_path out (logged w (CallPicosvg input_path)))
      as [r2 w2] eqn:E2.
    destruct (keeps_write out _ _ _ Hs1 E2) as [Hs2 Hr2].
    destruct r2 as [[]|e|x|]; try contradiction.
    + destruct (rc =? 0)%Z; intros H; injection H as <- <-; now split.
    + intros H; injection H as <- <-; now split.
  - intros H; injection H as <- <-; now split.
Qed.

Lemma keeps_preprocess_svg : keeps lib I t c (preprocess_svg input_path output_path).
Proof.
  unfold preprocess_svg. apply keeps_try.
  - apply keeps_bind; [apply keeps_open_w|]. intros _.
    apply keeps_bind; [apply keeps_subprocess_run_picosvg|]. intros _.
    apply keeps_bind; [apply keeps_print|]. intros _. now apply triple_ret.
  - intros e. apply keeps_bind; [apply keeps_print|]. intros _. now apply triple_ret.
Qed.

Lemma keeps_save_svg (svg : nat) : keeps lib I t c (SVG_save_svg svg output_path).
Proof.
  intros w r w' Hs. unfold SVG_save_svg. rewrite bind_run, log_call_run. cbn [fst snd].
  assert (Hs1 : stable lib I t c (logged w (CallSave svg output_path)))
    by (apply (stable_same_fs w); auto).
  change (heap (logged w (CallSave svg output_path))) with (heap w).
  destruct (nth_error (heap w) svg) as [d|].
  - revert Hs1. generalize (logged w (CallSave svg output_path)). intros w1 Hs1 H.
    refine (_ w1 r w' Hs1 H).
    apply keeps_bind; [apply keeps_open_w|]. intros _.
    apply keeps_bind; [apply keeps_write|]. intros _.
    destruct (snd (to_file lib d)); [apply triple_raise | now apply triple_ret].
  - intros H; injection H as <- <-; now split.
Qed.

Lemma keeps_load_process_save (scale : float) (width height : Z) (simplify : bool)
    (max_dist : Z) :
  keeps lib I t c (load_process_save output_path scale width height simplify max_dist).
Proof.
  unfold load_process_save.
  apply keeps_bind; [apply keeps_load|]. intros svg.
  apply keeps_bind; [apply keeps_process_svg|]. intros svg'.
  apply keeps_bind; [apply keeps_save_svg|]. intros _.
  apply keeps_bind; [apply keeps_print|]. intros _. now apply triple_ret.
Qed.

(** [process_single_file] with an output path away from [I] leaves the node
    at [I] as it is, and returns or raises. *)
Lemma keeps_process_single_file (scale : float) (width height : Z) (simplify : bool)
    (max_dist : Z) :
  keeps lib I t c (process_single_file input_path output_path scale width height
              simplify max_dist).
Proof.
  unfold process_single_file, try_except. apply keeps_try.
  - unfold process_single_file_body.
    apply keeps_bind; [apply keeps_makedirs_parent|]. intros _.
    apply keeps_bind; [apply keeps_preprocess_svg|]. intros ok.
    destruct ok; cbn [negb].
    + apply keeps_bind; [apply triple_getsize|]. intros size.
      destruct (size =? 0)%Z.
      * apply keeps_bind; [apply keeps_print|]. intros _.
        apply keeps_bind; [apply keeps_remove|]. intros _. now apply triple_ret.
      * apply keeps_load_process_save.
    + apply keeps_bind; [apply keeps_print|]. intros _. now apply triple_ret.
  - intros e. unfold process_single_file_handler.
    apply keeps_bind; [apply keeps_print|]. intros _.
    apply keeps_bind; [apply keeps_exists|]. intros ex.
    apply keeps_bind; [|intros _; now apply triple_ret].
    destruct ex; [apply keeps_remove | now apply triple_ret].
Qed.

End OneOutput.

End StableSingleFile.

(* ================================================================== *)
(** * The directory of an output path *)
(* ================================================================== *)

Module ParentFacts.
Import PyStr PyStrFacts posixpath WalkPaths.

Lemma rfind_trailing_sep (y : string) :
  rfind slash (y +++ "/") = Z.of_nat (String.length y).
Proof.
  induction y as [|a y IH]; [reflexivity|].
  cbn [String.append rfind String.length]. rewrite IH.
  destruct (Z.leb_spec 0 (Z.of_nat (String.length y))); lia.
Qed.

Lemma take_all (s : string) : take (String.length s) s = s.
Proof. induction s as [|a s IH]; simpl; [reflexivity | now rewrite IH]. Qed.

(** [dirname] of a path that ends with ["/"]. *)
Lemma dirname_trailing_sep (y : string) :
  dirname (y +++ "/") =
  if all_sep (y +++ "/") then y +++ "/" else rstrip_sep (y +++ "/").
Proof.
  unfold dirname. rewrite rfind_trailing_sep.
  replace (Z.to_nat (Z.of_nat (String.length y) + 1)) with (String.length (y +++ "/"))
    by (rewrite length_append; simpl; lia).
  rewrite take_all.
  assert (Hn : nonempty (y +++ "/") = true) by (now destruct y).
  rewrite Hn. cbn [andb]. now destruct (all_sep (y +++ "/")).
Qed.

Lemma rstrip_trailing_sep (s : string) : rstrip_sep (s +++ "/") = rstrip_sep s.
Proof.
  induction s as [|a s IH]; [reflexivity|].
  cbn [String.append rstrip_sep]. now rewrite IH.
Qed.

Lemma rstrip_no_trailing_sep (s : string) :
  endswith_sep s = false -> rstrip_sep s = s.
Proof.
  induction s as [|a s IH]; [reflexivity|]. intros H.
  cbn [rstrip_sep]. destruct s as [|b s'].
  - simpl in *. now rewrite H.
  - rewrite IH by exact H. reflexivity.
Qed.

(** A string is what [rstrip] leaves of it and then slashes. *)
Lemma rstrip_slashes (s : string) :
  exists k, s = rstrip_sep s +++ slashes k.
Proof.
  induction s as [|a s [k IH]]; [now exists 0%nat|].
  cbn [rstrip_sep]. destruct (rstrip_sep s) as [|b r] eqn:E.
  - unfold is_slash. destruct (Ascii.eqb_spec a slash) as [->|Hne].
    + exists (S k). simpl in *. now rewrite <- IH.
    + exists k. simpl in *. now rewrite <- IH.
  - exists k. cbn [String.append]. f_equal. exact IH.
Qed.

Lemma rstrip_nonempty (s : string) :
  all_sep s = false -> nonempty (rstrip_sep s) = true.
Proof.
  induction s as [|a s IH]; [discriminate|]. cbn [all_sep rstrip_sep].
  destruct (rstrip_sep s) as [|b r] eqn:E; [|reflexivity].
  destruct (is_slash a); [|reflexivity]. simpl. intros H. now apply IH in H.
Qed.

Lemma all_sep_append (a b : string) : all_sep (a +++ b) = all_sep a && all_sep b.
Proof.
  induction a as [|x a IH]; simpl; [reflexivity|].
  now rewrite IH, andb_assoc.
Qed.

Lemma all_sep_endswith (s : string) :
  nonempty s = true -> all_sep s = true -> endswith_sep s = true.
Proof.
  induction s as [|a s IH]; [discriminate|]. intros _ H. simpl in H.
  apply andb_prop in H as [Ha Hs]. cbn [endswith_sep].
  destruct s as [|b s']; [exact Ha|]. now apply IH.
Qed.

Lemma abs_norm_trailing_slashes (s : string) (k : nat) :
  abs_norm (s +++ slashes k) = abs_norm s.
Proof.
  revert s; induction k as [|k IH]; intros s; simpl.
  - now rewrite append_nil_r.
  - change (String slash (slashes k)) with ("/" +++ slashes k).
    rewrite <- append_assoc, IH. apply abs_norm_trailing_sep.
Qed.

Lemma join_cwd (cwd p : string) :
  startswith_sep p = false -> join cwd p = cwd_prefix cwd +++ p.
Proof.
  intros H. unfold join, cwd_prefix. rewrite H.
  destruct (negb (nonempty cwd) || endswith_sep cwd); [reflexivity|].
  now rewrite append_assoc.
Qed.

(** Trailing slashes do not change the components of a path. *)
Lemma abs_norm_rstrip (cwd s : string) :
  all_sep s = false ->
  abs_norm (abs_of cwd (rstrip_sep s)) = abs_norm (abs_of cwd s).
Proof.
  intros Hs. destruct (rstrip_slashes s) as [k Hk].
  pose proof (rstrip_nonempty s Hs) as Hn.
  assert (Ha : startswith_sep s = startswith_sep (rstrip_sep s)).
  { rewrite Hk at 1. now apply startswith_sep_append. }
  unfold abs_of, isabs. rewrite Ha.
  destruct (startswith_sep (rstrip_sep s)) eqn:E.
  - rewrite Hk at 2. now rewrite abs_norm_trailing_slashes.
  - rewrite !join_cwd by congruence.
    rewrite Hk at 2. rewrite <- append_assoc. now rewrite abs_norm_trailing_slashes.
Qed.

Lemma abs_norm_dot (cwd : string) :
  nonempty cwd = true -> abs_norm (abs_of cwd ".") = abs_norm (abs_of cwd "").
Proof.
  intros Hn.
  change (abs_of cwd ".") with (join cwd ".").
  change (abs_of cwd "") with (join cwd "").
  rewrite abs_norm_join_cwd_empty by exact Hn.
  rewrite join_cwd by reflexivity. unfold cwd_prefix. rewrite Hn. cbn [negb orb].
  destruct (endswith_sep cwd) eqn:E.
  - destruct (endswith_sep_inv cwd E) as [y ->].
    rewrite append_assoc. unfold abs_norm.
    rewrite split_append_sep. rewrite fold_left_app. cbn [split fold_left].
    change (y +++ "/") with (y +++ "/" +++ "").
    rewrite split_append_sep, fold_left_app. reflexivity.
  - rewrite append_assoc. unfold abs_norm.
    rewrite split_append_sep, fold_left_app. reflexivity.
Qed.

(** The directory [process_single_file] creates for the output
    [join(r, name)] is [r]. *)
Lemma output_parent_join_name (cwd r name : string) :
  startswith_sep cwd = true -> FS.valid_name name = true ->
  abs_norm (abs_of cwd (output_parent (join r name))) = abs_norm (abs_of cwd r).
Proof.
  intros Hc Hv.
  assert (Hcn : nonempty cwd = true) by (now destruct cwd).
  pose proof (valid_name_sep_free name Hv) as Hsf.
  unfold output_parent. rewrite (join_name r name Hv).
  destruct (nonempty r) eqn:Hr; cbn [negb orb].
  - destruct (endswith_sep r) eqn:He.
    + rewrite posixpathFacts.dirname_append by exact Hsf.
      destruct (endswith_sep_inv r He) as [y ->].
      rewrite dirname_trailing_sep.
      destruct (all_sep (y +++ "/")) eqn:Ea.
      * assert (Hn : nonempty (y +++ "/") = true) by (now destruct y).
        now rewrite Hn.
      * rewrite (rstrip_nonempty _ Ea). now apply abs_norm_rstrip.
    + rewrite <- append_assoc. rewrite posixpathFacts.dirname_append by exact Hsf.
      rewrite dirname_trailing_sep.
      assert (Ea : all_sep (r +++ "/") = false).
      { rewrite all_sep_append. destruct (all_sep r) eqn:Er; [|reflexivity].
        rewrite (all_sep_endswith r Hr Er) in He. discriminate. }
      rewrite Ea, rstrip_trailing_sep, (rstrip_no_trailing_sep r He), Hr.
      reflexivity.
  - destruct r; [|discriminate]. cbn [String.append].
    assert (Hd : dirname name = "").
    { unfold dirname. rewrite (rfind_sep_free name Hsf). reflexivity. }
    rewrite Hd. cbn [nonempty]. now apply abs_norm_dot.
Qed.

End ParentFacts.

(* ================================================================== *)
(** * Trees: counting and well-formedness *)
(* ================================================================== *)

Module TreeFacts.
Import FS FSFacts.

Lemma count_svg_file (name data : string) (l : entries) :
  count_svg (Dir ((name, File data) :: l))
  = ((if PyStr.endswith name ".svg" then 1 else 0) + count_svg (Dir l))%nat.
Proof. reflexivity. Qed.

Lemma count_svg_dir (name : string) (es l : entries) :
  count_svg (Dir ((name, Dir es) :: l)) = (count_svg (Dir es) + count_svg (Dir l))%nat.
Proof. reflexivity. Qed.

Lemma depth_cons (name : string) (ch : node) (l : entries) :
  depth (Dir ((name, ch) :: l)) = S (Nat.max (depth ch) (Nat.pred (depth (Dir l)))).
Proof. reflexivity. Qed.

Lemma depth_child (name : string) (ch : node) (es : entries) :
  In (name, ch) es -> (depth ch < depth (Dir es))%nat.
Proof.
  induction es as [|[k n] es IH]; [contradiction|].
  intros [H|H]; rewrite depth_cons.
  - injection H as -> ->. lia.
  - specialize (IH H). lia.
Qed.

Lemma wf_node_cons (name : string) (ch : node) (l : entries) :
  wf_node (Dir ((name, ch) :: l)) = true ->
  existsb (String.eqb name) (map fst l) = false
  /\ valid_name name = true /\ wf_node ch = true /\ wf_node (Dir l) = true.
Proof.
  cbn [wf_node map fst distinct]. intros H.
  apply andb_prop in H as [H1 H2]. apply andb_prop in H1 as [H1 H3].
  apply andb_prop in H2 as [H2 H4]. apply andb_prop in H2 as [H2 H5].
  repeat split; auto.
  - now destruct (existsb (String.eqb name) (map fst l)).
  - cbn [wf_node]. now rewrite H3, H4.
Qed.

Lemma wf_node_child (name : string) (ch : node) (es : entries) :
  wf_node (Dir es) = true -> In (name, ch) es ->
  valid_name name = true /\ wf_node ch = true /\ get_entry name es = Some ch.
Proof.
  induction es as [|[k n] es IH]; [contradiction|].
  intros Hwf Hin. apply wf_node_cons in Hwf as (Hfresh & Hv & Hn & Hl).
  destruct Hin as [H|H].
  - injection H as -> ->. simpl. now rewrite String.eqb_refl.
  - destruct (IH Hl H) as (Hv' & Hw' & Hg). repeat split; auto.
    simpl. destruct (String.eqb_spec k name) as [->|Hne]; [|exact Hg].
    exfalso. assert (Hex : existsb (String.eqb name) (map fst es) = true).
    { apply existsb_exists. exists name. split; [|apply String.eqb_refl].
      apply in_map_iff. now exists (name, ch). }
    congruence.
Qed.

Lemma dir_names_In (name : string) (es : entries) :
  In name (dir_names es) -> exists l, In (name, Dir l) es.
Proof.
  unfold dir_names. rewrite in_map_iff. intros [[k n] [Hk Hin]].
  apply filter_In in Hin as [Hin Hd]. simpl in *. subst k.
  destruct n as [d|l]; [discriminate|]. now exists l.
Qed.

Lemma nondir_names_In (name : string) (es : entries) :
  In name (nondir_names es) -> exists n, In (name, n) es.
Proof.
  unfold nondir_names. rewrite in_map_iff. intros [[k n] [Hk Hin]].
  apply filter_In in Hin as [Hin _]. simpl in *. subst k. now exists n.
Qed.

(** The files of a directory tree: those of the directory, and those below
    its sub-directories. *)
Lemma count_svg_split_gen (es all : entries) :
  (forall k n, In (k, n) es -> get_entry k all = Some n) ->
  count_svg (Dir es)
  = (count_svg_names (nondir_names es) + count_children all (dir_names es))%nat.
Proof.
  induction es as [|[k n] es IH]; intros Hall; [reflexivity|].
  assert (IH' := IH (fun k' n' H => Hall k' n' (or_intror H))).
  destruct n as [d|l].
  - rewrite count_svg_file, IH'.
    unfold nondir_names, dir_names, count_svg_names. cbn [filter is_dir snd negb map fst].
    destruct (PyStr.endswith k ".svg"); cbn [List.length]; lia.
  - rewrite count_svg_dir, IH'.
    unfold nondir_names, dir_names, count_children.
    cbn [filter is_dir snd negb map fst].
    rewrite (Hall k (Dir l) (or_introl eq_refl)).
    set (rest := map _ (map fst (filter (fun kn => is_dir (snd kn)) es))).
    change (list_sum (count_svg (Dir l) :: rest))
      with (count_svg (Dir l) + list_sum rest)%nat.
    lia.
Qed.

Lemma count_svg_split (es : entries) :
  wf_node (Dir es) = true ->
  count_svg (Dir es)
  = (count_svg_names (nondir_names es) + count_children es (dir_names es))%nat.
Proof.
  intros Hwf. apply count_svg_split_gen. intros k n Hin.
  now destruct (wf_node_child k n es Hwf Hin) as (_ & _ & H).
Qed.

Lemma is_prefix_apart (p q x : list string) :
  is_prefix p q = false -> is_prefix q p = false -> is_prefix p (q ++ x) = false.
Proof.
  revert q; induction p as [|a p IH]; intros [|b q] H1 H2; try discriminate.
  simpl in *. destruct (String.eqb_spec a b) as [->|Hne]; [|reflexivity].
  rewrite String.eqb_refl in H2. simpl in *. now apply IH.
Qed.

End TreeFacts.

(* ================================================================== *)
(** * The walk of [process_directory] *)
(* ================================================================== *)

Section WalkCount.

Import PyStr posixpath WalkPaths.

Variable lib : Collaborators.
Variables input_dir output_dir : string.
Variable scale : float.
Variables width height : Z.
Variable simplify : bool.
Variable max_dist : Z.

(** The current directory, and the tree at the input directory. *)
Variable c : string.
Variable T : FS.node.

Hypothesis cwd_abs : startswith_sep c = true.
Hypothesis input_nonempty : nonempty input_dir = true.

Let I : list string := abs_norm (abs_of c input_dir).
Let O : list string := abs_norm (abs_of c output_dir).

Hypothesis apart : FS.is_prefix I O = false /\ FS.is_prefix O I = false.

Local Abbreviation valid_names := (Forall (fun name => FS.valid_name name = true)).

Lemma join_all_snoc (a : string) (ds : list string) (name : string) :
  join_all a (ds ++ [name]) = join (join_all a ds) name.
Proof. unfold join_all. now rewrite fold_left_app. Qed.

Lemma valid_names_snoc (ds : list string) (name : string) :
  valid_names ds -> FS.valid_name name = true -> valid_names (ds ++ [name]).
Proof. intros Hd Hn. apply Forall_app. split; [exact Hd | now repeat constructor]. Qed.

Lemma output_away (names : list string) :
  valid_names names ->
  FS.is_prefix I (abs_list c (join_all output_dir names)) = false.
Proof.
  intros Hn. rewrite abs_list_norm by exact cwd_abs.
  rewrite abs_norm_join_all by assumption.
  apply TreeFacts.is_prefix_apart; apply apart.
Qed.

Lemma output_parent_away (ds : list string) (name : string) :
  valid_names ds -> FS.valid_name name = true ->
  FS.is_prefix I (abs_list c (output_parent (join_all output_dir (ds ++ [name])))) = false.
Proof.
  intros Hd Hn. rewrite abs_list_norm by exact cwd_abs.
  rewrite join_all_snoc, ParentFacts.output_parent_join_name by assumption.
  rewrite abs_norm_join_all by assumption.
  apply TreeFacts.is_prefix_apart; apply apart.
Qed.

(** Lines 157-159 for a file of the walk: the output path is the output
    directory and then the names that lead from the input directory to the
    file. *)
Lemma batch_output_path_run (ds : list string) (filename : string) (w : world lib) :
  cwd w = c -> valid_names ds -> FS.valid_name filename = true ->
  batch_output_path input_dir output_dir (join_all input_dir ds) filename w
  = (Ok (join output_dir (join_sep (ds ++ [filename]))), w).
Proof.
  intros Hcwd Hd Hn. unfold batch_output_path. rewrite Hcwd.
  rewrite (relpath_below c _ input_dir (ds ++ [filename])); auto.
  - now apply join_name_nonempty.
  - now apply valid_names_snoc.
  - now destruct ds.
  - rewrite abs_norm_step, abs_norm_join_all by assumption.
    now rewrite <- app_assoc.
Qed.

(** One file of the walk goes to exactly one counter, when its name ends in
    [.svg], and to none otherwise. *)
Lemma triple_process_directory_file (ds : list string) (filename : string)
    (success_count failure_count : Z) :
  valid_names ds -> FS.valid_name filename = true ->
  triple lib I T c
    (process_directory_file input_dir output_dir scale width height simplify max_dist
       (join_all input_dir ds) filename (success_count, failure_count))
    (fun counts =>
       (counts = ((success_count + 1)%Z, failure_count)
        \/ counts = (success_count, (failure_count + 1)%Z))
       /\ endswith filename ".svg" = true
       \/ counts = (success_count, failure_count) /\ endswith filename ".svg" = false).
Proof.
  intros Hd Hn. unfold process_directory_file.
  destruct (endswith filename ".svg") eqn:Hsvg; cbn [negb].
  2:{ apply triple_ret. now right. }
  apply (triple_bind lib I T c _ _
           (fun out => out = join_all output_dir (ds ++ [filename]))).
  - intros w r w' Hs H. rewrite batch_output_path_run in H by (auto; apply Hs).
    injection H as <- <-. split; [exact Hs|].
    symmetry. apply join_all_rel; [now apply valid_names_snoc | now destruct ds].
  - intros out ->.
    apply (triple_bind lib I T c _ _ (fun _ => True)).
    + apply keeps_process_single_file.
      * apply output_away. now apply valid_names_snoc.
      * now apply output_parent_away.
    + intros ok _. destruct ok; apply triple_ret; left; split; auto.
Qed.

(** The inner loop over the files of one directory of the walk. *)
Lemma triple_files (ds names : list string) (counts : Z * Z) :
  valid_names ds -> valid_names names ->
  triple lib I T c
    (for_each names
       (process_directory_file input_dir output_dir scale width height simplify max_dist
          (join_all input_dir ds))
       counts)
    (fun counts' =>
       (fst counts' + snd counts'
        = fst counts + snd counts + Z.of_nat (FS.count_svg_names names))%Z
       /\ (fst counts <= fst counts')%Z /\ (snd counts <= snd counts')%Z).
Proof.
  intros Hd. revert counts. induction names as [|name names IH]; intros [s f] Hn.
  - apply triple_ret. simpl. lia.
  - inversion Hn as [|? ? Hname Hrest]; subst. cbn [for_each].
    eapply triple_bind; [apply (triple_process_directory_file ds name s f Hd Hname)|].
    intros counts1 H1.
    eapply triple_weaken; [apply (IH counts1 Hrest)|].
    intros [s' f']. unfold FS.count_svg_names. cbn [filter fst snd].
    destruct H1 as [[[->| ->] ->]|[-> ->]]; cbn [fst snd List.length]; lia.
Qed.

Lemma join_all_nonempty (ds : list string) :
  valid_names ds -> nonempty (join_all input_dir ds) = true.
Proof.
  intros Hd. destruct ds as [|d ds] using rev_ind; [exact input_nonempty|].
  apply Forall_app in Hd as [_ Hd]. inversion Hd; subst.
  rewrite join_all_snoc. now apply join_name_nonempty.
Qed.

(** The listing [os.walk] takes of a directory of the input tree is the
    listing of the tree as it was. *)
Lemma triple_scandir (ds : list string) (sub : FS.node) :
  valid_names ds -> FS.lookup ds (Some T) = Some sub ->
  triple lib I T c (scandir (join_all input_dir ds))
    (fun listing =>
       listing = match sub with
                 | FS.Dir es => Some (FS.dir_names es, FS.nondir_names es)
                 | FS.File _ => None
                 end).
Proof.
  intros Hd Hsub w r w' Hs H. pose proof Hs as [Hl Hcwd].
  unfold scandir, fs_lookup, FS.resolve in H.
  rewrite (join_all_nonempty ds Hd), Hcwd in H.
  rewrite abs_list_norm, abs_norm_join_all in H by assumption.
  fold I in H. rewrite FSFacts.lookup_app, Hl, Hsub in H.
  destruct sub as [d|es]; injection H as <- <-; now split.
Qed.

(** The walk below one directory of the input tree counts the [.svg] files
    of that directory's tree, each once. *)
Lemma triple_os_walk (fuel : nat) :
  forall (ds : list string) (sub : FS.node) (counts : Z * Z),
    valid_names ds -> FS.lookup ds (Some T) = Some sub ->
    FS.wf_node sub = true -> (FS.depth sub < fuel)%nat ->
    triple lib I T c
      (os_walk fuel (join_all input_dir ds)
         (fun root _ files counts' =>
            for_each files
              (process_directory_file input_dir output_dir scale width height
                 simplify max_dist root)
              counts')
         counts)
      (fun counts' =>
         (fst counts' + snd counts'
          = fst counts + snd counts + Z.of_nat (FS.count_svg sub))%Z
         /\ (fst counts <= fst counts')%Z /\ (snd counts <= snd counts')%Z).
Proof.
  induction fuel as [|fuel IH]; intros ds sub counts Hd Hsub Hwf Hdepth; [lia|].
  cbn [os_walk].
  eapply triple_bind; [apply (triple_scandir ds sub Hd Hsub)|].
  intros listing ->. destruct sub as [data|es].
  { apply triple_ret. simpl. lia. }
  eapply triple_bind.
  { apply (triple_files ds (FS.nondir_names es) counts Hd).
    apply Forall_forall. intros name Hin.
    destruct (TreeFacts.nondir_names_In name es Hin) as [n Hn].
    now destruct (TreeFacts.wf_node_child name n es Hwf Hn). }
  intros counts1 (Hsum1 & Hs1 & Hf1).
  rewrite (TreeFacts.count_svg_split es Hwf).
  assert (Hdirs : forall name, In name (FS.dir_names es) ->
            exists l, FS.get_entry name es = Some (FS.Dir l)
                      /\ FS.valid_name name = true
                      /\ FS.wf_node (FS.Dir l) = true
                      /\ (FS.depth (FS.Dir l) < fuel)%nat).
  { intros name Hin. destruct (TreeFacts.dir_names_In name es Hin) as [l Hl].
    destruct (TreeFacts.wf_node_child name _ es Hwf Hl) as (Hv & Hw & Hg).
    exists l. repeat split; auto.
    pose proof (TreeFacts.depth_child name _ es Hl). lia. }
  assert (Hloop : forall names counts2,
            (forall name, In name names -> In name (FS.dir_names es)) ->
            triple lib I T c
              (for_each names
                 (fun dirname acc =>
                    os_walk fuel (join (join_all input_dir ds) dirname)
                      (fun root _ files counts' =>
                         for_each files
                           (process_directory_file input_dir output_dir scale width
                              height simplify max_dist root)
                           counts')
                      acc)
                 counts2)
              (fun counts' =>
                 (fst counts' + snd counts'
                  = fst counts2 + snd counts2
                    + Z.of_nat (FS.count_children es names))%Z
                 /\ (fst counts2 <= fst counts')%Z /\ (snd counts2 <= snd counts')%Z)).
  { induction names as [|name names IHn]; intros counts2 Hsubset.
    - apply triple_ret. simpl. lia.
    - cbn [for_each].
      destruct (Hdirs name (Hsubset name (or_introl eq_refl)))
        as (l & Hg & Hv & Hw & Hdp).
      eapply triple_bind.
      + rewrite <- join_all_snoc.
        apply (IH (ds ++ [name]) (FS.Dir l) counts2).
        * now apply valid_names_snoc.
        * rewrite FSFacts.lookup_app, Hsub. simpl. now rewrite Hg.
        * exact Hw.
        * exact Hdp.
      + intros counts3 (Hsum3 & Hs3 & Hf3).
        eapply triple_weaken;
          [apply (IHn counts3 (fun n H => Hsubset n (or_intror H)))|].
        intros counts4 (Hsum4 & Hs4 & Hf4).
        unfold FS.count_children in *. cbn [map list_sum]. rewrite Hg.
        change (list_sum (FS.count_svg (FS.Dir l) :: ?r))
          with (FS.count_svg (FS.Dir l) + list_sum r)%nat.
        lia. }
  eapply triple_weaken; [apply (Hloop (FS.dir_names es) counts1 (fun _ H => H))|].
  intros counts' (Hsum & Hs & Hf). lia.
Qed.

End WalkCount.

(** A run with the output directory inside the input directory, as the
    default one is for [--input_dir svgs/] ([svgs/_processed]): [os.walk]
    lists [svgs/_processed] after the loop has written
    [svgs/_processed/a.svg] there, and the loop processes that file too. *)
Lemma process_directory_counts_own_output :
  batch_output_dir (batch_args "svgs/") "svgs/" = "svgs/_processed"
  /\ count_svg_under (toy_world one_svg_tree) "svgs/" = 1%nat
  /\ fst (process_directory 5 "svgs/" "svgs/_processed" 1%float 200 200 false 5
            (toy_world one_svg_tree)) = Ok (2%Z, 0%Z)
  /\ count_svg_under
       (snd (process_directory 5 "svgs/" "svgs/_processed" 1%float 200 200 false 5
               (toy_world one_svg_tree))) "svgs/" = 3%nat
  /\ stdout (snd (main 5 (batch_args "svgs/") (toy_world one_svg_tree)))
     = ["Preprocessed SVG saved to svgs/_processed/a.svg";
        "Saved processed SVG to svgs/_processed/a.svg";
        "Preprocessed SVG saved to svgs/_processed/_processed/a.svg";
        "Saved processed SVG to svgs/_processed/_processed/a.svg";
        PyStr.nl +++ "Batch processing complete:"; "  Success: 2"; "  Failed:  0"].
Proof. repeat split; vm_compute; reflexivity. Qed.

(** C3, as stated, fails on that run: the counters sum to 2, and the input
    directory tree held 1 file ending in [.svg] before the run and holds 3
    after it. *)
Lemma process_directory_sum_is_not_the_file_count :
  exists (success_count failure_count : Z) (w' : world toy),
    process_directory 5 "svgs/" "svgs/_processed" 1%float 200 200 false 5
      (toy_world one_svg_tree) = (Ok (success_count, failure_count), w')
    /\ (success_count + failure_count)%Z
       <> Z.of_nat (count_svg_under (toy_world one_svg_tree) "svgs/")
    /\ (success_count + failure_count)%Z <> Z.of_nat (count_svg_under w' "svgs/").
Proof.
  exists 2%Z, 0%Z,
    (snd (process_directory 5 "svgs/" "svgs/_processed" 1%float 200 200 false 5
            (toy_world one_svg_tree))).
  split; [vm_compute; reflexivity|]. split; vm_compute; discriminate.
Qed.

(** An output path that is a directory: [open] raises in [preprocess_svg],
    the [except] block of [process_single_file] finds that the path exists,
    and its [os.remove] raises in turn. The exception leaves
    [process_directory]. *)
Lemma process_directory_raises_on_directory_output :
  fst (process_directory 5 "svgs" "out" 1%float 200 200 false 5
         (toy_world [("svgs", FS.Dir [("a.svg", FS.File "<svg/>")]);
                     ("out", FS.Dir [("a.svg", FS.Dir [])])]))
  = Raise IsADirectoryError.
Proof. vm_compute. reflexivity. Qed.

(** C3, amended. When the output directory and the input directory lie
    apart (neither is the other or contains it), [process_directory] returns
    [(success_count, failure_count)] with
    [success_count + failure_count] the number of files under the input
    directory tree whose names end in [.svg], unless an exception leaves it
    (as when [os.makedirs(output_dir)] fails, or when an output path is a
    directory). The input tree is as it was. [fuel] is more than the depth
    of the tree, so that the walk is not cut short. *)
Theorem process_directory_counts
    (lib : Collaborators) (fuel : nat) (input_dir output_dir : string) (scale : float)
    (width height : Z) (simplify : bool) (max_dist : Z)
    (w w' : world lib) (T : FS.node) (r : outcome (Z * Z)) :
  PyStr.startswith_sep (cwd w) = true ->
  fs_lookup w input_dir = Some T ->
  FS.wf_node T = true ->
  FS.is_prefix (components w input_dir) (components w output_dir) = false ->
  FS.is_prefix (components w output_dir) (components w input_dir) = false ->
  (FS.depth T < fuel)%nat ->
  process_directory fuel input_dir output_dir scale width height simplify max_dist w
    = (r, w') ->
  fs_lookup w' input_dir = Some T
  /\ ((exists e, r = Raise e)
      \/ exists success_count failure_count,
           r = Ok (success_count, failure_count)
           /\ (success_count + failure_count)%Z = Z.of_nat (FS.count_svg T)
           /\ (0 <= success_count)%Z /\ (0 <= failure_count)%Z).
Proof.
  intros Hc Hl Hwf Hio Hoi Hdepth Hrun.
  assert (Hne : PyStr.nonempty input_dir = true).
  { unfold fs_lookup, FS.resolve in Hl. now destruct (PyStr.nonempty input_dir). }
  unfold components in Hio, Hoi.
  rewrite !WalkPaths.abs_list_norm in Hio, Hoi by exact Hc.
  assert (Hs : stable lib (posixpath.abs_norm (posixpath.abs_of (cwd w) input_dir))
                 T (cwd w) w).
  { split; [|reflexivity]. unfold fs_lookup, FS.resolve in Hl. rewrite Hne in Hl.
    now rewrite WalkPaths.abs_list_norm in Hl by exact Hc. }
  assert (Htr : triple lib (posixpath.abs_norm (posixpath.abs_of (cwd w) input_dir))
                  T (cwd w)
                  (process_directory fuel input_dir output_dir scale width height
                     simplify max_dist)
                  (fun counts =>
                     (fst counts + snd counts = 0 + 0 + Z.of_nat (FS.count_svg T))%Z
                     /\ (0 <= fst counts)%Z /\ (0 <= snd counts)%Z)).
  { unfold process_directory.
    apply (triple_bind lib _ T (cwd w) _ _ (fun _ => True)).
    - apply keeps_fs_alter; [apply FrameFacts.mkdir_exist_ok_keeps_dirs|].
      now rewrite WalkPaths.abs_list_norm by exact Hc.
    - intros _ _.
      apply (triple_os_walk lib input_dir output_dir scale width height simplify max_dist
               (cwd w) T Hc Hne (conj Hio Hoi) fuel [] T (0%Z, 0%Z));
        auto. }
  destruct (Htr w r w' Hs Hrun) as [[Hl' Hcwd'] Hr].
  split.
  - unfold fs_lookup, FS.resolve. rewrite Hne, Hcwd'.
    now rewrite WalkPaths.abs_list_norm by exact Hc.
  - destruct r as [[s f]|e|x|]; try contradiction.
    + right. exists s, f. simpl in Hr. repeat split; try lia.
    + left. eauto.
Qed.

(** [/svgs] with two [.svg] files, processed into [/out]. *)
Lemma process_directory_counts_witness :
  fst (process_directory 5 "svgs" "out" 1%float 200 200 false 5 (toy_world svgs_tree))
    = Ok (1%Z, 1%Z)
  /\ FS.count_svg
       (FS.Dir [("a.svg", FS.File "<svg/>"); ("notes.txt", FS.File "text");
                ("sub", FS.Dir [("b.svg", FS.File "broken")])]) = 2%nat
  /\ fs_lookup
       (snd (process_directory 5 "svgs" "out" 1%float 200 200 false 5
               (toy_world svgs_tree))) "svgs"
     = Some (FS.Dir [("a.svg", FS.File "<svg/>"); ("notes.txt", FS.File "text");
                     ("sub", FS.Dir [("b.svg", FS.File "broken")])]).
Proof.
  split; [vm_compute; reflexivity|]. split; [reflexivity|].
  refine (proj1 (process_directory_counts toy 5 "svgs" "out" 1%float 200 200 false 5
                   (toy_world svgs_tree)
                   (snd (process_directory 5 "svgs" "out" 1%float 200 200 false 5
                           (toy_world svgs_tree)))
                   (FS.Dir [("a.svg", FS.File "<svg/>"); ("notes.txt", FS.File "text");
                            ("sub", FS.Dir [("b.svg", FS.File "broken")])])
                   (Ok (1%Z, 1%Z)) _ _ _ _ _ _ _));
    try (vm_compute; reflexivity).
  vm_compute. lia.
Defined.

Lemma for_each_ext {lib : Collaborators} {A B} (l : list B)
    (f g : B -> A -> M lib A) (acc : A) (w : world lib) :
  (forall x acc' w', f x acc' w' = g x acc' w') ->
  for_each l f acc w = for_each l g acc w.
Proof.
  intros H. revert acc w; induction l as [|x l IH]; intros acc w; [reflexivity|].
  cbn [for_each]. unfold bind. rewrite H.
  destruct (g x acc w) as [[a|e|code|] w1]; auto.
Qed.

(** The directories [os.walk] reaches are [top] joined with the names that
    lead to them, one [join] for each level. *)
Lemma os_walk_names {lib : Collaborators} {A} (top : string) (fuel : nat)
    (ds : list string)
    (body : string -> list string -> list string -> A -> M lib A)
    (acc : A) (w : world lib) :
  os_walk fuel (posixpath.join_all top ds) body acc w
  = walk_names top fuel ds (fun names => body (posixpath.join_all top names)) acc w.
Proof.
  revert ds acc w; induction fuel as [|fuel IH]; intros ds acc w; [reflexivity|].
  cbn [os_walk walk_names]. unfold bind.
  destruct (scandir (posixpath.join_all top ds) w) as [[[[dirs nondirs]|]|e|code|] w1];
    try reflexivity.
  destruct (body (posixpath.join_all top ds) dirs nondirs acc w1) as [[acc'|e|code|] w2];
    try reflexivity.
  apply for_each_ext. intros dirname acc'' w'.
  rewrite <- IH. unfold posixpath.join_all. now rewrite fold_left_app.
Qed.

(** C10. The hierarchy of the input directory is kept. [os.walk] names a
    sub-directory by joining its name to the directory it is in, so a
    directory of the walk is [input_dir] joined with the names [ds] that
    lead to it. For a file [filename] there, the input path is [input_dir]
    joined with [ds] and [filename]; its path relative to [input_dir] is
    these names separated by ["/"]; and the output path, [output_dir] joined
    with that relative path, is [output_dir] joined with the same names. It
    is the path [process_single_file] is called with. *)
Theorem batch_output_path_mirrors_input
    (lib : Collaborators) (input_dir output_dir : string) (scale : float)
    (width height : Z) (simplify : bool) (max_dist : Z)
    (ds : list string) (filename : string) (counts : Z * Z) (w : world lib) :
  PyStr.startswith_sep (cwd w) = true ->
  Forall (fun name => FS.valid_name name = true) ds ->
  FS.valid_name filename = true ->
  let root := posixpath.join_all input_dir ds in
  (forall dirname, posixpath.join root dirname
                   = posixpath.join_all input_dir (ds ++ [dirname]))
  /\ posixpath.join root filename = posixpath.join_all input_dir (ds ++ [filename])
  /\ posixpath.relpath (cwd w) (posixpath.join root filename) input_dir
     = Some (PyStr.join_sep (ds ++ [filename]))
  /\ batch_output_path input_dir output_dir root filename w
     = (Ok (posixpath.join output_dir (PyStr.join_sep (ds ++ [filename]))), w)
  /\ posixpath.join output_dir (PyStr.join_sep (ds ++ [filename]))
     = posixpath.join_all output_dir (ds ++ [filename])
  /\ (PyStr.endswith filename ".svg" = true ->
      process_directory_file input_dir output_dir scale width height simplify max_dist
        root filename counts w
      = (ok <- process_single_file
                 (posixpath.join_all input_dir (ds ++ [filename]))
                 (posixpath.join_all output_dir (ds ++ [filename]))
                 scale width height simplify max_dist ;;
         if ok then ret ((fst counts + 1)%Z, snd counts)
         else ret (fst counts, (snd counts + 1)%Z)) w).
Proof.
  intros Hc Hd Hn root.
  assert (Hnames : Forall (fun name => FS.valid_name name = true) (ds ++ [filename])).
  { apply Forall_app. split; [exact Hd | now repeat constructor]. }
  assert (Hne : ds ++ [filename] <> []) by (now destruct ds).
  assert (Hsnoc : forall name, posixpath.join root name
                               = posixpath.join_all input_dir (ds ++ [name])).
  { intros name. unfold root, posixpath.join_all. now rewrite fold_left_app. }
  assert (Hrel : posixpath.relpath (cwd w) (posixpath.join root filename) input_dir
                 = Some (PyStr.join_sep (ds ++ [filename]))).
  { apply WalkPaths.relpath_below; auto.
    - now apply WalkPaths.join_name_nonempty.
    - unfold root. rewrite WalkPaths.abs_norm_step, WalkPaths.abs_norm_join_all
        by assumption.
      now rewrite <- app_assoc. }
  assert (Hout : batch_output_path input_dir output_dir root filename w
                 = (Ok (posixpath.join output_dir (PyStr.join_sep (ds ++ [filename]))), w)).
  { unfold batch_output_path. now rewrite Hrel. }
  assert (Hmirror : posixpath.join output_dir (PyStr.join_sep (ds ++ [filename]))
                    = posixpath.join_all output_dir (ds ++ [filename])).
  { symmetry. now apply WalkPaths.join_all_rel. }
  repeat split; auto.
  intros Hsvg. unfold process_directory_file. destruct counts as [s f].
  rewrite Hsvg. cbn [negb fst snd].
  rewrite (bind_Ok lib _ _ _ _ _ Hout). now rewrite Hmirror, Hsnoc.
Qed.

(** [svgs/sub/b.svg] goes to [out/sub/b.svg]. *)
Lemma batch_output_path_mirrors_input_witness :
  posixpath.join (posixpath.join_all "svgs" ["sub"]) "b.svg" = "svgs/sub/b.svg"
  /\ batch_output_path "svgs" "out" (posixpath.join_all "svgs" ["sub"]) "b.svg"
       (toy_world svgs_tree) = (Ok "out/sub/b.svg", toy_world svgs_tree).
Proof.
  pose proof (batch_output_path_mirrors_input toy "svgs" "out" 1%float 200 200 false 5
                ["sub"] "b.svg" (0%Z, 0%Z) (toy_world svgs_tree)
                eq_refl (Forall_cons "sub" eq_refl (Forall_nil _)) eq_refl)
    as (_ & H2 & _ & H4 & _).
  split; [exact H2 | exact H4].
Defined.

(* ================================================================== *)
(** * Further properties: what a run keeps *)
(* ================================================================== *)

(** ** Rules for [preserves] *)

(** A property of the world that every step keeps is kept by the whole
    computation: the rules for [bind], [try] and the loops, and then the
    functions of the script, from the system calls up. *)

Section Preserves.

Variable lib : Collaborators.
Variable Inv : world lib -> Prop.

Lemma preserves_ret {A} (a : A) : preserves Inv (ret (lib:=lib) a).
Proof. intros w r w' HI H. injection H as <- <-. exact HI. Qed.

Lemma preserves_raise {A} (e : exn) : preserves Inv (raise (lib:=lib) (A:=A) e).
Proof. intros w r w' HI H. injection H as <- <-. exact HI. Qed.

Lemma preserves_bind {A B} (m : M lib A) (k : A -> M lib B) :
  preserves Inv m -> (forall a, preserves Inv (k a)) -> preserves Inv (bind m k).
Proof.
  intros Hm Hk w r w' HI. unfold bind.
  destruct (m w) as [r1 w1] eqn:E1. pose proof (Hm w r1 w1 HI E1) as HI1.
  destruct r1 as [a|e|x|].
  - intros H. exact (Hk a w1 r w' HI1 H).
  - intros H. injection H as <- <-. exact HI1.
  - intros H. injection H as <- <-. exact HI1.
  - intros H. injection H as <- <-. exact HI1.
Qed.

Lemma preserves_try {A} (cls : exn -> bool) (m : M lib A) (h : exn -> M lib A) :
  preserves Inv m -> (forall e, preserves Inv (h e)) -> preserves Inv (try_except_cls cls m h).
Proof.
  intros Hm Hh w r w' HI. unfold try_except_cls.
  destruct (m w) as [r1 w1] eqn:E1. pose proof (Hm w r1 w1 HI E1) as HI1.
  destruct r1 as [a|e|x|]; try (intros H; injection H as <- <-; exact HI1).
  destruct (cls e).
  - intros H. exact (Hh e w1 r w' HI1 H).
  - intros H. injection H as <- <-. exact HI1.
Qed.

Lemma preserves_for_each {A B} (l : list B) (body : B -> A -> M lib A) (acc : A) :
  (forall x acc', preserves Inv (body x acc')) -> preserves Inv (for_each l body acc).
Proof.
  intros Hb. revert acc. induction l as [|x l IH]; intros acc; cbn [for_each].
  - apply preserves_ret.
  - apply preserves_bind; [apply Hb | exact IH].
Qed.

Lemma preserves_for_each_Forall {A B} (l : list B) (body : B -> A -> M lib A) (acc : A) :
  Forall (fun x => forall acc', preserves Inv (body x acc')) l ->
  preserves Inv (for_each l body acc).
Proof.
  intros Hb. revert acc. induction Hb as [|x l Hx _ IH]; intros acc; cbn [for_each].
  - apply preserves_ret.
  - apply preserves_bind; [apply Hx | exact IH].
Qed.

(** [Inv] looks at the file system and the current directory only. *)
Hypothesis Inv_same_fs : forall w w', fs w' = fs w -> cwd w' = cwd w -> Inv w -> Inv w'.

Lemma preserves_same_fs {A} (m : M lib A) :
  (forall w r w', m w = (r, w') -> fs w' = fs w /\ cwd w' = cwd w) -> preserves Inv m.
Proof.
  intros Hm w r w' HI H. destruct (Hm w r w' H) as [Hfs Hcwd].
  exact (Inv_same_fs w w' Hfs Hcwd HI).
Qed.

Lemma preserves_print (line : string) : preserves Inv (print (lib:=lib) line).
Proof. apply preserves_same_fs. intros w r w' H. injection H as <- <-. now split. Qed.

Lemma preserves_log_call (c : call) : preserves Inv (log_call (lib:=lib) c).
Proof. apply preserves_same_fs. intros w r w' H. injection H as <- <-. now split. Qed.

Lemma preserves_getsize (path : string) : preserves Inv (getsize (lib:=lib) path).
Proof.
  apply preserves_same_fs. intros w r w'. rewrite getsize_run.
  destruct (fs_lookup w path); intros H; injection H as <- <-; now split.
Qed.

Lemma preserves_exists (path : string) : preserves Inv (exists_ (lib:=lib) path).
Proof. apply preserves_same_fs. intros w r w' H. injection H as <- <-. now split. Qed.

Lemma preserves_scandir (top : string) : preserves Inv (scandir (lib:=lib) top).
Proof.
  apply preserves_same_fs. intros w r w'. unfold scandir.
  destruct (fs_lookup w top) as [[d|es]|]; intros H; injection H as <- <-; now split.
Qed.

Lemma preserves_load (path : string) : preserves Inv (SVG_load_svg (lib:=lib) path).
Proof.
  apply preserves_same_fs. intros w r w' H.
  destruct (SVG_load_svg_frame lib _ _ _ _ H) as (Hfs & Hcwd & _). now split.
Qed.

Lemma preserves_process_svg (svg : nat) (scale : float) (width height : Z)
    (simplify : bool) (max_dist : Z) :
  preserves Inv (process_svg (lib:=lib) svg scale width height simplify max_dist).
Proof.
  apply preserves_same_fs. intros w r w' H.
  destruct (process_svg_frame lib _ _ _ _ _ _ _ _ _ H) as (Hfs & Hcwd & _). now split.
Qed.

Section OneOutputPath.

Variables input_path output_path : string.

(** The system calls on the output path and on its directory keep [Inv]. *)
Hypothesis Inv_output :
  forall f, FS.keeps_dirs f -> preserves Inv (fs_alter (lib:=lib) false f output_path).
Hypothesis Inv_parent :
  preserves Inv (makedirs (lib:=lib) (output_parent output_path)).

Lemma preserves_write (data : string) : preserves Inv (write (lib:=lib) output_path data).
Proof. apply Inv_output, FrameFacts.write_file_keeps_dirs. Qed.

Lemma preserves_open_w : preserves Inv (open_w (lib:=lib) output_path).
Proof. apply Inv_output, FrameFacts.write_file_keeps_dirs. Qed.

Lemma preserves_remove : preserves Inv (remove (lib:=lib) output_path).
Proof. apply Inv_output, FrameFacts.unlink_keeps_dirs. Qed.

Lemma preserves_subprocess_run_picosvg :
  preserves Inv (subprocess_run_picosvg (lib:=lib) input_path output_path).
Proof.
  unfold subprocess_run_picosvg.
  apply preserves_bind; [apply preserves_log_call|]. intros _ w r w' HI.
  destruct (picosvg lib (cwd w) (root w) input_path) as [out rc|e].
  - intros H. refine (_ w r w' HI H).
    apply preserves_bind; [apply preserves_write|]. intros _.
    destruct (rc =? 0)%Z; [apply preserves_ret | apply preserves_raise].
  - intros H. injection H as <- <-. exact HI.
Qed.

Lemma preserves_preprocess_svg :
  preserves Inv (preprocess_svg (lib:=lib) input_path output_path).
Proof.
  unfold preprocess_svg. apply preserves_try.
  - apply preserves_bind; [apply preserves_open_w|]. intros _.
    apply preserves_bind; [apply preserves_subprocess_run_picosvg|]. intros _.
    apply preserves_bind; [apply preserves_print|]. intros _. apply preserves_ret.
  - intros e. apply preserves_bind; [apply preserves_print|]. intros _. apply preserves_ret.
Qed.

Lemma preserves_save_svg (svg : nat) :
  preserves Inv (SVG_save_svg (lib:=lib) svg output_path).
Proof.
  unfold SVG_save_svg.
  apply preserves_bind; [apply preserves_log_call|]. intros _ w r w' HI.
  destruct (nth_error (heap w) svg) as [d|].
  - intros H. refine (_ w r w' HI H).
    apply preserves_bind; [apply preserves_open_w|]. intros _.
    apply preserves_bind; [apply preserves_write|]. intros _.
    destruct (snd (to_file lib d)); [apply preserves_raise | apply preserves_ret].
  - intros H. injection H as <- <-. exact HI.
Qed.

Lemma preserves_load_process_save (scale : float) (width height : Z) (simplify : bool)
    (max_dist : Z) :
  preserves Inv (load_process_save (lib:=lib) output_path scale width height simplify max_dist).
Proof.
  unfold load_process_save.
  apply preserves_bind; [apply preserves_load|]. intros svg.
  apply preserves_bind; [apply preserves_process_svg|]. intros svg'.
  apply preserves_bind; [apply preserves_save_svg|]. intros _.
  apply preserves_bind; [apply preserves_print|]. intros _. apply preserves_ret.
Qed.

Lemma preserves_process_single_file (scale : float) (width height : Z) (simplify : bool)
    (max_dist : Z) :
  preserves Inv (process_single_file (lib:=lib) input_path output_path scale width height
                   simplify max_dist).
Proof.
  unfold process_single_file, try_except. apply preserves_try.
  - unfold process_single_file_body.
    apply preserves_bind; [apply Inv_parent|]. intros _.
    apply preserves_bind; [apply preserves_preprocess_svg|]. intros ok.
    destruct ok; cbn [negb].
    + apply preserves_bind; [apply preserves_getsize|]. intros size.
      destruct (size =? 0)%Z.
      * apply preserves_bind; [apply preserves_print|]. intros _.
        apply preserves_bind; [apply preserves_remove|]. intros _. apply preserves_ret.
      * apply preserves_load_process_save.
    + apply preserves_bind; [apply preserves_print|]. intros _. apply preserves_ret.
  - intros e. unfold process_single_file_handler.
    apply preserves_bind; [apply preserves_print|]. intros _.
    apply preserves_bind; [apply preserves_exists|]. intros ex.
    apply preserves_bind; [|intros _; apply preserves_ret].
    destruct ex; [apply preserves_remove | apply preserves_ret].
Qed.

End OneOutputPath.

End Preserves.

(** ** What one system call changes *)

Module FileFrame.
Import FS FSFacts.

(** A change at [q] leaves a regular file at [p] as it is, unless it is a
    change of that file itself. *)
Lemma alter_lookup_file (mk : bool) (f : option node -> exn + option node)
    (q p : list string) (o o' : option node) (d : string) :
  keeps_dirs f ->
  (p = q -> forall x, f (Some (File d)) = inr x -> x = Some (File d)) ->
  alter mk f q o = inr o' ->
  lookup p o = Some (File d) ->
  lookup p o' = Some (File d).
Proof.
  intros Hf. revert p o o'.
  induction q as [|c q IH]; intros p o o' Hleaf Ha Hl.
  - destruct p as [|c' p].
    + simpl in Hl, Ha. subst o. now rewrite (Hleaf eq_refl o' Ha).
    + simpl in Ha. cbn [lookup] in Hl. destruct o as [[d0|es]|]; try discriminate.
      now rewrite (Hf es o' Ha).
  - destruct p as [|c' p].
    + simpl in Hl. subst o. discriminate.
    + simpl in Ha. cbn [lookup] in Hl.
      destruct o as [[d0|es]|]; try discriminate.
      destruct (alter mk f q (get_entry c es)) as [e|o''] eqn:E; [discriminate|].
      injection Ha as <-. cbn [lookup].
      destruct (String.eqb_spec c' c) as [->|Hne].
      * rewrite get_put_same. apply (IH p (get_entry c es)); auto.
        intros ->. now apply Hleaf.
      * rewrite get_put_other by congruence. exact Hl.
Qed.

(** A change that keeps directories leaves every directory a directory. *)
Lemma alter_lookup_dir (mk : bool) (f : option node -> exn + option node)
    (q p : list string) (o o' : option node) (es : entries) :
  keeps_dirs f ->
  alter mk f q o = inr o' ->
  lookup p o = Some (Dir es) ->
  exists es', lookup p o' = Some (Dir es').
Proof.
  intros Hf. revert p o o' es.
  induction q as [|c q IH]; intros p o o' es Ha Hl.
  - simpl in Ha. destruct p as [|c' p].
    + simpl in Hl. subst o. rewrite (Hf es o' Ha). now exists es.
    + cbn [lookup] in Hl. destruct o as [[d0|es0]|]; try discriminate.
      rewrite (Hf es0 o' Ha). now exists es.
  - simpl in Ha. destruct o as [[d0|es0]|].
    + discriminate.
    + destruct (alter mk f q (get_entry c es0)) as [e|o''] eqn:E; [discriminate|].
      injection Ha as <-. destruct p as [|c' p].
      * now eexists.
      * cbn [lookup] in *. destruct (String.eqb_spec c' c) as [->|Hne].
        -- rewrite get_put_same. now apply (IH p (get_entry c es0) o'' es).
        -- rewrite get_put_other by congruence. now exists es.
    + rewrite lookup_None in Hl. discriminate.
Qed.

(** A change at [q] leaves the path [p] as it is when neither path leads to
    the other. *)
Lemma alter_lookup_apart (mk : bool) (f : option node -> exn + option node)
    (q p : list string) (o o' : option node) :
  is_prefix p q = false -> is_prefix q p = false ->
  alter mk f q o = inr o' ->
  lookup p o' = lookup p o.
Proof.
  revert p o o'. induction q as [|c q IH]; intros p o o' Hpq Hqp Ha; [discriminate|].
  destruct p as [|c' p]; [discriminate|].
  cbn [alter] in Ha. destruct o as [[d0|es]|].
  - discriminate.
  - destruct (alter mk f q (get_entry c es)) as [e|o''] eqn:E; [discriminate|].
    injection Ha as <-. cbn [lookup].
    destruct (String.eqb_spec c' c) as [->|Hne].
    + rewrite get_put_same. rewrite FrameFacts.is_prefix_cons in Hpq, Hqp.
      now apply (IH p (get_entry c es)).
    + now rewrite get_put_other by congruence.
  - destruct mk; [|discriminate].
    destruct (alter true f q None) as [e|o''] eqn:E; [discriminate|].
    injection Ha as <-.
    change (lookup p (get_entry c' (put_entry c o'' [])) = lookup (c' :: p) None).
    destruct (String.eqb_spec c' c) as [->|Hne].
    + rewrite get_put_same. rewrite FrameFacts.is_prefix_cons in Hpq, Hqp.
      rewrite (IH p None o'' Hpq Hqp E). now rewrite lookup_None.
    + rewrite get_put_other by congruence. simpl. now rewrite lookup_None.
Qed.



(** [os.makedirs] onto a regular file fails. *)
Lemma alter_mkdir_file (p : list string) (o : option node) (d : string) :
  lookup p o = Some (File d) ->
  alter true mkdir_exist_ok p o = inl FileExistsError.
Proof.
  revert o. induction p as [|c p IH]; intros o Hl.
  - simpl in *. now subst o.
  - cbn [lookup] in Hl. destruct o as [[d0|es0]|]; try discriminate.
    simpl. now rewrite (IH _ Hl).
Qed.

(** None of the system calls fails with [CalledProcessError]. *)
Lemma alter_not_CalledProcessError (mk : bool) (f : option node -> exn + option node)
    (p : list string) (o : option node) (e : exn) :
  (forall x e', f x = inl e' -> is_CalledProcessError e' = false) ->
  alter mk f p o = inl e -> is_CalledProcessError e = false.
Proof.
  intros Hf. revert o. induction p as [|c p IH]; intros o; simpl.
  - apply Hf.
  - destruct o as [[d0|es0]|].
    + now intros [= <-].
    + destruct (alter mk f p (get_entry c es0)) as [e0|o''] eqn:E; [|discriminate].
      intros [= <-]. exact (IH _ E).
    + destruct mk; [|now intros [= <-]].
      destruct (alter true f p None) as [e0|o''] eqn:E; [|discriminate].
      intros [= <-]. exact (IH _ E).
Qed.

End FileFrame.

(** ** Rules for [returns_or_raises] *)

Section Returns.

Variable lib : Collaborators.

Lemma returns_ret {A} (a : A) : returns_or_raises (ret (lib:=lib) a).
Proof. intros w r w' H. now injection H as <- <-. Qed.

Lemma returns_raise {A} (e : exn) : returns_or_raises (raise (lib:=lib) (A:=A) e).
Proof. intros w r w' H. now injection H as <- <-. Qed.

Lemma returns_bind {A B} (m : M lib A) (k : A -> M lib B) :
  returns_or_raises m -> (forall a, returns_or_raises (k a)) -> returns_or_raises (bind m k).
Proof.
  intros Hm Hk w r w'. unfold bind.
  destruct (m w) as [r1 w1] eqn:E1. pose proof (Hm w r1 w1 E1) as H1.
  destruct r1 as [a|e|x|]; try contradiction.
  - apply Hk.
  - intros H. now injection H as <- <-.
Qed.

Lemma returns_try {A} (cls : exn -> bool) (m : M lib A) (h : exn -> M lib A) :
  returns_or_raises m -> (forall e, returns_or_raises (h e)) ->
  returns_or_raises (try_except_cls cls m h).
Proof.
  intros Hm Hh w r w'. unfold try_except_cls.
  destruct (m w) as [r1 w1] eqn:E1. pose proof (Hm w r1 w1 E1) as H1.
  destruct r1 as [a|e|x|]; try contradiction.
  - intros H. now injection H as <- <-.
  - destruct (cls e); [apply Hh|]. intros H. now injection H as <- <-.
Qed.

Lemma returns_print (line : string) : returns_or_raises (print (lib:=lib) line).
Proof. intros w r w' H. now injection H as <- <-. Qed.

Lemma returns_log_call (c : call) : returns_or_raises (log_call (lib:=lib) c).
Proof. intros w r w' H. now injection H as <- <-. Qed.

Lemma returns_exists (path : string) : returns_or_raises (exists_ (lib:=lib) path).
Proof. intros w r w' H. now injection H as <- <-. Qed.

Lemma returns_getsize (path : string) : returns_or_raises (getsize (lib:=lib) path).
Proof.
  intros w r w'. rewrite getsize_run.
  destruct (fs_lookup w path); intros H; now injection H as <- <-.
Qed.

Lemma returns_fs_alter (mk : bool) (f : option FS.node -> exn + option FS.node)
    (path : string) :
  returns_or_raises (fs_alter (lib:=lib) mk f path).
Proof.
  intros w r w' H.
  destruct (fs_alter_cases lib mk f path w) as [[e He]|(p & es & _ & _ & He)];
    rewrite He in H; now injection H as <- <-.
Qed.

Lemma returns_load (path : string) : returns_or_raises (SVG_load_svg (lib:=lib) path).
Proof.
  intros w r w' H.
  now destruct (SVG_load_svg_frame lib _ _ _ _ H) as (_ & _ & _ & [[e ->]|[-> _]]).
Qed.

Lemma returns_process_svg (svg : nat) (scale : float) (width height : Z)
    (simplify : bool) (max_dist : Z) :
  returns_or_raises (process_svg (lib:=lib) svg scale width height simplify max_dist).
Proof.
  intros w r w' H.
  now destruct (process_svg_frame lib _ _ _ _ _ _ _ _ _ H) as (_ & _ & [->|[e ->]]).
Qed.

Lemma returns_subprocess_run_picosvg (input_path output_path : string) :
  returns_or_raises (subprocess_run_picosvg (lib:=lib) input_path output_path).
Proof.
  unfold subprocess_run_picosvg.
  apply returns_bind; [apply returns_log_call|]. intros _ w r w'.
  destruct (picosvg lib (cwd w) (root w) input_path) as [out rc|e].
  - intros H. refine (_ w r w' H).
    apply returns_bind; [apply returns_fs_alter|]. intros _.
    destruct (rc =? 0)%Z; [apply returns_ret | apply returns_raise].
  - intros H. now injection H as <- <-.
Qed.

Lemma returns_preprocess_svg (input_path output_path : string) :
  returns_or_raises (preprocess_svg (lib:=lib) input_path output_path).
Proof.
  unfold preprocess_svg. apply returns_try.
  - apply returns_bind; [apply returns_fs_alter|]. intros _.
    apply returns_bind; [apply returns_subprocess_run_picosvg|]. intros _.
    apply returns_bind; [apply returns_print|]. intros _. apply returns_ret.
  - intros e. apply returns_bind; [apply returns_print|]. intros _. apply returns_ret.
Qed.

Lemma returns_save_svg (svg : nat) (path : string) :
  returns_or_raises (SVG_save_svg (lib:=lib) svg path).
Proof.
  unfold SVG_save_svg.
  apply returns_bind; [apply returns_log_call|]. intros _ w r w'.
  destruct (nth_error (heap w) svg) as [d|].
  - intros H. refine (_ w r w' H).
    apply returns_bind; [apply returns_fs_alter|]. intros _.
    apply returns_bind; [apply returns_fs_alter|]. intros _.
    destruct (snd (to_file lib d)); [apply returns_raise | apply returns_ret].
  - intros H. now injection H as <- <-.
Qed.

Lemma returns_process_single_file_body (input_path output_path : string) (scale : float)
    (width height : Z) (simplify : bool) (max_dist : Z) :
  returns_or_raises (process_single_file_body (lib:=lib) input_path output_path scale
                       width height simplify max_dist).
Proof.
  unfold process_single_file_body.
  apply returns_bind; [apply returns_fs_alter|]. intros _.
  apply returns_bind; [apply returns_preprocess_svg|]. intros ok.
  destruct ok; cbn [negb].
  - apply returns_bind; [apply returns_getsize|]. intros size.
    destruct (size =? 0)%Z.
    + apply returns_bind; [apply returns_print|]. intros _.
      apply returns_bind; [apply returns_fs_alter|]. intros _. apply returns_ret.
    + unfold load_process_save.
      apply returns_bind; [apply returns_load|]. intros svg.
      apply returns_bind; [apply returns_process_svg|]. intros svg'.
      apply returns_bind; [apply returns_save_svg|]. intros _.
      apply returns_bind; [apply returns_print|]. intros _. apply returns_ret.
  - apply returns_bind; [apply returns_print|]. intros _. apply returns_ret.
Qed.



(** A system call that raises did not raise [CalledProcessError]. *)
Lemma fs_alter_not_CalledProcessError (mk : bool)
    (f : option FS.node -> exn + option FS.node) (path : string)
    (w w' : world lib) (e : exn) :
  (forall x e', f x = inl e' -> is_CalledProcessError e' = false) ->
  fs_alter mk f path w = (Raise e, w') -> is_CalledProcessError e = false.
Proof.
  intros Hf. unfold fs_alter.
  destruct (FS.resolve (cwd w) path) as [p|]; [|now intros [= <- _]].
  destruct (FS.alter mk f p (Some (root w))) as [e0|[[d|es]|]] eqn:E;
    try (now intros [= <- _]); try discriminate.
  intros [= <- _]. exact (FileFrame.alter_not_CalledProcessError mk f p _ e0 Hf E).
Qed.

Lemma write_file_not_CalledProcessError (data : string) (x : option FS.node) (e : exn) :
  FS.write_file data x = inl e -> is_CalledProcessError e = false.
Proof. destruct x as [[d|es]|]; simpl; try discriminate. now intros [= <-]. Qed.

End Returns.

(* ================================================================== *)
(** * [preprocess_svg]: the exit status, and what is not caught *)
(* ================================================================== *)

(** X1. [preprocess_svg] returns whether [picosvg] exited with status 0. Once
    the output file is open and [picosvg] has run, the result is [True] for
    status 0 and [False] for any other status; in both cases the output file
    holds what [picosvg] wrote to its standard output, one line was printed,
    and the call is the only one made. *)
Theorem preprocess_svg_returns_exit_status
    (lib : Collaborators) (input_path output_path : string) (w w1 : world lib)
    (out : string) (returncode : Z) :
  open_w output_path w = (Ok tt, w1) ->
  picosvg lib (cwd w1) (root w1) input_path = Completed out returncode ->
  exists w' line,
    preprocess_svg input_path output_path w = (Ok (returncode =? 0)%Z, w')
    /\ fs_lookup w' output_path = Some (FS.File out)
    /\ stdout w' = stdout w ++ [line]
    /\ (returncode = 0%Z -> line = "Preprocessed SVG saved to " +++ output_path)
    /\ calls w' = calls w ++ [CallPicosvg input_path]
    /\ heap w' = heap w.
Proof.
  intros Hopen Hpico.
  pose proof (write_is_file lib _ _ _ _ Hopen) as Hfile.
  pose proof (write_Ok lib _ _ _ _ Hopen) as (_ & Hcwd & Hheap & Hout & _ & Hcalls).
  destruct (write_file_succeeds lib output_path out (logged w1 (CallPicosvg input_path)))
    as [w2 Hw2]; [exact Hfile|].
  pose proof (write_Ok lib _ _ _ _ Hw2) as (Hl2 & Hcwd2 & Hheap2 & Hout2 & _ & Hcalls2).
  assert (Hrun : subprocess_run_picosvg input_path output_path w1
                 = if (returncode =? 0)%Z then (Ok tt, w2)
                   else (Raise (CalledProcessError returncode), w2)).
  { rewrite subprocess_run_picosvg_run, Hpico. unfold write. now rewrite Hw2. }
  destruct (Z.eqb_spec returncode 0) as [Hz|Hnz].
  - exists (printed w2 ("Preprocessed SVG saved to " +++ output_path)),
      ("Preprocessed SVG saved to " +++ output_path).
    split.
    + unfold preprocess_svg, try_except_cls.
      rewrite (bind_Ok lib _ _ _ _ _ Hopen), (bind_Ok lib _ _ _ _ _ Hrun).
      reflexivity.
    + split; [exact Hl2|]. simpl. rewrite Hout2, Hheap2, Hcalls2. simpl.
      rewrite Hout, Hheap, Hcalls. repeat split; reflexivity.
  - exists (printed w2 ("Error preprocessing " +++ input_path +++ ": " +++
                        str_exn (CalledProcessError returncode))),
      ("Error preprocessing " +++ input_path +++ ": " +++
       str_exn (CalledProcessError returncode)).
    split.
    + unfold preprocess_svg, try_except_cls.
      rewrite (bind_Ok lib _ _ _ _ _ Hopen). rewrite bind_run, Hrun. reflexivity.
    + split; [exact Hl2|]. simpl. rewrite Hout2, Hheap2, Hcalls2. simpl.
      rewrite Hout, Hheap, Hcalls. repeat split; try reflexivity. contradiction.
Qed.

(** The toy [picosvg] exits with status 1 on [/svgs/sub/b.svg]. *)
Lemma preprocess_svg_returns_exit_status_witness :
  exists w' line,
    preprocess_svg "svgs/sub/b.svg" "b.out" (toy_world svgs_tree) = (Ok (1 =? 0)%Z, w')
    /\ fs_lookup w' "b.out" = Some (FS.File "")
    /\ stdout w' = stdout (toy_world svgs_tree) ++ [line]
    /\ (1%Z = 0%Z -> line = "Preprocessed SVG saved to " +++ "b.out")
    /\ calls w' = calls (toy_world svgs_tree) ++ [CallPicosvg "svgs/sub/b.svg"]
    /\ heap w' = heap (toy_world svgs_tree).
Proof.
  refine (preprocess_svg_returns_exit_status toy "svgs/sub/b.svg" "b.out"
            (toy_world svgs_tree) (snd (open_w "b.out" (toy_world svgs_tree)))
            "" 1%Z _ _); vm_compute; reflexivity.
Defined.

(** X2. [preprocess_svg] catches [CalledProcessError] only. When the output
    file cannot be opened (its directory is missing, or the path is a
    directory), the exception of [open] leaves [preprocess_svg]; [picosvg]
    is not run and nothing is printed: the world is as it was. *)
Theorem preprocess_svg_open_failure
    (lib : Collaborators) (input_path output_path : string) (w w1 : world lib) (e : exn) :
  open_w output_path w = (Raise e, w1) ->
  preprocess_svg input_path output_path w = (Raise e, w)
  /\ is_CalledProcessError e = false.
Proof.
  intros Hopen.
  pose proof (fs_alter_not_CalledProcessError lib false (FS.write_file "") output_path
                w w1 e (write_file_not_CalledProcessError "") Hopen) as Hcls.
  split; [|exact Hcls].
  assert (Hw : w1 = w).
  { pose proof (fs_alter_frame lib false (FS.write_file "") output_path w) as Hfr.
    cbv zeta in Hfr. fold (open_w (lib:=lib) output_path) in Hfr. rewrite Hopen in Hfr.
    destruct Hfr as (_ & _ & _ & _ & _ & [H|(e' & _ & H)]); [discriminate | exact H]. }
  subst w1. unfold preprocess_svg, try_except_cls.
  rewrite bind_run, Hopen. cbn [fst snd]. now rewrite Hcls.
Qed.

(** The directory [/missing] does not exist. *)
Lemma preprocess_svg_open_failure_witness :
  preprocess_svg "svgs/a.svg" "missing/a.svg" (toy_world svgs_tree)
    = (Raise FileNotFoundError, toy_world svgs_tree)
  /\ is_CalledProcessError FileNotFoundError = false.
Proof.
  refine (preprocess_svg_open_failure toy "svgs/a.svg" "missing/a.svg"
            (toy_world svgs_tree) (toy_world svgs_tree) FileNotFoundError _).
  vm_compute; reflexivity.
Defined.

Module TruncateFacts.
Import FS FSFacts.

Lemma put_put (c : string) (n n' : node) (es : entries) :
  put_entry c (Some n') (put_entry c (Some n) es) = put_entry c (Some n') es.
Proof.
  induction es as [|[k n0] es IH]; simpl.
  - now rewrite String.eqb_refl.
  - destruct (String.eqb k c) eqn:E; simpl; rewrite E; [reflexivity | now rewrite IH].
Qed.

Lemma alter_write_Some (data : string) (p : list string) (o o' : option node) :
  alter false (write_file data) p o = inr o' -> exists n, o' = Some n.
Proof.
  destruct p as [|c p]; simpl.
  - destruct o as [[d|es]|]; intros [= <-]; eauto.
  - destruct o as [[d|es]|]; try discriminate.
    destruct (alter false (write_file data) p (get_entry c es)); [discriminate|].
    intros [= <-]. eauto.
Qed.

(** Opening a file for writing forgets what was written to it before. *)
Lemma alter_write_twice (d d' : string) (p : list string) (o o1 : option node) :
  alter false (write_file d) p o = inr o1 ->
  alter false (write_file d') p o1 = alter false (write_file d') p o.
Proof.
  revert o o1. induction p as [|c p IH]; intros o o1 H.
  - simpl in *. destruct o as [[d0|es]|]; try discriminate; now injection H as <-.
  - cbn [alter] in H. destruct o as [[d0|es]|]; try discriminate.
    destruct (alter false (write_file d) p (get_entry c es)) as [e|o''] eqn:E;
      [discriminate|].
    injection H as <-. cbn [alter]. rewrite get_put_same, (IH _ _ E).
    destruct (alter false (write_file d') p (get_entry c es)) as [e|o3] eqn:E3;
      [reflexivity|].
    destruct (alter_write_Some _ _ _ _ E) as [n ->].
    destruct (alter_write_Some _ _ _ _ E3) as [n3 ->].
    now rewrite put_put.
Qed.

(** Whether a file can be opened for writing does not depend on what is
    written. *)
Lemma alter_write_any (d d' : string) (p : list string) (o o1 : option node) :
  alter false (write_file d) p o = inr o1 ->
  exists o2, alter false (write_file d') p o = inr o2.
Proof.
  revert o o1. induction p as [|c p IH]; intros o o1 H.
  - simpl in *. destruct o as [[d0|es]|]; try discriminate; now eexists.
  - cbn [alter] in *. destruct o as [[d0|es]|]; try discriminate.
    destruct (alter false (write_file d) p (get_entry c es)) as [e|o''] eqn:E;
      [discriminate|].
    destruct (IH _ _ E) as [o2 ->]. now eexists.
Qed.

End TruncateFacts.

(** X3. [preprocess_svg] truncates the output file before [picosvg] starts: what
    the file held before has no influence on the run. In particular, when
    [input_path] and [output_path] name the same file, [picosvg] does not
    get to read what that file held. *)
Theorem preprocess_svg_truncates_first
    (lib : Collaborators) (input_path output_path data : string) (w wd : world lib) :
  write output_path data w = (Ok tt, wd) ->
  preprocess_svg input_path output_path wd = preprocess_svg input_path output_path w.
Proof.
  intros Hw.
  assert (Hopen : open_w output_path wd = open_w output_path w).
  { unfold write in Hw.
    destruct (fs_alter_cases lib false (FS.write_file data) output_path w)
      as [[e He]|(p & es & Hr & Ha & He)]; rewrite He in Hw; [discriminate|].
    injection Hw as <-. unfold open_w, fs_alter.
    change (cwd (set_fs w es)) with (cwd w). rewrite Hr.
    change (root (set_fs w es)) with (FS.Dir es).
    rewrite (TruncateFacts.alter_write_twice data "" p _ _ Ha).
    destruct (TruncateFacts.alter_write_any data "" p _ _ Ha) as [o2 Ho2].
    rewrite Ho2.
    assert (Hp : p <> []) by (intros ->; discriminate).
    destruct (alter_root_Dir false _ p _ _ Hp Ho2) as [es' ->]. reflexivity. }
  unfold preprocess_svg, try_except_cls, bind. now rewrite Hopen.
Qed.

(** In place, on [/svgs/a.svg]: the run is the run on the file holding
    other text. *)
Lemma preprocess_svg_truncates_first_witness :
  preprocess_svg "svgs/a.svg" "svgs/a.svg"
    (snd (write "svgs/a.svg" "<svg>other</svg>" (toy_world svgs_tree)))
  = preprocess_svg "svgs/a.svg" "svgs/a.svg" (toy_world svgs_tree)
  /\ fs_lookup (snd (preprocess_svg "svgs/a.svg" "svgs/a.svg" (toy_world svgs_tree)))
       "svgs/a.svg" = Some (FS.File "").
Proof.
  split; [|vm_compute; reflexivity].
  refine (preprocess_svg_truncates_first toy "svgs/a.svg" "svgs/a.svg" "<svg>other</svg>"
            (toy_world svgs_tree) _ _).
  vm_compute; reflexivity.
Defined.

Module OpenFacts.
Import FS FSFacts.

(** A file can be opened for writing in an existing directory, unless the
    name is taken by a directory. *)
Lemma alter_write_in_dir (data name : string) (R : list string) (o : option node)
    (es : entries) :
  lookup R o = Some (Dir es) ->
  (forall es', get_entry name es <> Some (Dir es')) ->
  exists o', alter false (write_file data) (R ++ [name]) o = inr o'.
Proof.
  intros Hl Hname. revert o Hl. induction R as [|c R IH]; intros o Hl.
  - simpl in Hl. subst o. cbn [app alter].
    destruct (get_entry name es) as [[d|es']|] eqn:E; simpl.
    + now eexists.
    + exfalso. now apply (Hname es').
    + now eexists.
  - cbn [lookup] in Hl. destruct o as [[d|es0]|]; try discriminate.
    destruct (IH _ Hl) as [o' Ho']. cbn [app alter]. rewrite Ho'. now eexists.
Qed.

End OpenFacts.

(** X4. Line 94 makes line 26 safe. Once [os.makedirs] has created the
    directory of the output path, [open(output_path, "w")] finds it: the
    file is created (empty) or truncated, unless the output path is itself a
    directory. The output path is a directory joined with a name, as the
    output paths of a batch run are. *)
Theorem open_succeeds_after_makedirs
    (lib : Collaborators) (r name : string) (w wa : world lib) :
  PyStr.startswith_sep (cwd w) = true ->
  FS.valid_name name = true ->
  makedirs (output_parent (posixpath.join r name)) w = (Ok tt, wa) ->
  is_directory wa (posixpath.join r name) = false ->
  exists w1,
    open_w (posixpath.join r name) wa = (Ok tt, w1)
    /\ fs_lookup w1 (posixpath.join r name) = Some (FS.File "").
Proof.
  intros Hc Hv Hmk Hnd.
  set (out := posixpath.join r name) in *.
  destruct (fs_alter_cases lib true FS.mkdir_exist_ok (output_parent out) w)
    as [[e He]|(P & es & Hr & Ha & He)]; unfold makedirs in Hmk; rewrite He in Hmk;
    [discriminate|].
  injection Hmk as <-.
  assert (HP : P = posixpath.abs_norm (posixpath.abs_of (cwd w) r)).
  { unfold FS.resolve in Hr. destruct (PyStr.nonempty (output_parent out)); [|discriminate].
    injection Hr as <-. rewrite WalkPaths.abs_list_norm by exact Hc.
    now apply ParentFacts.output_parent_join_name. }
  assert (Hout : posixpath.abs_list (cwd w) out = P ++ [name]).
  { rewrite HP, WalkPaths.abs_list_norm by exact Hc. now apply WalkPaths.abs_norm_step. }
  assert (Hn : PyStr.nonempty out = true) by (now apply WalkPaths.join_name_nonempty).
  assert (Hdir : exists es1, FS.lookup P (Some (FS.Dir es)) = Some (FS.Dir es1)).
  { apply FSFacts.alter_lookup_same in Ha. unfold FS.mkdir_exist_ok in Ha.
    destruct (FS.lookup P (Some (root w))) as [[d|es0]|]; try discriminate;
      injection Ha as <-; now eexists. }
  destruct Hdir as [es1 Hes1].
  assert (Hname : forall es', FS.get_entry name es1 <> Some (FS.Dir es')).
  { intros es' E. unfold is_directory, fs_lookup, FS.resolve in Hnd.
    rewrite Hn in Hnd. change (cwd (set_fs w es)) with (cwd w) in Hnd.
    rewrite Hout in Hnd. change (root (set_fs w es)) with (FS.Dir es) in Hnd.
    rewrite FSFacts.lookup_app, Hes1 in Hnd. simpl in Hnd. now rewrite E in Hnd. }
  destruct (OpenFacts.alter_write_in_dir "" name P _ es1 Hes1 Hname) as [o' Ho'].
  assert (Hne : P ++ [name] <> []) by (now destruct P).
  destruct (alter_root_Dir false _ _ _ _ Hne Ho') as [es2 ->].
  assert (Hopen : open_w out (set_fs w es) = (Ok tt, set_fs (set_fs w es) es2)).
  { unfold open_w, fs_alter, FS.resolve. rewrite Hn.
    change (cwd (set_fs w es)) with (cwd w). rewrite Hout.
    change (root (set_fs w es)) with (FS.Dir es). now rewrite Ho'. }
  eexists. split; [exact Hopen|].
  now apply (write_Ok lib _ _ _ _ Hopen).
Qed.

(** [out/sub] is made for [out/sub/b.svg]. *)
Lemma open_succeeds_after_makedirs_witness :
  exists w1,
    open_w (posixpath.join "out/sub" "b.svg")
      (snd (makedirs "out/sub" (toy_world svgs_tree))) = (Ok tt, w1)
    /\ fs_lookup w1 (posixpath.join "out/sub" "b.svg") = Some (FS.File "").
Proof.
  refine (open_succeeds_after_makedirs toy "out/sub" "b.svg" (toy_world svgs_tree)
            (snd (makedirs "out/sub" (toy_world svgs_tree))) _ _ _ _);
    vm_compute; reflexivity.
Defined.

(* ================================================================== *)
(** * [process_single_file]: what it leaves alone, and when it raises *)
(* ================================================================== *)

(** A system call keeps a regular file that it is not a call on, and
    [os.makedirs] keeps every regular file. *)
Lemma stable_file_fs_alter (lib : Collaborators) (I : list string) (data c : string)
    (mk : bool) (f : option FS.node -> exn + option FS.node) (path : string) :
  FS.keeps_dirs f ->
  (I = posixpath.abs_list c path ->
   forall x, f (Some (FS.File data)) = inr x -> x = Some (FS.File data)) ->
  preserves (stable lib I (FS.File data) c) (fs_alter mk f path).
Proof.
  intros Hf Hleaf w r w' [Hl Hc] H.
  destruct (fs_alter_cases lib mk f path w) as [[e He]|(p & es & Hr & Ha & He)];
    rewrite He in H; injection H as <- <-.
  - now split.
  - split; [|exact Hc].
    unfold FS.resolve in Hr. destruct (PyStr.nonempty path); [|discriminate].
    injection Hr as <-. rewrite Hc in Ha.
    exact (FileFrame.alter_lookup_file mk f _ I _ _ data Hf Hleaf Ha Hl).
Qed.

(** A regular file that [output_path] does not name is kept by
    [process_single_file]. *)
Lemma stable_file_process_single_file
    (lib : Collaborators) (I : list string) (data c : string)
    (input_path output_path : string) (scale : float) (width height : Z)
    (simplify : bool) (max_dist : Z) :
  I <> posixpath.abs_list c output_path ->
  preserves (stable lib I (FS.File data) c)
    (process_single_file input_path output_path scale width height simplify max_dist).
Proof.
  intros Hne. apply preserves_process_single_file.
  - intros w1 w2. apply stable_same_fs.
  - intros f Hf. apply stable_file_fs_alter; [exact Hf|].
    intros HI. exfalso. now apply Hne.
  - apply stable_file_fs_alter; [apply FrameFacts.mkdir_exist_ok_keeps_dirs|].
    intros _ x Hx. discriminate.
Qed.

(** X5. [process_single_file] changes no regular file other than the one at
    [output_path]: a file at another place of the file system holds after
    the call what it held before, however the call ends. So the input file
    is safe whenever the output path is not the input file. ([picosvg] is
    taken to write to its standard output only, and [save_svg] to write to
    the path it is given.) *)
Theorem process_single_file_keeps_other_files
    (lib : Collaborators) (input_path output_path : string) (scale : float)
    (width height : Z) (simplify : bool) (max_dist : Z)
    (w w' : world lib) (r : outcome bool) (path data : string) :
  fs_lookup w path = Some (FS.File data) ->
  components w path <> components w output_path ->
  process_single_file input_path output_path scale width height simplify max_dist w
    = (r, w') ->
  fs_lookup w' path = Some (FS.File data) /\ cwd w' = cwd w.
Proof.
  intros Hl Hne Hrun.
  assert (Hn : PyStr.nonempty path = true).
  { unfold fs_lookup, FS.resolve in Hl. now destruct (PyStr.nonempty path). }
  set (I := posixpath.abs_list (cwd w) path).
  assert (Hs : stable lib I (FS.File data) (cwd w) w).
  { split; [|reflexivity]. unfold fs_lookup, FS.resolve in Hl. now rewrite Hn in Hl. }
  pose proof (stable_file_process_single_file lib I data (cwd w) input_path output_path
                scale width height simplify max_dist Hne) as Hp.
  destruct (Hp w r w' Hs Hrun) as [Hl' Hc'].
  split; [|exact Hc'].
  unfold fs_lookup, FS.resolve. now rewrite Hn, Hc'.
Qed.

(** [/svgs/a.svg] processed to [/out/a.svg]: the input file is as it was. *)
Lemma process_single_file_keeps_other_files_witness :
  fs_lookup
    (snd (process_single_file "svgs/a.svg" "out/a.svg" 1%float 200 200 false 5
            (toy_world svgs_tree))) "svgs/a.svg" = Some (FS.File "<svg/>")
  /\ cwd (snd (process_single_file "svgs/a.svg" "out/a.svg" 1%float 200 200 false 5
                 (toy_world svgs_tree))) = cwd (toy_world svgs_tree).
Proof.
  refine (process_single_file_keeps_other_files toy "svgs/a.svg" "out/a.svg" 1%float
            200 200 false 5 (toy_world svgs_tree) _ (Ok true) "svgs/a.svg" "<svg/>"
            _ _ _).
  - vm_compute; reflexivity.
  - vm_compute. discriminate.
  - vm_compute; reflexivity.
Defined.

(** X6. [process_single_file] returns a Boolean or raises, and never exits the
    process. When it raises, [output_path] is a directory: the [except]
    block catches what the [try] block raised, and its [os.remove] fails on
    a directory only. *)
Theorem process_single_file_raises_only_on_directory
    (lib : Collaborators) (input_path output_path : string) (scale : float)
    (width height : Z) (simplify : bool) (max_dist : Z)
    (w w' : world lib) (r : outcome bool) :
  process_single_file input_path output_path scale width height simplify max_dist w
    = (r, w') ->
  (exists ok, r = Ok ok)
  \/ (exists e es, r = Raise e /\ fs_lookup w' output_path = Some (FS.Dir es)).
Proof.
  unfold process_single_file, try_except, try_except_cls.
  destruct (process_single_file_body input_path output_path scale width height
              simplify max_dist w) as [rb wb] eqn:Hbody.
  pose proof (returns_process_single_file_body lib _ _ _ _ _ _ _ _ _ _ Hbody) as Hrb.
  destruct rb as [b|e0|x|]; try contradiction.
  { intros H. injection H as <- <-. left. eauto. }
  unfold process_single_file_handler.
  rewrite bind_run, print_run. cbn [fst snd].
  set (w1 := printed wb _).
  rewrite bind_run, exists_run. cbn [fst snd].
  destruct (path_exists w1 output_path) eqn:Hex.
  2:{ intros H. injection H as <- <-. left. eauto. }
  rewrite bind_run.
  destruct (remove output_path w1) as [rr wr] eqn:Hrm. cbn [fst snd].
  pose proof (fs_alter_frame lib false FS.unlink output_path w1) as Hfr.
  cbv zeta in Hfr. fold (remove (lib:=lib) output_path) in Hfr. rewrite Hrm in Hfr.
  destruct Hfr as (_ & _ & _ & _ & _ & [Hok|(e & He & Hw)]); cbn [fst snd] in *.
  { subst rr. intros H. injection H as <- <-. left. eauto. }
  subst rr wr. intros H. injection H as <- <-. right.
  unfold path_exists in Hex.
  destruct (fs_lookup w1 output_path) as [[d|es]|] eqn:Hl; try discriminate.
  - exfalso.
    assert (Hfile : is_file w1 output_path = true) by (unfold is_file; now rewrite Hl).
    destruct (remove_file lib output_path w1 Hfile) as (w2 & Hrm2 & _).
    congruence.
  - now exists e, es.
Qed.

(** [/out/a.svg] is a directory: the call raises. *)
Lemma process_single_file_raises_only_on_directory_witness :
  fst (process_single_file "svgs/a.svg" "out/a.svg" 1%float 200 200 false 5
         (toy_world [("svgs", FS.Dir [("a.svg", FS.File "<svg/>")]);
                     ("out", FS.Dir [("a.svg", FS.Dir [])])]))
    = Raise IsADirectoryError
  /\ exists es,
       fs_lookup
         (snd (process_single_file "svgs/a.svg" "out/a.svg" 1%float 200 200 false 5
                 (toy_world [("svgs", FS.Dir [("a.svg", FS.File "<svg/>")]);
                             ("out", FS.Dir [("a.svg", FS.Dir [])])])))
         "out/a.svg" = Some (FS.Dir es).
Proof.
  split; [vm_compute; reflexivity|].
  destruct (process_single_file_raises_only_on_directory toy "svgs/a.svg" "out/a.svg"
              1%float 200 200 false 5
              (toy_world [("svgs", FS.Dir [("a.svg", FS.File "<svg/>")]);
                          ("out", FS.Dir [("a.svg", FS.Dir [])])])
              _ _ (surjective_pairing _)) as [[ok H]|(e & es & _ & H)].
  - vm_compute in H. discriminate.
  - now exists es.
Defined.



(** X8. [picosvg] cannot be started (the executable is missing): the exception
    of [subprocess.run] is not a [CalledProcessError], so it passes
    [preprocess_svg] and is caught by [process_single_file], which removes
    the output file that [open] created and returns [False]. *)
Theorem process_single_file_picosvg_not_started
    (lib : Collaborators) (input_path output_path : string) (scale : float)
    (width height : Z) (simplify : bool) (max_dist : Z)
    (w0 wa w1 : world lib) (e : exn) :
  makedirs (output_parent output_path) w0 = (Ok tt, wa) ->
  open_w output_path wa = (Ok tt, w1) ->
  picosvg lib (cwd w1) (root w1) input_path = NotStarted e ->
  is_CalledProcessError e = false ->
  exists w',
    process_single_file input_path output_path scale width height simplify max_dist w0
      = (Ok false, w')
    /\ path_exists w' output_path = false
    /\ calls w' = calls w0 ++ [CallPicosvg input_path]
    /\ heap w' = heap w0.
Proof.
  intros Hmk Hopen Hpico Hcls.
  pose proof (fs_alter_frame lib true FS.mkdir_exist_ok (output_parent output_path) w0)
    as Hfr. cbv zeta in Hfr. fold (makedirs (lib:=lib) (output_parent output_path)) in Hfr.
  rewrite Hmk in Hfr. destruct Hfr as (_ & Hheap_a & _ & _ & Hcalls_a & _).
  pose proof (write_is_file lib _ _ _ _ Hopen) as Hfile.
  pose proof (write_Ok lib _ _ _ _ Hopen) as (_ & _ & Hheap1 & _ & _ & Hcalls1).
  set (w2 := logged w1 (CallPicosvg input_path)).
  assert (Hfile2 : is_file w2 output_path = true)
    by (rewrite <- Hfile; apply is_file_same_fs; reflexivity).
  destruct (process_single_file_handler_file lib input_path output_path e w2 Hfile2)
    as (w' & Hh & Hgone & _ & Hheap & Hcalls).
  exists w'. split; [|split; [exact Hgone | split]].
  - unfold process_single_file, try_except, try_except_cls, process_single_file_body.
    rewrite (bind_Ok lib _ _ _ _ _ Hmk). rewrite bind_run.
    unfold preprocess_svg, try_except_cls.
    rewrite (bind_Ok lib _ _ _ _ _ Hopen).
    rewrite bind_run, subprocess_run_picosvg_run, Hpico. cbn [fst snd].
    rewrite Hcls. cbn [fst snd]. exact Hh.
  - rewrite Hcalls. simpl. rewrite Hcalls1. simpl in Hcalls_a. now rewrite Hcalls_a.
  - rewrite Hheap. simpl. rewrite Hheap1. exact Hheap_a.
Qed.

(** Without the executable, [/svgs/a.svg] fails and [/out/a.svg] is gone. *)
Lemma process_single_file_picosvg_not_started_witness :
  exists w',
    process_single_file "svgs/a.svg" "out/a.svg" 1%float 200 200 false 5
      (mkWorld no_picosvg svgs_tree "/" [] [] [] []) = (Ok false, w')
    /\ path_exists w' "out/a.svg" = false
    /\ calls w' = calls (mkWorld no_picosvg svgs_tree "/" [] [] [] [])
                  ++ [CallPicosvg "svgs/a.svg"]
    /\ heap w' = heap (mkWorld no_picosvg svgs_tree "/" [] [] [] []).
Proof.
  refine (process_single_file_picosvg_not_started no_picosvg "svgs/a.svg" "out/a.svg"
            1%float 200 200 false 5 (mkWorld no_picosvg svgs_tree "/" [] [] [] [])
            (snd (makedirs "out" (mkWorld no_picosvg svgs_tree "/" [] [] [] [])))
            (snd (open_w "out/a.svg"
                    (snd (makedirs "out" (mkWorld no_picosvg svgs_tree "/" [] [] [] [])))))
            FileNotFoundError _ _ _ _); vm_compute; reflexivity.
Defined.

(** X9. The directory of the output cannot be created (a regular file is in the
    way): the exception of [os.makedirs] is caught, the [except] block finds
    no output file to remove, and [process_single_file] returns [False].
    [picosvg] is not run, no output file is there afterwards, and one line
    was printed. Nothing is said of the directories [os.makedirs] made
    before it failed. *)
Theorem process_single_file_makedirs_failure
    (lib : Collaborators) (input_path output_path : string) (scale : float)
    (width height : Z) (simplify : bool) (max_dist : Z)
    (w w1 : world lib) (e : exn) :
  makedirs (output_parent output_path) w = (Raise e, w1) ->
  path_exists w output_path = false ->
  exists w' line,
    process_single_file input_path output_path scale width height simplify max_dist w
      = (Ok false, w')
    /\ path_exists w' output_path = false
    /\ calls w' = calls w /\ heap w' = heap w
    /\ stdout w' = stdout w ++ [line].
Proof.
  intros Hmk Hex.
  assert (Hw : w1 = w).
  { pose proof (fs_alter_frame lib true FS.mkdir_exist_ok (output_parent output_path) w)
      as Hfr.
    cbv zeta in Hfr. fold (makedirs (lib:=lib) (output_parent output_path)) in Hfr.
    rewrite Hmk in Hfr.
    destruct Hfr as (_ & _ & _ & _ & _ & [H|(e' & _ & H)]); [discriminate | exact H]. }
  subst w1.
  exists (printed w ("Error processing " +++ input_path +++ ": " +++ str_exn e)),
    ("Error processing " +++ input_path +++ ": " +++ str_exn e).
  split; [|split; [exact Hex | repeat split]].
  unfold process_single_file, try_except, try_except_cls, process_single_file_body.
  rewrite bind_run, Hmk. cbn [fst snd].
  unfold process_single_file_handler.
  rewrite bind_run, print_run. cbn [fst snd].
  rewrite bind_run, exists_run. cbn [fst snd].
  change (path_exists (printed w _) output_path) with (path_exists w output_path).
  rewrite Hex. reflexivity.
Qed.

(** [/svgs/notes.txt] is a regular file, not a directory. *)
Lemma process_single_file_makedirs_failure_witness :
  exists w' line,
    process_single_file "svgs/a.svg" "svgs/notes.txt/a.svg" 1%float 200 200 false 5
      (toy_world svgs_tree) = (Ok false, w')
    /\ path_exists w' "svgs/notes.txt/a.svg" = false
    /\ calls w' = calls (toy_world svgs_tree)
    /\ heap w' = heap (toy_world svgs_tree)
    /\ stdout w' = stdout (toy_world svgs_tree) ++ [line].
Proof.
  refine (process_single_file_makedirs_failure toy "svgs/a.svg" "svgs/notes.txt/a.svg"
            1%float 200 200 false 5 (toy_world svgs_tree) (toy_world svgs_tree)
            FileExistsError _ _); vm_compute; reflexivity.
Defined.

Section FailureFacts.

Variable lib : Collaborators.

(** After [os.remove] has returned, the path is gone. *)
Lemma remove_Ok_gone (path : string) (w w' : world lib) :
  remove path w = (Ok tt, w') -> path_exists w' path = false.
Proof.
  intros H. unfold remove in H.
  destruct (fs_alter_cases lib false FS.unlink path w)
    as [[e He]|(p & es & Hr & Ha & He)]; rewrite He in H; [discriminate|].
  injection H as <-. unfold path_exists, fs_lookup.
  change (cwd (set_fs w es)) with (cwd w). rewrite Hr.
  apply FSFacts.alter_lookup_same in Ha.
  change (root (set_fs w es)) with (FS.Dir es).
  destruct (FS.lookup p (Some (root w))) as [[d|es0]|]; try discriminate.
  simpl in Ha. injection Ha as <-. reflexivity.
Qed.

(** Lines 107-114 do not return [False]. *)
Lemma load_process_save_not_false (output_path : string) (scale : float)
    (width height : Z) (simplify : bool) (max_dist : Z) (w w' : world lib) :
  load_process_save output_path scale width height simplify max_dist w <> (Ok false, w').
Proof.
  unfold load_process_save. intros H.
  apply bind_Ok_inv in H as (svg & w1 & _ & H).
  apply bind_Ok_inv in H as (svg' & w2 & _ & H).
  apply bind_Ok_inv in H as ([] & w3 & _ & H).
  apply bind_Ok_inv in H as ([] & w4 & _ & H).
  discriminate.
Qed.

End FailureFacts.

(** X10. A failed call leaves an output file behind on one path only. When
    [process_single_file] returns [False], the output path does not exist
    afterwards, unless it was [preprocess_svg] that returned [False] (lines
    97-99, taken when [picosvg] exits with a non-zero status): the file that
    [open] created is then left as [preprocess_svg] left it. *)
Theorem process_single_file_failure_leaves_no_file
    (lib : Collaborators) (input_path output_path : string) (scale : float)
    (width height : Z) (simplify : bool) (max_dist : Z) (w w' : world lib) :
  process_single_file input_path output_path scale width height simplify max_dist w
    = (Ok false, w') ->
  path_exists w' output_path = false
  \/ exists wa wb,
       makedirs (output_parent output_path) w = (Ok tt, wa)
       /\ preprocess_svg input_path output_path wa = (Ok false, wb)
       /\ fs w' = fs wb.
Proof.
  unfold process_single_file, try_except, try_except_cls.
  destruct (process_single_file_body input_path output_path scale width height
              simplify max_dist w) as [rb wb'] eqn:Hbody.
  destruct rb as [b|e|x|]; intros H; try discriminate.
  - injection H as -> ->.
    unfold process_single_file_body in Hbody.
    apply bind_Ok_inv in Hbody as ([] & wa & Hmk & Hbody).
    apply bind_Ok_inv in Hbody as (ok & wb & Hpre & Hbody).
    destruct ok; cbn [negb] in Hbody.
    + left.
      apply bind_Ok_inv in Hbody as (size & wb1 & Hsize & Hbody).
      destruct (size =? 0)%Z.
      * apply bind_Ok_inv in Hbody as ([] & w1 & _ & Hbody).
        apply bind_Ok_inv in Hbody as ([] & w2 & Hrm & Hbody).
        injection Hbody as <-. exact (remove_Ok_gone lib _ _ _ Hrm).
      * exfalso. exact (load_process_save_not_false lib _ _ _ _ _ _ _ _ Hbody).
    + right. exists wa, wb. split; [exact Hmk|]. split; [exact Hpre|].
      apply bind_Ok_inv in Hbody as ([] & w1 & Hpr & Hbody).
      injection Hbody as <-. rewrite print_run in Hpr. now injection Hpr as <-.
  - left. unfold process_single_file_handler in H.
    apply bind_Ok_inv in H as ([] & w1 & Hpr & H).
    rewrite print_run in Hpr. injection Hpr as <-.
    apply bind_Ok_inv in H as (ex & w2 & Hex & H).
    rewrite exists_run in Hex. injection Hex as <- <-.
    apply bind_Ok_inv in H as ([] & w3 & Hrm & H). injection H as <-.
    destruct (path_exists (printed wb' _) output_path) eqn:E.
    + exact (remove_Ok_gone lib _ _ _ Hrm).
    + injection Hrm as <-. exact E.
Qed.

(** The library cannot parse [/svgs/u.svg]: [/out/u.svg] is removed. *)
Lemma process_single_file_failure_leaves_no_file_witness :
  fst (process_single_file "svgs/u.svg" "out/u.svg" 1%float 200 200 false 5
         (toy_world unparsable_tree)) = Ok false
  /\ (path_exists
        (snd (process_single_file "svgs/u.svg" "out/u.svg" 1%float 200 200 false 5
                (toy_world unparsable_tree))) "out/u.svg" = false
      \/ exists wa wb,
           makedirs (output_parent "out/u.svg") (toy_world unparsable_tree) = (Ok tt, wa)
           /\ preprocess_svg "svgs/u.svg" "out/u.svg" wa = (Ok false, wb)
           /\ fs (snd (process_single_file "svgs/u.svg" "out/u.svg" 1%float 200 200
                         false 5 (toy_world unparsable_tree))) = fs wb).
Proof.
  split; [vm_compute; reflexivity|].
  refine (process_single_file_failure_leaves_no_file toy "svgs/u.svg" "out/u.svg" 1%float
            200 200 false 5 (toy_world unparsable_tree) _ _).
  vm_compute; reflexivity.
Defined.

(* ================================================================== *)
(** * [process_single_file]: the run that succeeds *)
(* ================================================================== *)

Section SuccessRun.

Variable lib : Collaborators.

(** [process_svg] on an object whose methods all go through. *)
Lemma process_svg_run_Ok (svg : nat) (scale : float) (width height : Z)
    (simplify : bool) (max_dist : Z) (w : world lib) (d d' : doc lib) :
  nth_error (heap w) svg = Some d ->
  svg_transform lib scale width height simplify max_dist d = inr d' ->
  process_svg svg scale width height simplify max_dist w
  = (Ok svg,
     mkWorld lib (fs w) (cwd w) (list_set svg d' (heap w)) (stdout w) (stderr w)
       (calls w ++ process_svg_calls svg scale width height simplify max_dist)).
Proof.
  intros Hd Ht. rewrite process_svg_as_run, bind_run.
  pose proof (run_methods_heap lib svg
    (process_svg_steps lib svg scale width height simplify max_dist) w d Hd) as Hh.
  rewrite process_svg_steps_transform, Ht in Hh. destruct Hh as [Hok Hheap].
  pose proof (run_methods_calls lib svg
    (process_svg_steps lib svg scale width height simplify max_dist) w)
    as (_ & Hall & _ & Hfs & Hcwd & Hout & Herr).
  rewrite Hok. unfold ret. f_equal.
  apply world_ext; cbn [fs cwd heap stdout stderr calls]; auto.
  rewrite (Hall Hok). now rewrite process_svg_steps_calls.
Qed.

(** [svg.save_svg(path)] onto a regular file, when serialising does not
    raise. *)
Lemma SVG_save_svg_Ok (svg : nat) (path : string) (w : world lib) (d : doc lib) :
  is_file w path = true ->
  nth_error (heap w) svg = Some d ->
  snd (to_file lib d) = None ->
  exists w',
    SVG_save_svg svg path w = (Ok tt, w')
    /\ fs_lookup w' path = Some (FS.File (fst (to_file lib d)))
    /\ cwd w' = cwd w /\ heap w' = heap w /\ stdout w' = stdout w
    /\ calls w' = calls w ++ [CallSave svg path].
Proof.
  intros Hfile Hd Herr.
  destruct (write_file_succeeds lib path "" (logged w (CallSave svg path)))
    as [w1 Hw1]; [exact Hfile|].
  pose proof (write_is_file lib _ _ _ _ Hw1) as Hfile1.
  pose proof (write_Ok lib _ _ _ _ Hw1) as (_ & Hcwd1 & Hheap1 & Hout1 & _ & Hcalls1).
  destruct (write_file_succeeds lib path (fst (to_file lib d)) w1) as [w2 Hw2];
    [exact Hfile1|].
  pose proof (write_Ok lib _ _ _ _ Hw2) as (Hl2 & Hcwd2 & Hheap2 & Hout2 & _ & Hcalls2).
  exists w2. split.
  - unfold SVG_save_svg. rewrite bind_run, log_call_run. cbn [fst snd].
    change (heap (logged w (CallSave svg path))) with (heap w). rewrite Hd.
    unfold open_w, write.
    rewrite (bind_Ok lib _ _ _ _ _ Hw1), (bind_Ok lib _ _ _ _ _ Hw2).
    now rewrite Herr.
  - split; [exact Hl2|].
    rewrite Hcwd2, Hheap2, Hout2, Hcalls2, Hcwd1, Hheap1, Hout1, Hcalls1.
    repeat split; reflexivity.
Qed.

(** [preprocess_svg] once the file is open and [picosvg] has run. *)
Lemma preprocess_svg_Completed (input_path output_path : string) (w w1 : world lib)
    (out : string) (returncode : Z) :
  open_w output_path w = (Ok tt, w1) ->
  picosvg lib (cwd w1) (root w1) input_path = Completed out returncode ->
  exists w2,
    write output_path out (logged w1 (CallPicosvg input_path)) = (Ok tt, w2)
    /\ preprocess_svg input_path output_path w
       = (Ok (returncode =? 0)%Z,
          printed w2
            (if (returncode =? 0)%Z then "Preprocessed SVG saved to " +++ output_path
             else "Error preprocessing " +++ input_path +++ ": " +++
                  str_exn (CalledProcessError returncode))).
Proof.
  intros Hopen Hpico.
  pose proof (write_is_file lib _ _ _ _ Hopen) as Hfile.
  destruct (write_file_succeeds lib output_path out (logged w1 (CallPicosvg input_path)))
    as [w2 Hw2]; [exact Hfile|].
  exists w2. split; [exact Hw2|].
  assert (Hrun : subprocess_run_picosvg input_path output_path w1
                 = if (returncode =? 0)%Z then (Ok tt, w2)
                   else (Raise (CalledProcessError returncode), w2)).
  { rewrite subprocess_run_picosvg_run, Hpico. unfold write in Hw2. unfold write.
    now rewrite Hw2. }
  unfold preprocess_svg, try_except_cls.
  rewrite (bind_Ok lib _ _ _ _ _ Hopen). rewrite bind_run, Hrun.
  destruct (returncode =? 0)%Z; reflexivity.
Qed.

End SuccessRun.

(** X11. The run that succeeds. When the output file can be opened, [picosvg]
    exits with status 0 and writes something, the library parses it, every
    method of [process_svg] goes through and the document is serialised,
    [process_single_file] returns [True]. The output file then holds the
    serialised, transformed document; the calls are [picosvg], [load_svg],
    the methods in their order and [save_svg]; two lines were printed. *)
Theorem process_single_file_success
    (lib : Collaborators) (input_path output_path : string) (scale : float)
    (width height : Z) (simplify : bool) (max_dist : Z)
    (w0 wa w1 : world lib) (out bytes : string) (d d' : doc lib) :
  makedirs (output_parent output_path) w0 = (Ok tt, wa) ->
  open_w output_path wa = (Ok tt, w1) ->
  picosvg lib (cwd w1) (root w1) input_path = Completed out 0%Z ->
  out <> "" ->
  from_str lib out = inr d ->
  svg_transform lib scale width height simplify max_dist d = inr d' ->
  to_file lib d' = (bytes, None) ->
  exists w',
    process_single_file input_path output_path scale width height simplify max_dist w0
      = (Ok true, w')
    /\ fs_lookup w' output_path = Some (FS.File bytes)
    /\ heap w' = heap w0 ++ [d']
    /\ calls w'
       = calls w0 ++ [CallPicosvg input_path; CallLoad output_path]
         ++ process_svg_calls (List.length (heap w0)) scale width height simplify max_dist
         ++ [CallSave (List.length (heap w0)) output_path]
    /\ stdout w'
       = stdout w0 ++ ["Preprocessed SVG saved to " +++ output_path;
                       "Saved processed SVG to " +++ output_path].
Proof.
  intros Hmk Hopen Hpico Hout Hparse Htrans Hser.
  pose proof (fs_alter_frame lib true FS.mkdir_exist_ok (output_parent output_path) w0)
    as Hfr. cbv zeta in Hfr. fold (makedirs (lib:=lib) (output_parent output_path)) in Hfr.
  rewrite Hmk in Hfr. destruct Hfr as (_ & Hheap_a & Hout_a & _ & Hcalls_a & _).
  cbn [fst snd] in *.
  pose proof (write_Ok lib _ _ _ _ Hopen) as (_ & _ & Hheap1 & Hout1 & _ & Hcalls1).
  destruct (preprocess_svg_Completed lib input_path output_path wa w1 out 0%Z Hopen Hpico)
    as (w2 & Hw2 & Hpre).
  cbn [Z.eqb] in Hpre.
  pose proof (write_Ok lib _ _ _ _ Hw2) as (Hl2 & _ & Hheap2 & Hout2 & _ & Hcalls2).
  set (wb := printed w2 ("Preprocessed SVG saved to " +++ output_path)) in *.
  assert (Hlb : fs_lookup wb output_path = Some (FS.File out)) by exact Hl2.
  assert (Hheap_b : heap wb = heap w0).
  { change (heap wb) with (heap w2). rewrite Hheap2. simpl. now rewrite Hheap1. }
  assert (Hcalls_b : calls wb = calls w0 ++ [CallPicosvg input_path]).
  { change (calls wb) with (calls w2). rewrite Hcalls2. simpl. now rewrite Hcalls1, Hcalls_a. }
  assert (Hout_b : stdout wb = stdout w0 ++ ["Preprocessed SVG saved to " +++ output_path]).
  { unfold wb. simpl. rewrite Hout2. simpl. now rewrite Hout1, Hout_a. }
  (* lines 102 and 108 *)
  assert (Hsize : getsize output_path wb = (Ok (Z.of_nat (String.length out)), wb)).
  { rewrite getsize_run, Hlb. reflexivity. }
  assert (Hnz : (Z.of_nat (String.length out) =? 0)%Z = false).
  { destruct out; [congruence|]. reflexivity. }
  set (n := List.length (heap w0)).
  set (w3 := set_heap (logged wb (CallLoad output_path)) (heap wb ++ [d])).
  assert (Hload : SVG_load_svg output_path wb = (Ok n, w3)).
  { rewrite SVG_load_svg_run, Hlb, Hparse. unfold n. now rewrite <- Hheap_b. }
  assert (Hd3 : nth_error (heap w3) n = Some d).
  { change (heap w3) with (heap wb ++ [d]). unfold n. rewrite <- Hheap_b.
    rewrite nth_error_app2 by lia. now rewrite Nat.sub_diag. }
  pose proof (process_svg_run_Ok lib n scale width height simplify max_dist w3 d d'
                Hd3 Htrans) as Hproc.
  set (w4 := mkWorld lib (fs w3) (cwd w3) (list_set n d' (heap w3)) (stdout w3) (stderr w3)
               (calls w3 ++ process_svg_calls n scale width height simplify max_dist)) in *.
  assert (Hfile4 : is_file w4 output_path = true).
  { unfold is_file. change (fs_lookup w4 output_path) with (fs_lookup wb output_path).
    now rewrite Hlb. }
  assert (Hd4 : nth_error (heap w4) n = Some d').
  { unfold w4. simpl. now apply (nth_error_list_set _ _ d). }
  assert (Herr : snd (to_file lib d') = None) by (now rewrite Hser).
  destruct (SVG_save_svg_Ok lib n output_path w4 d' Hfile4 Hd4 Herr)
    as (w5 & Hsave & Hl5 & _ & Hheap5 & Hout5 & Hcalls5).
  exists (printed w5 ("Saved processed SVG to " +++ output_path)).
  split; [|split; [|split; [|split]]].
  - unfold process_single_file, try_except, try_except_cls, process_single_file_body.
    rewrite (bind_Ok lib _ _ _ _ _ Hmk), (bind_Ok lib _ _ _ _ _ Hpre).
    cbn [negb]. rewrite (bind_Ok lib _ _ _ _ _ Hsize), Hnz.
    unfold load_process_save.
    rewrite (bind_Ok lib _ _ _ _ _ Hload), (bind_Ok lib _ _ _ _ _ Hproc),
      (bind_Ok lib _ _ _ _ _ Hsave).
    reflexivity.
  - change (fs_lookup (printed w5 _) output_path) with (fs_lookup w5 output_path).
    rewrite Hl5, Hser. reflexivity.
  - change (heap (printed w5 ("Saved processed SVG to " +++ output_path))) with (heap w5).
    rewrite Hheap5. change (heap w4) with (list_set n d' (heap wb ++ [d])).
    rewrite Hheap_b. clear. unfold n.
    induction (heap w0) as [|x l IH]; simpl; [reflexivity|]. now rewrite IH.
  - change (calls (printed w5 ("Saved processed SVG to " +++ output_path))) with (calls w5).
    rewrite Hcalls5.
    change (calls w4)
      with ((calls wb ++ [CallLoad output_path])
            ++ process_svg_calls n scale width height simplify max_dist).
    rewrite Hcalls_b. rewrite <- !app_assoc. reflexivity.
  - change (stdout (printed w5 ("Saved processed SVG to " +++ output_path)))
      with (stdout w5 ++ ["Saved processed SVG to " +++ output_path]).
    rewrite Hout5. change (stdout w4) with (stdout wb).
    rewrite Hout_b. rewrite <- app_assoc. reflexivity.
Qed.

(** [/svgs/a.svg] with [simplify] set. *)
Lemma process_single_file_success_witness :
  exists w',
    process_single_file "svgs/a.svg" "out/a.svg" 1%float 200 100 true 5
      (toy_world svgs_tree) = (Ok true, w')
    /\ fs_lookup w' "out/a.svg" = Some (FS.File "<svg/>")
    /\ heap w' = heap (toy_world svgs_tree) ++ [Toy (Bbox 200 100) "<svg/>"]
    /\ calls w'
       = calls (toy_world svgs_tree) ++ [CallPicosvg "svgs/a.svg"; CallLoad "out/a.svg"]
         ++ process_svg_calls (List.length (heap (toy_world svgs_tree))) 1%float 200 100
              true 5
         ++ [CallSave (List.length (heap (toy_world svgs_tree))) "out/a.svg"]
    /\ stdout w'
       = stdout (toy_world svgs_tree)
         ++ ["Preprocessed SVG saved to " +++ "out/a.svg";
             "Saved processed SVG to " +++ "out/a.svg"].
Proof.
  refine (process_single_file_success toy "svgs/a.svg" "out/a.svg" 1%float 200 100 true 5
            (toy_world svgs_tree)
            (snd (makedirs "out" (toy_world svgs_tree)))
            (snd (open_w "out/a.svg" (snd (makedirs "out" (toy_world svgs_tree)))))
            "<svg/>" "<svg/>" (Toy (Bbox 24 24) "<svg/>") (Toy (Bbox 200 100) "<svg/>")
            _ _ _ _ _ _ _); try (vm_compute; reflexivity).
  discriminate.
Defined.

(* ================================================================== *)
(** * The walk as a loop over the files of the input tree *)
(* ================================================================== *)

(** ** The list of the files of a tree *)

Module ListedFacts.
Import FS FSFacts.

Lemma svg_files_cons_file (name data : string) (l : entries) :
  svg_files (Dir ((name, File data) :: l))
  = (if PyStr.endswith name ".svg" then [[name]] else []) ++ svg_files (Dir l).
Proof.
  cbn [svg_files flat_map map app]. unfold nondir_names.
  cbn [filter snd is_dir negb map fst].
  destruct (PyStr.endswith name ".svg"); reflexivity.
Qed.

Lemma length_svg_files_dir (name : string) (es l : entries) :
  List.length (svg_files (Dir ((name, Dir es) :: l)))
  = (List.length (svg_files (Dir es)) + List.length (svg_files (Dir l)))%nat.
Proof.
  cbn [svg_files flat_map]. unfold nondir_names. cbn [filter snd is_dir negb].
  rewrite !length_app, !length_map. cbn [svg_files]. rewrite !length_app, !length_map.
  lia.
Qed.

(** The list has one entry for each file that [count_svg] counts. *)
Lemma length_svg_files (k : nat) :
  forall n, (depth n < k)%nat -> List.length (svg_files n) = count_svg n.
Proof.
  induction k as [|k IH]; intros n Hk; [lia|].
  destruct n as [d|es]; [reflexivity|].
  induction es as [|[name ch] es IHes]; [reflexivity|].
  assert (Hch : (depth ch < k)%nat).
  { pose proof (TreeFacts.depth_child name ch ((name, ch) :: es) (or_introl eq_refl)). lia. }
  assert (Hes : (depth (Dir es) < S k)%nat).
  { rewrite TreeFacts.depth_cons in Hk. lia. }
  destruct ch as [d|sub].
  - rewrite svg_files_cons_file, length_app, TreeFacts.count_svg_file, (IHes Hes).
    now destruct (PyStr.endswith name ".svg").
  - rewrite length_svg_files_dir, TreeFacts.count_svg_dir, (IHes Hes), (IH _ Hch).
    reflexivity.
Qed.

(** The files of a directory tree: those of the directory, then those below
    its sub-directories, looked up by name. *)
Lemma svg_files_split_gen (es all : entries) :
  (forall k n, In (k, n) es -> get_entry k all = Some n) ->
  flat_map (fun kn : string * node =>
              let (name, child) := kn in map (cons name) (svg_files child)) es
  = svg_files_below all (dir_names es).
Proof.
  induction es as [|[k n] es IH]; intros Hall; [reflexivity|].
  assert (IH' := IH (fun k' n' H => Hall k' n' (or_intror H))).
  cbn [flat_map]. rewrite IH'. unfold dir_names, svg_files_below.
  destruct n as [d|l]; cbn [filter is_dir snd map fst flat_map svg_files app].
  - reflexivity.
  - now rewrite (Hall k (Dir l) (or_introl eq_refl)).
Qed.

Lemma svg_files_split (es : entries) :
  wf_node (Dir es) = true ->
  svg_files (Dir es)
  = map (fun name => [name])
      (filter (fun name => PyStr.endswith name ".svg") (nondir_names es))
    ++ svg_files_below es (dir_names es).
Proof.
  intros Hwf. cbn [svg_files]. f_equal. apply svg_files_split_gen.
  intros k n Hin. now destruct (TreeFacts.wf_node_child k n es Hwf Hin) as (_ & _ & H).
Qed.

(** The names that lead to a file of a well-formed tree are names a
    directory entry can have. *)
Lemma svg_files_valid (k : nat) :
  forall n, (depth n < k)%nat -> wf_node n = true ->
    Forall (Forall (fun name => valid_name name = true)) (svg_files n).
Proof.
  induction k as [|k IH]; intros n Hk Hwf; [lia|].
  destruct n as [d|es]; [constructor|].
  cbn [svg_files]. apply Forall_app. split.
  - apply Forall_forall. intros x Hx. apply in_map_iff in Hx as (name & <- & Hin).
    apply filter_In in Hin as [Hin _].
    destruct (TreeFacts.nondir_names_In name es Hin) as [n Hn].
    destruct (TreeFacts.wf_node_child name n es Hwf Hn) as (Hv & _).
    now repeat constructor.
  - apply Forall_forall. intros x Hx. apply in_flat_map in Hx as ([name ch] & Hin & Hx).
    apply in_map_iff in Hx as (y & <- & Hy).
    destruct (TreeFacts.wf_node_child name ch es Hwf Hin) as (Hv & Hw & _).
    pose proof (TreeFacts.depth_child name ch es Hin) as Hd.
    constructor; [exact Hv|].
    assert (Hall := IH ch ltac:(lia) Hw). rewrite Forall_forall in Hall. now apply Hall.
Qed.

End ListedFacts.

Section MonadLoops.

Variable lib : Collaborators.

Lemma for_each_app {A B} (l1 l2 : list B) (body : B -> A -> M lib A) (acc : A)
    (w : world lib) :
  for_each (l1 ++ l2) body acc w
  = (acc' <- for_each l1 body acc ;; for_each l2 body acc') w.
Proof.
  revert acc w. induction l1 as [|x l1 IH]; intros acc w; cbn [for_each app].
  - reflexivity.
  - unfold bind.
    destruct (body x acc w) as [[a|e|c|] w1]; try reflexivity.
    rewrite IH. reflexivity.
Qed.

Lemma scandir_world (top : string) (w w' : world lib)
    (r : outcome (option (list string * list string))) :
  scandir top w = (r, w') -> w' = w /\ exists listing, r = Ok listing.
Proof.
  unfold scandir.
  destruct (fs_lookup w top) as [[d|es]|]; intros [= <- <-]; split; eauto.
Qed.

End MonadLoops.

(** ** The walk and the loop *)

Section FlatWalk.

Import PyStr posixpath WalkPaths.

Variable lib : Collaborators.
Variables input_dir output_dir : string.
Variable scale : float.
Variables width height : Z.
Variable simplify : bool.
Variable max_dist : Z.

Variable c : string.
Variable T : FS.node.

Hypothesis cwd_abs : startswith_sep c = true.
Hypothesis input_nonempty : nonempty input_dir = true.
Hypothesis apart :
  FS.is_prefix (abs_norm (abs_of c input_dir)) (abs_norm (abs_of c output_dir)) = false
  /\ FS.is_prefix (abs_norm (abs_of c output_dir)) (abs_norm (abs_of c input_dir)) = false.

Local Abbreviation I := (abs_norm (abs_of c input_dir)).
Local Abbreviation valid_names := (Forall (fun name => FS.valid_name name = true)).
Local Abbreviation listed :=
  (process_listed (lib:=lib) input_dir output_dir scale width height simplify max_dist).
Local Abbreviation walk_files :=
  (fun (root : string) (_ files : list string) (counts' : Z * Z) =>
     for_each files
       (process_directory_file (lib:=lib) input_dir output_dir scale width height
          simplify max_dist root)
       counts').

(** For a file of the walk, the loop body is the body of the loop over the
    listed files. *)
Lemma process_directory_file_listed (ds : list string) (filename : string)
    (counts : Z * Z) (w : world lib) :
  cwd w = c -> valid_names ds -> FS.valid_name filename = true ->
  endswith filename ".svg" = true ->
  process_directory_file input_dir output_dir scale width height simplify max_dist
    (join_all input_dir ds) filename counts w
  = process_listed_file input_dir output_dir scale width height simplify max_dist
      (ds ++ [filename]) counts w.
Proof.
  intros Hc Hd Hn Hsvg. unfold process_directory_file, process_listed_file.
  destruct counts as [s f]. rewrite Hsvg. cbn [negb fst snd].
  rewrite (bind_Ok lib _ _ _ _ _
             (batch_output_path_run lib input_dir output_dir c cwd_abs apart ds filename w
                Hc Hd Hn)).
  rewrite <- (join_all_rel output_dir (ds ++ [filename]))
    by (try (now apply valid_names_snoc); now destruct ds).
  now rewrite (join_all_snoc input_dir ds filename).
Qed.

(** The inner loop over the names of one directory. *)
Lemma files_listed (ds names : list string) :
  valid_names ds -> valid_names names ->
  forall (counts : Z * Z) (w : world lib),
    stable lib I T c w ->
    for_each names
      (process_directory_file input_dir output_dir scale width height simplify max_dist
         (join_all input_dir ds))
      counts w
    = listed (map (fun name => ds ++ [name])
                (filter (fun name => endswith name ".svg") names)) counts w.
Proof.
  intros Hd. induction names as [|name names IH]; intros Hn counts w Hs; [reflexivity|].
  inversion Hn as [|? ? Hname Hrest]; subst.
  cbn [for_each filter].
  destruct (endswith name ".svg") eqn:Hsvg.
  - cbn [map]. unfold process_listed. cbn [for_each]. unfold bind.
    rewrite (process_directory_file_listed ds name counts w (proj2 Hs) Hd Hname Hsvg).
    destruct (process_listed_file input_dir output_dir scale width height simplify
                max_dist (ds ++ [name]) counts w) as [r w1] eqn:E.
    destruct r as [counts1| | |]; try reflexivity.
    apply (IH Hrest).
    rewrite <- (process_directory_file_listed ds name counts w (proj2 Hs) Hd Hname Hsvg)
      in E.
    destruct counts as [s f].
    exact (proj1 (triple_process_directory_file lib input_dir output_dir scale width height
                    simplify max_dist c T cwd_abs apart ds name s f Hd Hname
                    w _ w1 Hs E)).
  - unfold bind. unfold process_directory_file at 1. destruct counts as [s f].
    rewrite Hsvg. cbn [negb]. unfold ret. now apply IH.
Qed.

(** The walk below a directory of the input tree is the loop over the
    [.svg] files of that directory's tree, as it was before the walk. *)
Lemma os_walk_listed (fuel : nat) :
  forall (ds : list string) (sub : FS.node) (counts : Z * Z) (w : world lib),
    valid_names ds -> FS.lookup ds (Some T) = Some sub ->
    FS.wf_node sub = true -> (FS.depth sub < fuel)%nat ->
    stable lib I T c w ->
    os_walk fuel (join_all input_dir ds) walk_files counts w
    = listed (map (app ds) (svg_files sub)) counts w.
Proof.
  induction fuel as [|fuel IH]; intros ds sub counts w Hd Hsub Hwf Hdepth Hs; [lia|].
  cbn [os_walk]. unfold bind at 1.
  destruct (scandir (join_all input_dir ds) w) as [rl wl] eqn:Hsc.
  destruct (scandir_world lib _ _ _ _ Hsc) as [-> [listing ->]].
  pose proof (triple_scandir lib input_dir c T cwd_abs input_nonempty ds sub Hd Hsub
                w _ w Hs Hsc) as [_ Hrl].
  cbv beta iota in Hrl. subst listing.
  destruct sub as [data|es]; [reflexivity|].
  rewrite (ListedFacts.svg_files_split es Hwf), map_app, map_map.
  unfold process_listed. rewrite for_each_app.
  assert (Hnames : valid_names (FS.nondir_names es)).
  { apply Forall_forall. intros name Hin.
    destruct (TreeFacts.nondir_names_In name es Hin) as [n Hn].
    now destruct (TreeFacts.wf_node_child name n es Hwf Hn). }
  unfold bind.
  pose proof (files_listed ds (FS.nondir_names es) Hd Hnames counts w Hs) as Hfiles.
  unfold process_listed in Hfiles |- *. rewrite Hfiles.
  destruct (for_each (map (fun name => ds ++ [name])
                        (filter (fun name => endswith name ".svg") (FS.nondir_names es)))
              (process_listed_file input_dir output_dir scale width height simplify
                 max_dist) counts w) as [r1 w1] eqn:E1.
  destruct r1 as [counts1| | |]; try reflexivity.
  assert (Hs1 : stable lib I T c w1).
  { exact (proj1 (triple_files lib input_dir output_dir scale width height simplify
                    max_dist c T cwd_abs apart ds (FS.nondir_names es) counts Hd Hnames
                    w _ w1 Hs Hfiles)). }
  assert (Hdirs : forall name, In name (FS.dir_names es) ->
            exists l, FS.get_entry name es = Some (FS.Dir l)
                      /\ FS.valid_name name = true
                      /\ FS.wf_node (FS.Dir l) = true
                      /\ (FS.depth (FS.Dir l) < fuel)%nat).
  { intros name Hin. destruct (TreeFacts.dir_names_In name es Hin) as [l Hl].
    destruct (TreeFacts.wf_node_child name _ es Hwf Hl) as (Hv & Hw & Hg).
    exists l. repeat split; auto.
    pose proof (TreeFacts.depth_child name _ es Hl). lia. }
  assert (Hloop : forall names counts2 w2,
            (forall name, In name names -> In name (FS.dir_names es)) ->
            stable lib I T c w2 ->
            for_each names
              (fun dirname acc =>
                 os_walk fuel (join (join_all input_dir ds) dirname) walk_files acc)
              counts2 w2
            = listed (map (app ds) (svg_files_below es names)) counts2 w2).
  { induction names as [|name names IHn]; intros counts2 w2 Hsubset Hs2; [reflexivity|].
    cbn [for_each]. unfold svg_files_below. cbn [flat_map]. fold (svg_files_below es names).
    destruct (Hdirs name (Hsubset name (or_introl eq_refl))) as (l & Hg & Hv & Hw & Hdp).
    rewrite Hg, map_app, map_map. unfold process_listed. rewrite for_each_app. fold listed.
    unfold bind. rewrite <- join_all_snoc.
    assert (Hsub' : FS.lookup (ds ++ [name]) (Some T) = Some (FS.Dir l)).
    { rewrite FSFacts.lookup_app, Hsub. simpl. now rewrite Hg. }
    pose proof (IH (ds ++ [name]) (FS.Dir l) counts2 w2 (valid_names_snoc ds name Hd Hv)
                  Hsub' Hw Hdp Hs2) as Hwalk.
    assert (Hmap : map (fun x => ds ++ name :: x) (svg_files (FS.Dir l))
                   = map (app (ds ++ [name])) (svg_files (FS.Dir l))).
    { apply map_ext. intros x. now rewrite <- app_assoc. }
    rewrite Hmap. unfold process_listed in Hwalk |- *. rewrite Hwalk.
    destruct (for_each (map (app (ds ++ [name])) (svg_files (FS.Dir l)))
                (process_listed_file input_dir output_dir scale width height simplify
                   max_dist) counts2 w2) as [r3 w3] eqn:E3.
    destruct r3 as [counts3| | |]; try reflexivity.
    apply IHn; [intros n Hn; apply Hsubset; now right|].
    exact (proj1 (triple_os_walk lib input_dir output_dir scale width height simplify
                    max_dist c T cwd_abs input_nonempty apart fuel (ds ++ [name]) (FS.Dir l)
                    counts2 (valid_names_snoc ds name Hd Hv) Hsub' Hw Hdp w2 _ w3 Hs2
                    Hwalk)). }
  exact (Hloop (FS.dir_names es) counts1 w1 (fun _ H => H) Hs1).
Qed.

(** [process_directory] is [os.makedirs] and then the loop over the [.svg]
    files the input directory held at the start. *)
Lemma process_directory_listed (fuel : nat) (w : world lib) :
  FS.wf_node T = true -> (FS.depth T < fuel)%nat ->
  stable lib I T c w ->
  process_directory fuel input_dir output_dir scale width height simplify max_dist w
  = (makedirs output_dir ;;; listed (svg_files T) (0%Z, 0%Z)) w.
Proof.
  intros Hwf Hdepth Hs. unfold process_directory, bind.
  destruct (makedirs output_dir w) as [r1 w1] eqn:E1.
  destruct r1 as [[]| | |]; try reflexivity.
  assert (Hs1 : stable lib I T c w1).
  { refine (proj1 (keeps_fs_alter lib I T c true FS.mkdir_exist_ok output_dir
                     FrameFacts.mkdir_exist_ok_keeps_dirs _ w _ w1 Hs E1)).
    rewrite abs_list_norm by exact cwd_abs. apply apart. }
  pose proof (os_walk_listed fuel [] T (0%Z, 0%Z) w1 (Forall_nil _) eq_refl Hwf Hdepth Hs1)
    as Hwalk.
  unfold join_all in Hwalk at 1. cbn [fold_left app] in Hwalk.
  rewrite map_id in Hwalk. exact Hwalk.
Qed.

End FlatWalk.

(** X12. The loop over the files of the initial tree. With the output directory
    and the input directory apart, [process_directory] is [os.makedirs] and
    then one call of [process_single_file] for each file with a name ending
    in [.svg] that the input tree held at the start, in the order of the
    top-down walk; the file at [input_dir] joined with the names that lead
    to it is written to [output_dir] joined with the same names. What the
    run writes is not picked up by the walk. The list has as many entries as
    [count_svg] counts. *)
Theorem process_directory_processes_initial_files
    (lib : Collaborators) (fuel : nat) (input_dir output_dir : string) (scale : float)
    (width height : Z) (simplify : bool) (max_dist : Z) (w : world lib) (T : FS.node) :
  PyStr.startswith_sep (cwd w) = true ->
  fs_lookup w input_dir = Some T ->
  FS.wf_node T = true ->
  FS.is_prefix (components w input_dir) (components w output_dir) = false ->
  FS.is_prefix (components w output_dir) (components w input_dir) = false ->
  (FS.depth T < fuel)%nat ->
  process_directory fuel input_dir output_dir scale width height simplify max_dist w
  = (makedirs output_dir ;;;
     process_listed input_dir output_dir scale width height simplify max_dist
       (svg_files T) (0%Z, 0%Z)) w
  /\ List.length (svg_files T) = FS.count_svg T.
Proof.
  intros Hc Hl Hwf Hio Hoi Hdepth.
  split; [|exact (ListedFacts.length_svg_files fuel T Hdepth)].
  assert (Hne : PyStr.nonempty input_dir = true).
  { unfold fs_lookup, FS.resolve in Hl. now destruct (PyStr.nonempty input_dir). }
  unfold components in Hio, Hoi.
  rewrite !WalkPaths.abs_list_norm in Hio, Hoi by exact Hc.
  apply (process_directory_listed lib input_dir output_dir scale width height simplify
           max_dist (cwd w) T Hc Hne (conj Hio Hoi) fuel w Hwf Hdepth).
  split; [|reflexivity]. unfold fs_lookup, FS.resolve in Hl. rewrite Hne in Hl.
  now rewrite WalkPaths.abs_list_norm in Hl by exact Hc.
Qed.

(** [/svgs] holds [a.svg] and [sub/b.svg]. *)
Lemma process_directory_processes_initial_files_witness :
  process_directory 5 "svgs" "out" 1%float 200 200 false 5 (toy_world svgs_tree)
  = (makedirs "out" ;;;
     process_listed "svgs" "out" 1%float 200 200 false 5
       [["a.svg"]; ["sub"; "b.svg"]] (0%Z, 0%Z)) (toy_world svgs_tree)
  /\ List.length [["a.svg"]; ["sub"; "b.svg"]] = 2%nat.
Proof.
  refine (process_directory_processes_initial_files toy 5 "svgs" "out" 1%float 200 200
            false 5 (toy_world svgs_tree)
            (FS.Dir [("a.svg", FS.File "<svg/>"); ("notes.txt", FS.File "text");
                     ("sub", FS.Dir [("b.svg", FS.File "broken")])])
            _ _ _ _ _ _); try (vm_compute; reflexivity).
  vm_compute. lia.
Defined.

(** ** A file that fails does not end the walk *)

(** [process_directory] as the loop over the files of the input tree, for a
    world that holds the tree [T] at [input_dir], apart from [output_dir]. *)
Lemma process_directory_as_loop
    (lib : Collaborators) (fuel : nat) (input_dir output_dir : string) (scale : float)
    (width height : Z) (simplify : bool) (max_dist : Z) (w : world lib) (T : FS.node) :
  PyStr.startswith_sep (cwd w) = true ->
  fs_lookup w input_dir = Some T ->
  FS.wf_node T = true ->
  FS.is_prefix (components w input_dir) (components w output_dir) = false ->
  FS.is_prefix (components w output_dir) (components w input_dir) = false ->
  (FS.depth T < fuel)%nat ->
  process_directory fuel input_dir output_dir scale width height simplify max_dist w
  = (makedirs output_dir ;;;
     process_listed input_dir output_dir scale width height simplify max_dist
       (svg_files T) (0%Z, 0%Z)) w.
Proof.
  intros Hc Hl Hwf Hio Hoi Hdepth.
  assert (Hne : PyStr.nonempty input_dir = true).
  { unfold fs_lookup, FS.resolve in Hl. now destruct (PyStr.nonempty input_dir). }
  unfold components in Hio, Hoi.
  rewrite !WalkPaths.abs_list_norm in Hio, Hoi by exact Hc.
  apply (process_directory_listed lib input_dir output_dir scale width height simplify
           max_dist (cwd w) T Hc Hne (conj Hio Hoi) fuel w Hwf Hdepth).
  split; [|reflexivity]. unfold fs_lookup, FS.resolve in Hl. rewrite Hne in Hl.
  now rewrite WalkPaths.abs_list_norm in Hl by exact Hc.
Qed.

(** C2. An exception raised while the document is loaded, transformed or
    saved (lines 107-114) is caught by [process_single_file]: the partial
    output file is removed and [False] is returned. In batch mode the
    exception does not pass that file. In the inner loop of
    [process_directory] the failure is counted and the loop goes on with the
    names that are left. For [process_directory] as a whole, on an input
    tree that lies apart from the output directory: when the walk has come
    to the file with the counters [(success_count, failure_count)], the run
    of [process_directory] is, from there on, the processing of the files
    that come after it in the walk, started with one failure more. *)
Theorem process_single_file_catches_library_exception
    (lib : Collaborators) (input_path output_path : string) (scale : float)
    (width height : Z) (simplify : bool) (max_dist : Z)
    (w0 wa wb wc : world lib) (size : Z) (e : exn) :
  makedirs (output_parent output_path) w0 = (Ok tt, wa) ->
  preprocess_svg input_path output_path wa = (Ok true, wb) ->
  getsize output_path wb = (Ok size, wb) ->
  size <> 0%Z ->
  load_process_save output_path scale width height simplify max_dist wb = (Raise e, wc) ->
  exists w',
    process_single_file input_path output_path scale width height simplify max_dist w0
      = (Ok false, w')
    /\ path_exists w' output_path = false
    /\ (forall (input_dir output_dir root filename : string) (rest : list string)
          (success_count failure_count : Z),
          input_path = posixpath.join root filename ->
          PyStr.endswith filename ".svg" = true ->
          batch_output_path input_dir output_dir root filename w0 = (Ok output_path, w0) ->
          for_each (filename :: rest)
            (process_directory_file input_dir output_dir scale width height simplify
               max_dist root)
            (success_count, failure_count) w0
          = for_each rest
              (process_directory_file input_dir output_dir scale width height simplify
                 max_dist root)
              (success_count, (failure_count + 1)%Z) w')
    /\ (forall (fuel : nat) (input_dir output_dir : string) (w : world lib) (T : FS.node)
          (files_before files_after : list (list string)) (names : list string)
          (success_count failure_count : Z),
          PyStr.startswith_sep (cwd w) = true ->
          fs_lookup w input_dir = Some T ->
          FS.wf_node T = true ->
          FS.is_prefix (components w input_dir) (components w output_dir) = false ->
          FS.is_prefix (components w output_dir) (components w input_dir) = false ->
          (FS.depth T < fuel)%nat ->
          svg_files T = files_before ++ names :: files_after ->
          input_path = posixpath.join_all input_dir names ->
          output_path = posixpath.join_all output_dir names ->
          (makedirs output_dir ;;;
           process_listed input_dir output_dir scale width height simplify max_dist
             files_before (0%Z, 0%Z)) w
          = (Ok (success_count, failure_count), w0) ->
          process_directory fuel input_dir output_dir scale width height simplify
            max_dist w
          = process_listed input_dir output_dir scale width height simplify max_dist
              files_after (success_count, (failure_count + 1)%Z) w').
Proof.
  intros Hmk Hpre Hsize Hnz Hlps.
  destruct (preprocess_svg_true lib _ _ _ _ Hpre) as (w1 & out & _ & _ & Hl & _).
  assert (Hfile_b : is_file wb output_path = true)
    by (unfold is_file; now rewrite Hl).
  destruct (load_process_save_keeps_file lib _ _ _ _ _ _ _ _ _ Hfile_b Hlps)
    as (Hfile_c & _ & _).
  destruct (process_single_file_handler_file lib input_path output_path e wc Hfile_c)
    as (w' & Hh & Hgone & _).
  assert (Hp : process_single_file input_path output_path scale width height
                 simplify max_dist w0 = (Ok false, w')).
  { unfold process_single_file, try_except, try_except_cls, process_single_file_body.
    rewrite (bind_Ok lib _ _ _ _ _ Hmk), (bind_Ok lib _ _ _ _ _ Hpre).
    cbn [negb]. rewrite (bind_Ok lib _ _ _ _ _ Hsize).
    destruct (Z.eqb_spec size 0); [contradiction|].
    rewrite Hlps. exact Hh. }
  exists w'. split; [exact Hp|]. split; [exact Hgone|]. split.
  - intros input_dir output_dir root filename rest s f Hin Hsvg Hout.
    subst input_path. cbn [for_each].
    rewrite (bind_Ok lib _ _ _ _ _
               (process_directory_file_counts lib input_dir output_dir scale width height
                  simplify max_dist root filename output_path s f false w0 w' Hsvg Hout Hp)).
    reflexivity.
  - intros fuel input_dir output_dir w T files_before files_after names s f
      Hc Hlook Hwf Hio Hoi Hdepth Hfiles Hin Hout Hreach.
    rewrite (process_directory_as_loop lib fuel input_dir output_dir scale width height
               simplify max_dist w T Hc Hlook Hwf Hio Hoi Hdepth), Hfiles.
    unfold bind in Hreach |- *.
    destruct (makedirs output_dir w) as [r1 w1']. destruct r1 as [[]| | |]; try discriminate.
    unfold process_listed in Hreach |- *. rewrite for_each_app. unfold bind.
    rewrite Hreach. cbn [for_each]. unfold bind. unfold process_listed_file at 1.
    unfold bind. rewrite <- Hin, <- Hout, Hp. reflexivity.
Qed.

(** The toy library cannot parse [/svgs/u.svg]; [/svgs/v.svg] comes after it
    and is processed: the run of [process_directory] ends with one success
    and one failure. *)
Lemma process_single_file_catches_library_exception_witness :
  exists w',
    process_single_file "svgs/u.svg" "out/u.svg" 1%float 200 200 false 5
      (snd (makedirs "out" (toy_world unparsable_tree))) = (Ok false, w')
    /\ path_exists w' "out/u.svg" = false
    /\ for_each ["u.svg"; "v.svg"]
         (process_directory_file "svgs" "out" 1%float 200 200 false 5 "svgs")
         (0%Z, 0%Z) (snd (makedirs "out" (toy_world unparsable_tree)))
       = for_each ["v.svg"]
           (process_directory_file "svgs" "out" 1%float 200 200 false 5 "svgs")
           (0%Z, 1%Z) w'
    /\ process_directory 5 "svgs" "out" 1%float 200 200 false 5
         (toy_world unparsable_tree)
       = process_listed "svgs" "out" 1%float 200 200 false 5 [["v.svg"]] (0%Z, 1%Z) w'
    /\ fst (process_directory 5 "svgs" "out" 1%float 200 200 false 5
              (toy_world unparsable_tree)) = Ok (1%Z, 1%Z).
Proof.
  destruct (process_single_file_catches_library_exception toy "svgs/u.svg" "out/u.svg"
              1%float 200 200 false 5
              (snd (makedirs "out" (toy_world unparsable_tree)))
              (snd (makedirs "out" (snd (makedirs "out" (toy_world unparsable_tree)))))
              (snd (preprocess_svg "svgs/u.svg" "out/u.svg"
                      (snd (makedirs "out" (toy_world unparsable_tree)))))
              (snd (load_process_save "out/u.svg" 1%float 200 200 false 5
                      (snd (preprocess_svg "svgs/u.svg" "out/u.svg"
                              (snd (makedirs "out" (toy_world unparsable_tree)))))))
              10%Z (LibraryError "not well-formed"))
    as (w' & Hp & Hgone & Hloop & Hwalk);
    [vm_compute; reflexivity | vm_compute; reflexivity | vm_compute; reflexivity
    | discriminate | vm_compute; reflexivity |].
  exists w'. split; [exact Hp|]. split; [exact Hgone|]. split; [|split].
  - apply (Hloop "svgs" "out" "svgs" "u.svg" ["v.svg"] 0%Z 0%Z);
      vm_compute; reflexivity.
  - apply (Hwalk 5%nat "svgs" "out" (toy_world unparsable_tree)
             (FS.Dir [("u.svg", FS.File "unparsable"); ("v.svg", FS.File "<svg/>")])
             [] [["v.svg"]] ["u.svg"] 0%Z 0%Z);
      try (vm_compute; reflexivity).
    vm_compute. lia.
  - vm_compute. reflexivity.
Defined.

Lemma is_prefix_app_r (p x : list string) : FS.is_prefix p (p ++ x) = true.
Proof. induction p as [|a p IH]; simpl; [reflexivity|]. now rewrite String.eqb_refl. Qed.

(** The loop over listed files keeps a regular file that is not below the
    output directory. *)
Lemma preserves_process_listed
    (lib : Collaborators) (input_dir output_dir : string) (scale : float)
    (width height : Z) (simplify : bool) (max_dist : Z)
    (c : string) (P : list string) (data : string)
    (files : list (list string)) (counts : Z * Z) :
  PyStr.startswith_sep c = true ->
  FS.is_prefix (posixpath.abs_norm (posixpath.abs_of c output_dir)) P = false ->
  Forall (Forall (fun name => FS.valid_name name = true)) files ->
  preserves (stable lib P (FS.File data) c)
    (process_listed input_dir output_dir scale width height simplify max_dist files counts).
Proof.
  intros Hc HP Hfiles. unfold process_listed.
  apply preserves_for_each_Forall.
  apply Forall_forall. intros names Hin counts'.
  rewrite Forall_forall in Hfiles. specialize (Hfiles names Hin).
  unfold process_listed_file.
  apply preserves_bind; [|intros ok; destruct ok; apply preserves_ret].
  apply preserves_process_single_file.
  - intros w1 w2. apply stable_same_fs.
  - intros f Hf. apply stable_file_fs_alter; [exact Hf|].
    intros HI. exfalso.
    rewrite WalkPaths.abs_list_norm, WalkPaths.abs_norm_join_all in HI by assumption.
    rewrite HI, is_prefix_app_r in HP. discriminate.
  - apply stable_file_fs_alter; [apply FrameFacts.mkdir_exist_ok_keeps_dirs|].
    intros _ x Hx. discriminate.
Qed.

(** X13. A batch run writes below the output directory only. With the output
    directory and the input directory apart, a regular file that is not
    below the output directory holds after [process_directory] what it held
    before, however the run ends: the input files, and every other file of
    the file system. *)
Theorem process_directory_keeps_files_outside_output
    (lib : Collaborators) (fuel : nat) (input_dir output_dir : string) (scale : float)
    (width height : Z) (simplify : bool) (max_dist : Z)
    (w w' : world lib) (T : FS.node) (r : outcome (Z * Z)) (path data : string) :
  PyStr.startswith_sep (cwd w) = true ->
  fs_lookup w input_dir = Some T ->
  FS.wf_node T = true ->
  FS.is_prefix (components w input_dir) (components w output_dir) = false ->
  FS.is_prefix (components w output_dir) (components w input_dir) = false ->
  (FS.depth T < fuel)%nat ->
  fs_lookup w path = Some (FS.File data) ->
  FS.is_prefix (components w output_dir) (components w path) = false ->
  process_directory fuel input_dir output_dir scale width height simplify max_dist w
    = (r, w') ->
  fs_lookup w' path = Some (FS.File data).
Proof.
  intros Hc Hl Hwf Hio Hoi Hdepth Hfile Hout Hrun.
  assert (Hne : PyStr.nonempty input_dir = true).
  { unfold fs_lookup, FS.resolve in Hl. now destruct (PyStr.nonempty input_dir). }
  assert (Hnp : PyStr.nonempty path = true).
  { unfold fs_lookup, FS.resolve in Hfile. now destruct (PyStr.nonempty path). }
  unfold components in Hio, Hoi, Hout.
  rewrite (WalkPaths.abs_list_norm (cwd w) input_dir Hc) in Hio, Hoi.
  rewrite (WalkPaths.abs_list_norm (cwd w) output_dir Hc) in Hio, Hoi, Hout.
  rewrite (process_directory_listed lib input_dir output_dir scale width height simplify
             max_dist (cwd w) T Hc Hne (conj Hio Hoi) fuel w Hwf Hdepth) in Hrun.
  2:{ split; [|reflexivity]. unfold fs_lookup, FS.resolve in Hl. rewrite Hne in Hl.
      now rewrite WalkPaths.abs_list_norm in Hl by exact Hc. }
  set (P := posixpath.abs_list (cwd w) path) in *.
  assert (Hs : stable lib P (FS.File data) (cwd w) w).
  { split; [|reflexivity]. unfold fs_lookup, FS.resolve in Hfile. now rewrite Hnp in Hfile. }
  assert (Hp : preserves (stable lib P (FS.File data) (cwd w))
                 (makedirs output_dir ;;;
                  process_listed input_dir output_dir scale width height simplify max_dist
                    (svg_files T) (0%Z, 0%Z))).
  { apply preserves_bind.
    - apply stable_file_fs_alter; [apply FrameFacts.mkdir_exist_ok_keeps_dirs|].
      intros _ x Hx. discriminate.
    - intros _. apply preserves_process_listed; auto.
      exact (ListedFacts.svg_files_valid fuel T Hdepth Hwf). }
  destruct (Hp w r w' Hs Hrun) as [Hl' Hc'].
  unfold fs_lookup, FS.resolve. now rewrite Hnp, Hc'.
Qed.

(** [/svgs] processed into [/out]: [/svgs/sub/b.svg], on which [picosvg]
    fails, is as it was. *)
Lemma process_directory_keeps_files_outside_output_witness :
  fs_lookup
    (snd (process_directory 5 "svgs" "out" 1%float 200 200 false 5 (toy_world svgs_tree)))
    "svgs/sub/b.svg" = Some (FS.File "broken").
Proof.
  refine (process_directory_keeps_files_outside_output toy 5 "svgs" "out" 1%float 200 200
            false 5 (toy_world svgs_tree) _
            (FS.Dir [("a.svg", FS.File "<svg/>"); ("notes.txt", FS.File "text");
                     ("sub", FS.Dir [("b.svg", FS.File "broken")])])
            _ "svgs/sub/b.svg" "broken" _ _ _ _ _ _ _ _ (surjective_pairing _));
    try (vm_compute; reflexivity).
  vm_compute. lia.
Defined.

(* ================================================================== *)
(** * [process_directory]: edge cases *)
(* ================================================================== *)

(** X14. An input directory that does not exist, or is not a directory:
    [os.walk] yields nothing, so [process_directory] is [os.makedirs] on the
    output directory and then returns [(0, 0)]; the missing input is not
    reported. The output directory is taken apart from the input path. *)
Theorem process_directory_without_input_directory
    (lib : Collaborators) (fuel : nat) (input_dir output_dir : string) (scale : float)
    (width height : Z) (simplify : bool) (max_dist : Z) (w : world lib) :
  is_directory w input_dir = false ->
  FS.is_prefix (components w input_dir) (components w output_dir) = false ->
  FS.is_prefix (components w output_dir) (components w input_dir) = false ->
  process_directory (S fuel) input_dir output_dir scale width height simplify max_dist w
  = (makedirs output_dir ;;; ret (0%Z, 0%Z)) w.
Proof.
  intros Hd Hio Hoi. unfold process_directory, bind.
  destruct (fs_alter_cases lib true FS.mkdir_exist_ok output_dir w)
    as [[e He]|(q & es & Hr & Ha & He)]; unfold makedirs; rewrite He; [reflexivity|].
  cbn [os_walk]. unfold bind, scandir.
  assert (Hl : fs_lookup (set_fs w es) input_dir = fs_lookup w input_dir).
  { unfold fs_lookup. change (cwd (set_fs w es)) with (cwd w).
    destruct (FS.resolve (cwd w) input_dir) as [p|] eqn:Ep; [|reflexivity].
    unfold FS.resolve in Hr, Ep.
    destruct (PyStr.nonempty output_dir); [|discriminate].
    destruct (PyStr.nonempty input_dir); [|discriminate].
    injection Hr as <-. injection Ep as <-.
    exact (FileFrame.alter_lookup_apart true _ _ _ _ _ Hio Hoi Ha). }
  rewrite Hl. unfold is_directory in Hd.
  destruct (fs_lookup w input_dir) as [[d|es0]|]; try discriminate; reflexivity.
Qed.

(** [/nowhere] does not exist: the run creates [/out] and counts nothing. *)
Lemma process_directory_without_input_directory_witness :
  process_directory 5 "nowhere" "out" 1%float 200 200 false 5 (toy_world svgs_tree)
    = (makedirs "out" ;;; ret (0%Z, 0%Z)) (toy_world svgs_tree)
  /\ fst (process_directory 5 "nowhere" "out" 1%float 200 200 false 5 (toy_world svgs_tree))
     = Ok (0%Z, 0%Z)
  /\ is_directory
       (snd (process_directory 5 "nowhere" "out" 1%float 200 200 false 5
               (toy_world svgs_tree))) "out" = true.
Proof.
  split; [|split; vm_compute; reflexivity].
  refine (process_directory_without_input_directory toy 4 "nowhere" "out" 1%float 200 200
            false 5 (toy_world svgs_tree) _ _ _); vm_compute; reflexivity.
Defined.

(** X15. Two files of the input tree are never written to the same place: the
    output paths of two different lists of names, joined to the same output
    directory, name different places of the file system. *)
Theorem batch_output_paths_are_distinct
    (lib : Collaborators) (output_dir : string) (names1 names2 : list string)
    (w : world lib) :
  PyStr.startswith_sep (cwd w) = true ->
  Forall (fun name => FS.valid_name name = true) names1 ->
  Forall (fun name => FS.valid_name name = true) names2 ->
  names1 <> names2 ->
  components w (posixpath.join_all output_dir names1)
    <> components w (posixpath.join_all output_dir names2).
Proof.
  intros Hc H1 H2 Hne. unfold components.
  rewrite !WalkPaths.abs_list_norm, !WalkPaths.abs_norm_join_all by assumption.
  intros E. apply app_inv_head in E. contradiction.
Qed.

(** [a.svg] and [sub/b.svg] go to [/out/a.svg] and [/out/sub/b.svg]. *)
Lemma batch_output_paths_are_distinct_witness :
  components (toy_world svgs_tree) (posixpath.join_all "out" ["a.svg"])
    <> components (toy_world svgs_tree) (posixpath.join_all "out" ["sub"; "b.svg"]).
Proof.
  refine (batch_output_paths_are_distinct toy "out" ["a.svg"] ["sub"; "b.svg"]
            (toy_world svgs_tree) eq_refl _ _ _).
  - repeat constructor.
  - repeat constructor.
  - discriminate.
Defined.

(* ================================================================== *)
(** * [main]: what it keeps, and the exit status of a batch run *)
(* ================================================================== *)

Section PreservesAll.

Variable lib : Collaborators.
Variable Inv : world lib -> Prop.

Hypothesis Inv_same_fs : forall w w', fs w' = fs w -> cwd w' = cwd w -> Inv w -> Inv w'.

Lemma preserves_os_walk {A} (fuel : nat) (top : string)
    (body : string -> list string -> list string -> A -> M lib A) (acc : A) :
  (forall root dirs files acc', preserves Inv (body root dirs files acc')) ->
  preserves Inv (os_walk fuel top body acc).
Proof.
  intros Hb. revert top acc. induction fuel as [|fuel IH]; intros top acc; cbn [os_walk].
  - intros w r w' HI H. injection H as <- <-. exact HI.
  - apply preserves_bind; [now apply preserves_scandir|].
    intros [[dirs nondirs]|]; [|apply preserves_ret].
    apply preserves_bind; [apply Hb|]. intros acc'.
    apply preserves_for_each. intros dirname acc''. apply IH.
Qed.

(** Every system call of the script keeps [Inv]. *)
Hypothesis Inv_alter :
  forall mk f path, FS.keeps_dirs f -> preserves Inv (fs_alter (lib:=lib) mk f path).

Lemma preserves_any_process_single_file (input_path output_path : string) (scale : float)
    (width height : Z) (simplify : bool) (max_dist : Z) :
  preserves Inv (process_single_file (lib:=lib) input_path output_path scale width height
                   simplify max_dist).
Proof.
  apply preserves_process_single_file.
  - exact Inv_same_fs.
  - intros f Hf. now apply Inv_alter.
  - apply Inv_alter, FrameFacts.mkdir_exist_ok_keeps_dirs.
Qed.

Lemma preserves_process_directory (fuel : nat) (input_dir output_dir : string)
    (scale : float) (width height : Z) (simplify : bool) (max_dist : Z) :
  preserves Inv (process_directory (lib:=lib) fuel input_dir output_dir scale width height
                   simplify max_dist).
Proof.
  unfold process_directory.
  apply preserves_bind; [apply Inv_alter, FrameFacts.mkdir_exist_ok_keeps_dirs|]. intros _.
  apply preserves_os_walk. intros root dirs files acc.
  apply preserves_for_each. intros filename [s f].
  unfold process_directory_file.
  destruct (negb (PyStr.endswith filename ".svg")); [apply preserves_ret|].
  apply preserves_bind.
  - intros w r w' HI. unfold batch_output_path.
    destruct (posixpath.relpath (cwd w) (posixpath.join root filename) input_dir);
      intros H; injection H as <- <-; exact HI.
  - intros output_path.
    apply preserves_bind; [apply preserves_any_process_single_file|].
    intros ok. destruct ok; apply preserves_ret.
Qed.

Lemma preserves_main (fuel : nat) (args : Namespace) :
  preserves Inv (main (lib:=lib) fuel args).
Proof.
  assert (Herr : forall A (message : string),
            preserves Inv (parser_error (lib:=lib) (A:=A) message)).
  { intros A message w r w' HI H. injection H as <- <-.
    now apply (Inv_same_fs w). }
  unfold main.
  apply preserves_bind.
  { destruct (negb (is_not_None (args_input args)) && negb (is_not_None (args_input_dir args)));
      [apply Herr | apply preserves_ret]. }
  intros _. apply preserves_bind.
  { destruct (is_not_None (args_input args) && is_not_None (args_input_dir args));
      [apply Herr | apply preserves_ret]. }
  intros _. destruct (args_input args) as [input|].
  - unfold main_single.
    apply preserves_bind; [apply preserves_any_process_single_file|].
    intros success. destruct success; [now apply preserves_print|].
    apply preserves_bind; [now apply preserves_print|]. intros _.
    intros w r w' HI H. injection H as <- <-. exact HI.
  - destruct (args_input_dir args) as [input_dir|]; [|apply preserves_ret].
    unfold main_batch.
    apply preserves_bind; [apply preserves_process_directory|]. intros counts.
    apply preserves_bind; [now apply preserves_print|]. intros _.
    apply preserves_bind; [now apply preserves_print|]. intros _.
    now apply preserves_print.
Qed.

End PreservesAll.

(** X16. The script removes no directory, and puts nothing else in the place of
    one: a path that is a directory when [main] starts is a directory when
    it ends, in either mode and however it ends. (The system calls of the
    script are [os.makedirs], [open(.., "w")] and [os.remove]; [picosvg] is
    taken to write to its standard output only.) *)
Theorem main_keeps_directories
    (lib : Collaborators) (fuel : nat) (args : Namespace) (w w' : world lib)
    (r : outcome unit) (path : string) :
  is_directory w path = true ->
  main fuel args w = (r, w') ->
  is_directory w' path = true.
Proof.
  intros Hd Hrun.
  refine (preserves_main lib (fun w0 => is_directory w0 path = true)
            _ _ fuel args w r w' Hd Hrun).
  - intros w1 w2 Hfs Hcwd H1.
    unfold is_directory, fs_lookup, root in *. now rewrite Hfs, Hcwd.
  - intros mk f p Hf w1 r1 w2 H1 H.
    destruct (fs_alter_cases lib mk f p w1) as [[e He]|(q & es & Hr & Ha & He)];
      rewrite He in H; injection H as <- <-; [exact H1|].
    unfold is_directory, fs_lookup in *. change (cwd (set_fs w1 es)) with (cwd w1).
    destruct (FS.resolve (cwd w1) path) as [P|]; [|discriminate].
    destruct (FS.lookup P (Some (root w1))) as [[d|es0]|] eqn:El; try discriminate.
    destruct (FileFrame.alter_lookup_dir mk f q P _ _ es0 Hf Ha El) as [es' Hes'].
    change (root (set_fs w1 es)) with (FS.Dir es). now rewrite Hes'.
Qed.

(** A batch run on [/svgs]: [/svgs/sub] is still a directory. *)
Lemma main_keeps_directories_witness :
  is_directory (snd (main 5 (batch_args "svgs") (toy_world svgs_tree))) "svgs/sub" = true.
Proof.
  refine (main_keeps_directories toy 5 (batch_args "svgs") (toy_world svgs_tree)
            _ _ "svgs/sub" _ (surjective_pairing _)).
  vm_compute; reflexivity.
Defined.

(** X17. An output directory that is a regular file: [os.makedirs] raises
    [FileExistsError], which nothing catches. No file is processed, and the
    process ends with status 1. *)
Theorem main_batch_output_dir_is_file
    (lib : Collaborators) (fuel : nat) (args : Namespace) (input_dir data : string)
    (w : world lib) :
  args_input args = None ->
  args_input_dir args = Some input_dir ->
  fs_lookup w (batch_output_dir args input_dir) = Some (FS.File data) ->
  main fuel args w = (Raise FileExistsError, w)
  /\ exit_status (fst (main fuel args w)) = Some 1%Z.
Proof.
  intros Hi Hd Hl.
  assert (Hmk : makedirs (batch_output_dir args input_dir) w = (Raise FileExistsError, w)).
  { unfold makedirs, fs_alter. unfold fs_lookup in Hl.
    destruct (FS.resolve (cwd w) (batch_output_dir args input_dir)) as [p|]; [|discriminate].
    now rewrite (FileFrame.alter_mkdir_file p _ data Hl). }
  assert (Hmain : main fuel args w = (Raise FileExistsError, w)).
  { unfold main. rewrite Hi, Hd. cbn [is_not_None negb andb].
    unfold bind at 1. unfold ret at 1. unfold bind at 1. unfold ret at 1.
    unfold main_batch, process_directory. rewrite !bind_run, Hmk. reflexivity. }
  rewrite Hmain. split; reflexivity.
Qed.

(** [--input_dir svgs --output_dir svgs/notes.txt] *)
Lemma main_batch_output_dir_is_file_witness :
  main 5 {| args_input := None; args_output := None;
            args_input_dir := Some "svgs"; args_output_dir := Some "svgs/notes.txt";
            args_scale := 1%float; args_width := 200; args_height := 200;
            args_max_dist := 5; args_simplify := false |}
    (toy_world svgs_tree)
  = (Raise FileExistsError, toy_world svgs_tree)
  /\ exit_status
       (fst (main 5 {| args_input := None; args_output := None;
                       args_input_dir := Some "svgs";
                       args_output_dir := Some "svgs/notes.txt";
                       args_scale := 1%float; args_width := 200; args_height := 200;
                       args_max_dist := 5; args_simplify := false |}
               (toy_world svgs_tree))) = Some 1%Z.
Proof.
  exact (main_batch_output_dir_is_file toy 5
           {| args_input := None; args_output := None;
              args_input_dir := Some "svgs"; args_output_dir := Some "svgs/notes.txt";
              args_scale := 1%float; args_width := 200; args_height := 200;
              args_max_dist := 5; args_simplify := false |}
           "svgs" "text" (toy_world svgs_tree) eq_refl eq_refl eq_refl).
Defined.

(** X18. In batch mode the exit status does not tell failures: whenever
    [process_directory] returns its counters, [main] prints the three lines
    of the summary and returns, so the process ends with status 0, also when
    files failed. The output directory is [--output_dir], or the input
    directory with [_processed] appended. *)
Theorem main_batch_exit_status
    (lib : Collaborators) (fuel : nat) (args : Namespace) (input_dir : string)
    (w w' : world lib) (success failure : Z) :
  args_input args = None ->
  args_input_dir args = Some input_dir ->
  process_directory fuel input_dir
    (match args_output_dir args with
     | Some output_dir => output_dir
     | None => input_dir +++ "_processed"
     end)
    (args_scale args) (args_width args) (args_height args)
    (args_simplify args) (args_max_dist args) w = (Ok (success, failure), w') ->
  exists w'',
    main fuel args w = (Ok tt, w'')
    /\ exit_status (fst (main fuel args w)) = Some 0%Z
    /\ stdout w'' = stdout w' ++ [PyStr.nl +++ "Batch processing complete:";
                                  "  Success: " +++ str_int success;
                                  "  Failed:  " +++ str_int failure]
    /\ fs w'' = fs w'.
Proof.
  intros Hi Hd Hrun.
  assert (Hmain : main fuel args w
                  = (Ok tt,
                     printed (printed (printed w' (PyStr.nl +++ "Batch processing complete:"))
                                ("  Success: " +++ str_int success))
                       ("  Failed:  " +++ str_int failure))).
  { unfold main. rewrite Hi, Hd. cbn [is_not_None negb andb].
    unfold bind at 1. unfold ret at 1. unfold bind at 1. unfold ret at 1.
    unfold main_batch, batch_output_dir.
    rewrite (bind_Ok lib _ _ _ _ _ Hrun). reflexivity. }
  eexists. split; [exact Hmain|]. rewrite Hmain. repeat split.
  simpl. now rewrite <- !app_assoc.
Qed.

(** [--input_dir svgs --output_dir out]: one file fails, the status is 0. *)
Lemma main_batch_exit_status_witness :
  fst (process_directory 5 "svgs" "out" 1%float 200 200 false 5 (toy_world svgs_tree))
    = Ok (1%Z, 1%Z)
  /\ exists w'',
       main 5 {| args_input := None; args_output := None;
                 args_input_dir := Some "svgs"; args_output_dir := Some "out";
                 args_scale := 1%float; args_width := 200; args_height := 200;
                 args_max_dist := 5; args_simplify := false |}
         (toy_world svgs_tree) = (Ok tt, w'')
       /\ exit_status
            (fst (main 5 {| args_input := None; args_output := None;
                            args_input_dir := Some "svgs"; args_output_dir := Some "out";
                            args_scale := 1%float; args_width := 200; args_height := 200;
                            args_max_dist := 5; args_simplify := false |}
                    (toy_world svgs_tree))) = Some 0%Z
       /\ stdout w''
          = stdout (snd (process_directory 5 "svgs" "out" 1%float 200 200 false 5
                           (toy_world svgs_tree)))
            ++ [PyStr.nl +++ "Batch processing complete:"; "  Success: 1"; "  Failed:  1"].
Proof.
  split; [vm_compute; reflexivity|].
  destruct (main_batch_exit_status toy 5
              {| args_input := None; args_output := None;
                 args_input_dir := Some "svgs"; args_output_dir := Some "out";
                 args_scale := 1%float; args_width := 200; args_height := 200;
                 args_max_dist := 5; args_simplify := false |}
              "svgs" (toy_world svgs_tree)
              (snd (process_directory 5 "svgs" "out" 1%float 200 200 false 5
                      (toy_world svgs_tree)))
              1%Z 1%Z eq_refl eq_refl ltac:(vm_compute; reflexivity))
    as (w'' & Hmain & Hstatus & Hout & _).
  exists w''. split; [exact Hmain|]. split; [exact Hstatus|]. exact Hout.
Defined.

(* ================================================================== *)
(** * [main]: the default output paths *)
(* ================================================================== *)

Module DefaultPaths.
Import PyStr PyStrFacts posixpath WalkPaths.

Lemma sep_free_append (x y : string) : sep_free (x +++ y) = sep_free x && sep_free y.
Proof.
  induction x as [|c x IH]; simpl; [reflexivity|]. now rewrite IH, andb_assoc.
Qed.

Lemma append_inv_head (a x y : string) : a +++ x = a +++ y -> x = y.
Proof. induction a as [|c a IH]; simpl; [auto|]. intros [= H]. auto. Qed.

Lemma endswith_sep_not_sep_free (a t : string) :
  endswith_sep a = true -> sep_free (a +++ t) = false.
Proof.
  intros H. destruct (endswith_sep_inv a H) as [y ->].
  rewrite !sep_free_append. simpl. now rewrite andb_false_r.
Qed.

(** What [join] appends a name to as it is: the empty path, and a path that
    ends with ["/"]. *)
Lemma dir_prefix_tail (c : ascii) (a : string) : (String c a = "" \/ endswith_sep (String c a) = true) ->
  a = "" \/ endswith_sep a = true.
Proof.
  intros [H|H]; [discriminate|]. destruct a as [|c' a']; [now left | now right].
Qed.

(** A suffix without ["/"] of a path lies in its last component. *)
Lemma suffix_in_last_component (a name x ext : string) :
  (a = "" \/ endswith_sep a = true) -> sep_free ext = true ->
  x +++ ext = a +++ name ->
  exists b, x = a +++ b /\ b +++ ext = name.
Proof.
  revert x. induction a as [|c a IH]; intros x Ha Hext H.
  - now exists x.
  - destruct x as [|c' x].
    + exfalso. simpl in H. subst ext.
      destruct Ha as [Ha|Ha]; [discriminate|].
      change (String c (a +++ name)) with (String c a +++ name) in Hext.
      rewrite (endswith_sep_not_sep_free _ name Ha) in Hext. discriminate.
    + simpl in H. injection H as <- H.
      destruct (IH x (dir_prefix_tail _ _ Ha) Hext H) as (b & -> & Hb).
      now exists b.
Qed.

Lemma join_dir_prefix (a name : string) :
  (a = "" \/ endswith_sep a = true) -> FS.valid_name name = true -> join a name = a +++ name.
Proof.
  intros Ha Hv. rewrite (join_name a name Hv).
  destruct Ha as [->|Ha]; [reflexivity|]. rewrite Ha. now rewrite orb_true_r.
Qed.

(** A name with [_processed] put into it is a name, and another one. *)
Lemma processed_name (b ext : string) :
  sep_free b = true -> sep_free ext = true ->
  FS.valid_name (b +++ "_processed" +++ ext) = true
  /\ b +++ "_processed" +++ ext <> b +++ ext.
Proof.
  intros Hb He.
  assert (Hlen : String.length (b +++ "_processed" +++ ext)
                 = (String.length b + 10 + String.length ext)%nat).
  { rewrite !length_append. simpl. lia. }
  split.
  - unfold FS.valid_name. rewrite !sep_free_append, Hb, He. cbn [andb sep_free].
    assert (Hn : nonempty (b +++ "_processed" +++ ext) = true) by (now destruct b).
    rewrite Hn. cbn [andb].
    destruct (String.eqb_spec (b +++ "_processed" +++ ext) ".") as [E|_];
      [rewrite E in Hlen; simpl in Hlen; lia|].
    destruct (String.eqb_spec (b +++ "_processed" +++ ext) "..") as [E|_];
      [rewrite E in Hlen; simpl in Hlen; lia|].
    reflexivity.
  - intros E. rewrite E, length_append in Hlen. lia.
Qed.

(** The default output of single-file mode is the input with another last
    component. *)
Lemma default_output_sibling (a name : string) :
  (a = "" \/ endswith_sep a = true) -> FS.valid_name name = true ->
  exists name',
    default_output (a +++ name) = a +++ name'
    /\ FS.valid_name name' = true /\ name' <> name.
Proof.
  intros Ha Hv. unfold default_output.
  pose proof (posixpathFacts.splitext_concat (a +++ name)) as Hcat.
  pose proof (posixpathFacts.splitext_ext_sep_free (a +++ name)) as Hext.
  destruct (splitext (a +++ name)) as [base ext]. cbn [fst snd] in *.
  destruct (suffix_in_last_component a name base ext Ha Hext Hcat) as (b & -> & Hb).
  assert (Hsf : sep_free b = true).
  { pose proof (valid_name_sep_free name Hv) as Hn. rewrite <- Hb, sep_free_append in Hn.
    now apply andb_prop in Hn as [Hn _]. }
  destruct (processed_name b ext Hsf Hext) as [Hval Hne].
  exists (b +++ "_processed" +++ ext). split; [now rewrite append_assoc|].
  split; [exact Hval|]. now rewrite <- Hb.
Qed.

Lemma is_prefix_app_l (p x y : list string) :
  FS.is_prefix (p ++ x) (p ++ y) = FS.is_prefix x y.
Proof. induction p as [|a p IH]; simpl; [reflexivity|]. now rewrite String.eqb_refl. Qed.

(** Two paths that differ in their last component only lie apart. *)
Lemma siblings_apart (c a name name' : string) :
  startswith_sep c = true -> (a = "" \/ endswith_sep a = true) ->
  FS.valid_name name = true -> FS.valid_name name' = true -> name <> name' ->
  abs_list c (a +++ name) = abs_norm (abs_of c a) ++ [name]
  /\ abs_list c (a +++ name') = abs_norm (abs_of c a) ++ [name']
  /\ FS.is_prefix (abs_list c (a +++ name)) (abs_list c (a +++ name')) = false
  /\ FS.is_prefix (abs_list c (a +++ name')) (abs_list c (a +++ name)) = false.
Proof.
  intros Hc Ha Hv Hv' Hne.
  assert (H1 : abs_list c (a +++ name) = abs_norm (abs_of c a) ++ [name]).
  { rewrite <- (join_dir_prefix a name Ha Hv), abs_list_norm by exact Hc.
    now apply abs_norm_step. }
  assert (H2 : abs_list c (a +++ name') = abs_norm (abs_of c a) ++ [name']).
  { rewrite <- (join_dir_prefix a name' Ha Hv'), abs_list_norm by exact Hc.
    now apply abs_norm_step. }
  rewrite H1, H2, !is_prefix_app_l. cbn [FS.is_prefix].
  destruct (String.eqb_spec name name') as [E|_]; [contradiction|].
  destruct (String.eqb_spec name' name) as [E|_]; [now symmetry in E|].
  repeat split; reflexivity.
Qed.

End DefaultPaths.

(** X19. Without [--output_dir], and with an input directory given by a path
    whose last component is a name (no ["/"] at the end, not ["."] or
    [".."]), the output directory [<input_dir>_processed] is a sibling of
    the input directory: same parent, another name. The two lie apart, so
    the walk does not meet what the run writes. *)
Theorem main_batch_default_output_dir_is_sibling
    (lib : Collaborators) (args : Namespace) (a name : string) (w : world lib) :
  args_output_dir args = None ->
  PyStr.startswith_sep (cwd w) = true ->
  a = "" \/ PyStr.endswith_sep a = true ->
  FS.valid_name name = true ->
  batch_output_dir args (a +++ name) = a +++ (name +++ "_processed")
  /\ components w (a +++ name) = components w a ++ [name]
  /\ components w (batch_output_dir args (a +++ name))
     = components w a ++ [name +++ "_processed"]
  /\ FS.is_prefix (components w (a +++ name))
       (components w (batch_output_dir args (a +++ name))) = false
  /\ FS.is_prefix (components w (batch_output_dir args (a +++ name)))
       (components w (a +++ name)) = false.
Proof.
  intros Ho Hc Ha Hv.
  assert (Hout : batch_output_dir args (a +++ name) = a +++ (name +++ "_processed")).
  { unfold batch_output_dir. rewrite Ho. apply PyStrFacts.append_assoc. }
  pose proof (WalkPaths.valid_name_sep_free name Hv) as Hsf.
  destruct (DefaultPaths.processed_name name "" Hsf eq_refl) as [Hv' Hne].
  change (name +++ "_processed" +++ "") with (name +++ "_processed") in Hv', Hne.
  rewrite (PyStrFacts.append_nil_r name) in Hne.
  destruct (DefaultPaths.siblings_apart (cwd w) a name (name +++ "_processed") Hc Ha Hv Hv'
              (fun E => Hne (eq_sym E))) as (H1 & H2 & H3 & H4).
  unfold components. rewrite Hout.
  rewrite (WalkPaths.abs_list_norm (cwd w) a Hc).
  repeat split; assumption.
Qed.

(** [--input_dir data/svgs] writes to [data/svgs_processed]. *)
Lemma main_batch_default_output_dir_is_sibling_witness :
  batch_output_dir (batch_args "data/svgs") "data/svgs" = "data/svgs_processed"
  /\ components (toy_world svgs_tree) "data/svgs" = ["data"; "svgs"]
  /\ components (toy_world svgs_tree) (batch_output_dir (batch_args "data/svgs") "data/svgs")
     = ["data"; "svgs_processed"].
Proof.
  destruct (main_batch_default_output_dir_is_sibling toy (batch_args "data/svgs")
              "data/" "svgs" (toy_world svgs_tree) eq_refl eq_refl (or_intror eq_refl)
              eq_refl) as (H1 & H2 & H3 & _).
  split; [exact H1|]. split; [exact H2 | exact H3].
Defined.

(** [process_directory] with the two directories apart: the input tree
    stays, and the counters add up to the number of its [.svg] files. *)
Lemma triple_process_directory
    (lib : Collaborators) (fuel : nat) (input_dir output_dir : string) (scale : float)
    (width height : Z) (simplify : bool) (max_dist : Z) (c : string) (T : FS.node) :
  PyStr.startswith_sep c = true ->
  PyStr.nonempty input_dir = true ->
  FS.is_prefix (posixpath.abs_list c input_dir) (posixpath.abs_list c output_dir) = false ->
  FS.is_prefix (posixpath.abs_list c output_dir) (posixpath.abs_list c input_dir) = false ->
  FS.wf_node T = true -> (FS.depth T < fuel)%nat ->
  triple lib (posixpath.abs_list c input_dir) T c
    (process_directory fuel input_dir output_dir scale width height simplify max_dist)
    (fun counts =>
       (fst counts + snd counts = Z.of_nat (FS.count_svg T))%Z
       /\ (0 <= fst counts)%Z /\ (0 <= snd counts)%Z).
Proof.
  intros Hc Hne Hio Hoi Hwf Hdepth.
  rewrite (WalkPaths.abs_list_norm c input_dir Hc) in *.
  rewrite (WalkPaths.abs_list_norm c output_dir Hc) in *.
  unfold process_directory.
  apply (triple_bind lib _ T c _ _ (fun _ => True)).
  - apply keeps_fs_alter; [apply FrameFacts.mkdir_exist_ok_keeps_dirs|].
    now rewrite WalkPaths.abs_list_norm by exact Hc.
  - intros _ _.
    eapply triple_weaken.
    + apply (triple_os_walk lib input_dir output_dir scale width height simplify max_dist
               c T Hc Hne (conj Hio Hoi) fuel [] T (0%Z, 0%Z)); auto.
    + intros [s f]. simpl. lia.
Qed.

(** X20. The default batch run. With [--input_dir] a path whose last component
    is a name and without [--output_dir], [main] leaves the input tree as it
    is, and, unless an exception ends the run, the last three lines it
    prints are the summary, with counters that add up to the number of files
    of the input tree whose names end in [.svg]. *)
Theorem main_batch_default_run
    (lib : Collaborators) (fuel : nat) (args : Namespace) (a name : string)
    (w w' : world lib) (T : FS.node) (r : outcome unit) :
  PyStr.startswith_sep (cwd w) = true ->
  args_input args = None ->
  args_input_dir args = Some (a +++ name) ->
  args_output_dir args = None ->
  a = "" \/ PyStr.endswith_sep a = true ->
  FS.valid_name name = true ->
  fs_lookup w (a +++ name) = Some T ->
  FS.wf_node T = true ->
  (FS.depth T < fuel)%nat ->
  main fuel args w = (r, w') ->
  fs_lookup w' (a +++ name) = Some T
  /\ ((exists e, r = Raise e)
      \/ (r = Ok tt
          /\ exists (success failure : Z) (printed_before : list string),
               (success + failure)%Z = Z.of_nat (FS.count_svg T)
               /\ (0 <= success)%Z /\ (0 <= failure)%Z
               /\ stdout w'
                  = printed_before
                    ++ [PyStr.nl +++ "Batch processing complete:";
                        "  Success: " +++ str_int success;
                        "  Failed:  " +++ str_int failure])).
Proof.
  intros Hc Hi Hd Ho Ha Hv Hl Hwf Hdepth Hrun.
  set (input_dir := a +++ name) in *.
  assert (Hout : batch_output_dir args input_dir = a +++ (name +++ "_processed")).
  { unfold batch_output_dir. rewrite Ho. apply PyStrFacts.append_assoc. }
  pose proof (WalkPaths.valid_name_sep_free name Hv) as Hsf.
  destruct (DefaultPaths.processed_name name "" Hsf eq_refl) as [Hv' Hne].
  change (name +++ "_processed" +++ "") with (name +++ "_processed") in Hv', Hne.
  rewrite (PyStrFacts.append_nil_r name) in Hne.
  destruct (DefaultPaths.siblings_apart (cwd w) a name (name +++ "_processed") Hc Ha Hv Hv'
              (fun E => Hne (eq_sym E))) as (_ & _ & Hio & Hoi).
  assert (Hn : PyStr.nonempty input_dir = true).
  { unfold fs_lookup, FS.resolve in Hl. now destruct (PyStr.nonempty input_dir). }
  assert (Hs : stable lib (posixpath.abs_list (cwd w) input_dir) T (cwd w) w).
  { split; [|reflexivity]. unfold fs_lookup, FS.resolve in Hl. now rewrite Hn in Hl. }
  pose proof (triple_process_directory lib fuel input_dir (a +++ (name +++ "_processed"))
                (args_scale args) (args_width args) (args_height args)
                (args_simplify args) (args_max_dist args) (cwd w) T
                Hc Hn Hio Hoi Hwf Hdepth) as Htr.
  unfold main in Hrun. rewrite Hi, Hd in Hrun. cbn [is_not_None negb andb] in Hrun.
  unfold bind at 1 in Hrun. unfold ret at 1 in Hrun.
  unfold bind at 1 in Hrun. unfold ret at 1 in Hrun.
  unfold main_batch in Hrun. rewrite Hout in Hrun. rewrite bind_run in Hrun.
  destruct (process_directory fuel input_dir (a +++ (name +++ "_processed"))
              (args_scale args) (args_width args) (args_height args)
              (args_simplify args) (args_max_dist args) w) as [r1 w1] eqn:E1.
  destruct (Htr w r1 w1 Hs E1) as [[Hl1 Hc1] Hr1]. cbn [fst snd] in Hrun.
  assert (Hlook : forall w2 : world lib, fs w2 = fs w1 -> cwd w2 = cwd w1 ->
            fs_lookup w2 input_dir = Some T).
  { intros w2 Hfs Hcwd. unfold fs_lookup, FS.resolve, root. rewrite Hn, Hfs, Hcwd, Hc1.
    exact Hl1. }
  destruct r1 as [[s f]|e|x|]; try contradiction.
  - injection Hrun as <- <-. split; [now apply Hlook|]. right. split; [reflexivity|].
    exists s, f, (stdout w1). cbn [fst snd] in Hr1.
    repeat split; try lia. simpl. now rewrite <- !app_assoc.
  - injection Hrun as <- <-. split; [now apply Hlook|]. left. eauto.
Qed.

(** [--input_dir svgs] on [/svgs]: two files, one of them fails. *)
Lemma main_batch_default_run_witness :
  fs_lookup (snd (main 5 (batch_args "svgs") (toy_world svgs_tree))) "svgs"
    = Some (FS.Dir [("a.svg", FS.File "<svg/>"); ("notes.txt", FS.File "text");
                    ("sub", FS.Dir [("b.svg", FS.File "broken")])])
  /\ fst (main 5 (batch_args "svgs") (toy_world svgs_tree)) = Ok tt
  /\ is_directory (snd (main 5 (batch_args "svgs") (toy_world svgs_tree)))
       "svgs_processed" = true.
Proof.
  split; [|split; vm_compute; reflexivity].
  refine (proj1 (main_batch_default_run toy 5 (batch_args "svgs") "" "svgs"
                   (toy_world svgs_tree) _
                   (FS.Dir [("a.svg", FS.File "<svg/>"); ("notes.txt", FS.File "text");
                            ("sub", FS.Dir [("b.svg", FS.File "broken")])])
                   _ eq_refl eq_refl eq_refl eq_refl (or_introl eq_refl) eq_refl eq_refl
                   eq_refl _ (surjective_pairing _))).
  vm_compute. lia.
Defined.

(** X21. Single-file mode without [--output] does not touch the input file: the
    default output path differs from the input path in its last component,
    and [process_single_file] changes no other file than its output. The
    input is given by a path whose last component is a name. *)
Theorem main_single_default_output_keeps_input
    (lib : Collaborators) (fuel : nat) (args : Namespace) (a name data : string)
    (w w' : world lib) (r : outcome unit) :
  PyStr.startswith_sep (cwd w) = true ->
  args_input args = Some (a +++ name) ->
  args_input_dir args = None ->
  args_output args = None ->
  a = "" \/ PyStr.endswith_sep a = true ->
  FS.valid_name name = true ->
  fs_lookup w (a +++ name) = Some (FS.File data) ->
  main fuel args w = (r, w') ->
  fs_lookup w' (a +++ name) = Some (FS.File data)
  /\ components w (single_output args (a +++ name)) <> components w (a +++ name).
Proof.
  intros Hc Hi Hd Ho Ha Hv Hl Hrun.
  destruct (DefaultPaths.default_output_sibling a name Ha Hv) as (name' & Hdef & Hv' & Hne).
  assert (Hout : single_output args (a +++ name) = a +++ name').
  { unfold single_output. now rewrite Ho. }
  destruct (DefaultPaths.siblings_apart (cwd w) a name name' Hc Ha Hv Hv'
              (fun E => Hne (eq_sym E))) as (H1 & H2 & _ & _).
  assert (Hdiff : posixpath.abs_list (cwd w) (a +++ name)
                  <> posixpath.abs_list (cwd w) (a +++ name')).
  { rewrite H1, H2. intros E. apply app_inv_head in E. injection E as E. now apply Hne. }
  split; [|unfold components; rewrite Hout; intros E; now apply Hdiff].
  assert (Hn : PyStr.nonempty (a +++ name) = true).
  { unfold fs_lookup, FS.resolve in Hl. now destruct (PyStr.nonempty (a +++ name)). }
  assert (Hs : stable lib (posixpath.abs_list (cwd w) (a +++ name)) (FS.File data) (cwd w) w).
  { split; [|reflexivity]. unfold fs_lookup, FS.resolve in Hl. now rewrite Hn in Hl. }
  rewrite (main_single_mode lib fuel args w (a +++ name) Hi Hd) in Hrun.
  assert (Hp : preserves
                 (stable lib (posixpath.abs_list (cwd w) (a +++ name)) (FS.File data) (cwd w))
                 (main_single args (a +++ name))).
  { unfold main_single. rewrite Hout.
    assert (Hsame : forall w1 w2 : world lib, fs w2 = fs w1 -> cwd w2 = cwd w1 ->
              stable lib (posixpath.abs_list (cwd w) (a +++ name)) (FS.File data) (cwd w) w1 ->
              stable lib (posixpath.abs_list (cwd w) (a +++ name)) (FS.File data) (cwd w) w2).
    { intros w1 w2. apply stable_same_fs. }
    apply preserves_bind; [now apply stable_file_process_single_file|].
    intros success. destruct success; [now apply preserves_print|].
    apply preserves_bind; [now apply preserves_print|]. intros _.
    intros w1 r1 w2 HI H. injection H as <- <-. exact HI. }
  destruct (Hp w r w' Hs Hrun) as [Hl' Hc'].
  unfold fs_lookup, FS.resolve. now rewrite Hn, Hc'.
Qed.

(** [--input svgs/sub/b.svg], on which the toy [picosvg] fails. *)
Lemma main_single_default_output_keeps_input_witness :
  fs_lookup (snd (main 3 (single_args "svgs/sub/b.svg") (toy_world svgs_tree)))
    "svgs/sub/b.svg" = Some (FS.File "broken")
  /\ components (toy_world svgs_tree)
       (single_output (single_args "svgs/sub/b.svg") "svgs/sub/b.svg")
     <> components (toy_world svgs_tree) "svgs/sub/b.svg".
Proof.
  exact (main_single_default_output_keeps_input toy 3 (single_args "svgs/sub/b.svg")
           "svgs/sub/" "b.svg" "broken" (toy_world svgs_tree) _ _
           eq_refl eq_refl eq_refl eq_refl (or_intror eq_refl) eq_refl eq_refl
           (surjective_pairing _)).
Defined.
